(** * zotero-fetch: a shallow embedding of [main.go] and its properties

    The program is a command-line front end over the SQLite database of a
    reference manager: it lists items, opens the attachment of an item and
    prints a reference to it.

    How the program is modelled:
    - a Go string is a sequence of bytes, here a [string]; runes are
      integers ([Z]) read and written as [unicode/utf8] and the runtime do;
      a Go [int] is a [Z] whose subtraction wraps at 64 bits;
    - [sql.NullString], [Item] and [Config] are records; a Go result pair
      [(value, error)] is a pair, so that an error with a value beside it
      could be told apart;
    - a run-time panic is [None];
    - the database is a collection of tables, lists of rows with the
      columns the query names; the query [baseQuery] is the Rocq function
      [Sqlite.run_select], its LIKE operator [Sqlite.like]; the statement
      texts the program builds are kept as texts and given their meaning by
      [prepare];
    - what the program cannot decide (whether the database answers, whether
      the OS command succeeds) is an environment [Env]; what it acts on
      (the database, standard output, the log, the commands started, the
      statements sent) is a [World], threaded through a small state monad;
    - [main] starts after [flag.Parse()]: the flag values and the
      positional arguments are its input.

    Where the model fixes what SQLite leaves open, or is narrower:
    - the columns [key], [value] and [name] hold text (no NULL);
    - of the rows of a group, a bare column is read off the first one,
      the groups come and [GROUP_CONCAT] joins in the order of the
      tables; SQLite promises none of this, and the properties of
      listings and fetches are stated on what does not depend on it
      (the set of keys, a title of the item, the set of tag names and
      of attachment entries);
    - a LIKE pattern over the limit of 50000 bytes makes the statement
      fail, also when no row would have reached the operator;
      properties that tell which result a listing has assume filters
      within the limit.

    Not modelled: the time stamp of the logger, the errors of writing to
    standard output (the program ignores them). *)

From Stdlib Require Import ZArith List Bool Lia String Ascii.
Import ListNotations.

Open Scope string_scope.
Open Scope Z_scope.

(* ================================================================== *)
(** * Go strings: bytes and runes *)
(* ================================================================== *)

Module GoString.

(** The value of a byte, 0..255. *)
Definition byte_val (a : ascii) : Z := Z.of_N (N_of_ascii a).

Definition byte_of (b : Z) : ascii := ascii_of_N (Z.to_N b).

Fixpoint bytes (s : string) : list Z :=
  match s with
  | EmptyString => []
  | String a r => byte_val a :: bytes r
  end.

Fixpoint of_bytes (l : list Z) : string :=
  match l with
  | [] => EmptyString
  | b :: r => String (byte_of b) (of_bytes r)
  end.

(** [s == ""] *)
Definition is_empty (s : string) : bool :=
  match s with EmptyString => true | _ => false end.

(** [strings.Repeat(" ", n)] *)
Fixpoint spaces (n : nat) : string :=
  match n with
  | O => ""
  | S k => String " " (spaces k)
  end.

(** Does byte [c] occur in [s]? *)
Fixpoint has_byte (c : ascii) (s : string) : bool :=
  match s with
  | EmptyString => false
  | String a r => Ascii.eqb a c || has_byte c r
  end.

(** [strings.Split(s, sep)] for a one-byte separator (both call sites of
    the program pass one): the pieces between the separators, always at
    least one piece. *)
Fixpoint strings_Split (s : string) (sep : ascii) : list string :=
  match s with
  | EmptyString => [""]
  | String a r =>
      if Ascii.eqb a sep then "" :: strings_Split r sep
      else match strings_Split r sep with
           | [] => [String a ""]
           | p :: ps => String a p :: ps
           end
  end.

(** The split of [s] at the first occurrence of byte [sep], if any. *)
Fixpoint cut (s : string) (sep : ascii) : option (string * string) :=
  match s with
  | EmptyString => None
  | String a r =>
      if Ascii.eqb a sep then Some ("", r)
      else match cut r sep with
           | Some (p, q) => Some (String a p, q)
           | None => None
           end
  end.

(** [strings.SplitN(s, sep, 2)] for a one-byte separator: at most two
    pieces, cut at the first separator. *)
Definition strings_SplitN2 (s : string) (sep : ascii) : list string :=
  match cut s sep with
  | Some (p, q) => [p; q]
  | None => [s]
  end.

(** [strings.HasPrefix] with the remainder: [Some rest] when [s = p ++ rest]. *)
Fixpoint strip_prefix (p s : string) : option string :=
  match p with
  | EmptyString => Some s
  | String a p' =>
      match s with
      | EmptyString => None
      | String b s' => if Ascii.eqb a b then strip_prefix p' s' else None
      end
  end.

(** [strings.TrimPrefix(s, prefix)] *)
Definition strings_TrimPrefix (s prefix : string) : string :=
  match strip_prefix prefix s with
  | Some r => r
  | None => s
  end.

(** [strings.Join(elems, sep)] *)
Fixpoint strings_Join (elems : list string) (sep : string) : string :=
  match elems with
  | [] => ""
  | [e] => e
  | e :: r => e ++ sep ++ strings_Join r sep
  end.

End GoString.

(* ------------------------------------------------------------------ *)
(** ** UTF-8 as the Go runtime and [unicode/utf8] read and write it *)
(* ------------------------------------------------------------------ *)

Module Utf8.
Import GoString.

Definition RuneError : Z := 0xFFFD.
Definition MaxRune : Z := 0x10FFFF.
Definition surrogateMin : Z := 0xD800.
Definition surrogateMax : Z := 0xDFFF.

Definition between (lo hi b : Z) : bool := (lo <=? b) && (b <=? hi).

(** The [first] table of [unicode/utf8] together with [acceptRanges]:
    for a leading byte, the length of the sequence and the range accepted
    for the second byte; [None] for ASCII and for invalid leading bytes
    (both are one byte wide). *)
Definition first (b0 : Z) : option (nat * Z * Z) :=
  if b0 <? 0xC2 then None
  else if b0 <? 0xE0 then Some (2%nat, 0x80, 0xBF)
  else if b0 =? 0xE0 then Some (3%nat, 0xA0, 0xBF)
  else if b0 =? 0xED then Some (3%nat, 0x80, 0x9F)
  else if b0 <? 0xF0 then Some (3%nat, 0x80, 0xBF)
  else if b0 =? 0xF0 then Some (4%nat, 0x90, 0xBF)
  else if b0 <? 0xF4 then Some (4%nat, 0x80, 0xBF)
  else if b0 =? 0xF4 then Some (4%nat, 0x80, 0x8F)
  else None.

(** [utf8.DecodeRuneInString]: the first rune of a byte sequence and its
    width.  An invalid or truncated sequence decodes to [RuneError] with
    width 1; the empty sequence to [RuneError] with width 0. *)
Definition DecodeRune (bs : list Z) : Z * nat :=
  match bs with
  | [] => (RuneError, 0%nat)
  | b0 :: r =>
      if b0 <? 0x80 then (b0, 1%nat)
      else
        match first b0 with
        | None => (RuneError, 1%nat)
        | Some (sz, lo, hi) =>
            match r with
            | [] => (RuneError, 1%nat)
            | b1 :: r1 =>
                if negb (between lo hi b1) then (RuneError, 1%nat)
                else if (sz <=? 2)%nat then
                  (Z.lor (Z.shiftl (Z.land b0 0x1F) 6) (Z.land b1 0x3F), 2%nat)
                else
                  match r1 with
                  | [] => (RuneError, 1%nat)
                  | b2 :: r2 =>
                      if negb (between 0x80 0xBF b2) then (RuneError, 1%nat)
                      else if (sz <=? 3)%nat then
                        (Z.lor (Z.lor (Z.shiftl (Z.land b0 0x0F) 12)
                                      (Z.shiftl (Z.land b1 0x3F) 6))
                               (Z.land b2 0x3F), 3%nat)
                      else
                        match r2 with
                        | [] => (RuneError, 1%nat)
                        | b3 :: _ =>
                            if negb (between 0x80 0xBF b3) then (RuneError, 1%nat)
                            else
                              (Z.lor (Z.lor (Z.lor (Z.shiftl (Z.land b0 0x07) 18)
                                                   (Z.shiftl (Z.land b1 0x3F) 12))
                                            (Z.shiftl (Z.land b2 0x3F) 6))
                                     (Z.land b3 0x3F), 4%nat)
                        end
                  end
            end
        end
  end.

(** The decoding loop [for i := 0; i < len(s); i += width]: [skip] is the
    number of bytes of the current rune still to be stepped over. *)
Fixpoint runes_from (skip : nat) (bs : list Z) : list Z :=
  match bs with
  | [] => []
  | _ :: r =>
      match skip with
      | S k => runes_from k r
      | O => let (c, w) := DecodeRune bs in c :: runes_from (Nat.pred w) r
      end
  end.

(** [[]rune(s)] *)
Definition runes (s : string) : list Z := runes_from 0 (bytes s).

Fixpoint count_from (skip : nat) (bs : list Z) : nat :=
  match bs with
  | [] => O
  | _ :: r =>
      match skip with
      | S k => count_from k r
      | O => S (count_from (Nat.pred (snd (DecodeRune bs))) r)
      end
  end.

(** [utf8.RuneCountInString(s)] *)
Definition RuneCountInString (s : string) : nat := count_from 0 (bytes s).

(** [utf8.AppendRune]: the UTF-8 encoding of a rune; runes out of range
    and surrogates are written as the encoding of [RuneError]. *)
Definition EncodeRune (r : Z) : list Z :=
  if (0 <=? r) && (r <=? 0x7F) then [r]
  else if (0 <=? r) && (r <=? 0x7FF) then
    [Z.lor 0xC0 (Z.shiftr r 6); Z.lor 0x80 (Z.land r 0x3F)]
  else if (r <? 0) || (MaxRune <? r) || between surrogateMin surrogateMax r then
    [0xEF; 0xBF; 0xBD]
  else if r <=? 0xFFFF then
    [Z.lor 0xE0 (Z.shiftr r 12);
     Z.lor 0x80 (Z.land (Z.shiftr r 6) 0x3F);
     Z.lor 0x80 (Z.land r 0x3F)]
  else
    [Z.lor 0xF0 (Z.shiftr r 18);
     Z.lor 0x80 (Z.land (Z.shiftr r 12) 0x3F);
     Z.lor 0x80 (Z.land (Z.shiftr r 6) 0x3F);
     Z.lor 0x80 (Z.land r 0x3F)].

Definition is_byte (b : Z) : Prop := 0 <= b < 256.

(** [string(rs)] for a rune slice *)
Definition string_of_runes (rs : list Z) : string :=
  of_bytes (List.concat (map EncodeRune rs)).

End Utf8.

(* ------------------------------------------------------------------ *)
(** ** [path/filepath] on a Unix host *)
(* ------------------------------------------------------------------ *)

Module Filepath.
Import GoString.

Definition Separator : ascii := "/"%char.

(** One element of the path against the stack of elements kept so far
    (innermost first): empty and [.] elements vanish, [..] removes the
    last real element, stays when there is none to remove and the path is
    relative, and vanishes at the root. *)
Definition clean_step (rooted : bool) (stack : list string) (e : string)
  : list string :=
  if String.eqb e "" || String.eqb e "." then stack
  else if String.eqb e ".." then
    match stack with
    | top :: rest => if String.eqb top ".." then e :: stack else rest
    | [] => if rooted then [] else [e]
    end
  else e :: stack.

(** [filepath.Clean]: the shortest path equivalent to [path] by purely
    lexical processing. *)
Definition Clean (path : string) : string :=
  match path with
  | EmptyString => "."
  | String c _ =>
      let rooted := Ascii.eqb c Separator in
      let stack := fold_left (clean_step rooted) (strings_Split path Separator) [] in
      let out := (if rooted then "/" else "") ++ strings_Join (rev stack) "/" in
      if is_empty out then "." else out
  end.

(** [filepath.Join]: leading empty elements are dropped, the rest is joined
    with the separator and cleaned; all elements empty gives [""]. *)
Fixpoint Join (elem : list string) : string :=
  match elem with
  | [] => ""
  | e :: r => if is_empty e then Join r else Clean (strings_Join elem "/")
  end.

End Filepath.

(* ================================================================== *)
(** * The program: data *)
(* ================================================================== *)

Import GoString.

(** [Config] holds application-wide configuration. *)
Record Config := mkConfig {
  DBPath : string;
  StoragePath : string;
  Version : string
}.

(** [sql.NullString] *)
Record NullString := mkNullString {
  NString : string;
  Valid : bool
}.

(** [Item] represents a library item with its metadata. *)
Record Item := mkItem {
  StableID : string;
  Title : string;
  Tags : NullString;
  Attachments : NullString
}.

(** A Go [int]: the result of an arithmetic operation wraps at 64 bits. *)
Definition int_wrap (z : Z) : Z := (z + 2 ^ 63) mod 2 ^ 64 - 2 ^ 63.

Definition TAB : string := String (ascii_of_nat 9) "".
Definition NL : string := String (ascii_of_nat 10) "".

(* ================================================================== *)
(** * The program: pure helpers of the CLI *)
(* ================================================================== *)

(** [getStoragePath] returns the full storage path for an item's
    attachment. *)
Definition getStoragePath (cfg : Config) (item : Item) : string :=
  if negb (Valid (Attachments item)) || is_empty (NString (Attachments item))
  then ""
  else
    match strings_Split (NString (Attachments item)) ","%char with
    | [] => ""
    | a0 :: _ =>
        match strings_SplitN2 a0 ":"%char with
        | [p0; p1] =>
            Filepath.Join [StoragePath cfg; p0; strings_TrimPrefix p1 "storage:"]
        | _ => ""
        end
    end.

(** [truncateString].  [None] is the run-time panic of the slice
    expression [runes[:n-3]].  In the branch that slices, [n] is below
    [len(runes)], so the upper bound is either below the length or, after a
    wrap-around of [n-3], beyond any capacity. *)
Definition truncateString (s : string) (n : Z) : option string :=
  if Z.of_nat (Utf8.RuneCountInString s) <=? n then Some s
  else
    let rs := Utf8.runes s in
    let hi := int_wrap (n - 3) in
    if (0 <=? hi) && (hi <=? Z.of_nat (List.length rs))
    then Some (Utf8.string_of_runes (firstn (Z.to_nat hi) rs) ++ "...")
    else None.

(** The verb [%-Ns] of [fmt]: the operand padded with spaces on the right
    to [w] runes. *)
Definition fmt_pad (w : nat) (s : string) : string :=
  s ++ spaces (w - Utf8.RuneCountInString s).

(** ["%-8s\t%-25s\t%-15s\t%s\n"] *)
Definition fmt_row (id title tags path : string) : string :=
  fmt_pad 8 id ++ TAB ++ fmt_pad 25 title ++ TAB ++ fmt_pad 15 tags ++ TAB
  ++ path ++ NL.

(** The body of the loop over the attachments in [printItem]. *)
Definition print_attachment (cfg : Config) (id title tags att : string)
  : list string :=
  match strings_SplitN2 att ":"%char with
  | [p0; p1] =>
      [fmt_row id title tags
         (Filepath.Join [StoragePath cfg; p0; strings_TrimPrefix p1 "storage:"])]
  | _ => []
  end.

(** [printItem] formats and prints item information: the result is the
    list of writes to standard output, one per call of [fmt.Println] or
    [fmt.Printf]; [None] is a panic. *)
Definition printItem (cfg : Config) (item : Item) (verbose : bool)
  : option (list string) :=
  if negb verbose then Some [StableID item ++ NL]
  else
    match truncateString (Title item) 25 with
    | None => None
    | Some title =>
        match (if Valid (Tags item)
               then truncateString (NString (Tags item)) 15
               else Some "") with
        | None => None
        | Some tags =>
            if Valid (Attachments item)
               && negb (is_empty (NString (Attachments item)))
            then
              Some (flat_map (print_attachment cfg (StableID item) title tags)
                             (strings_Split (NString (Attachments item)) ","%char))
            else
              Some [fmt_row (StableID item) title tags ""]
        end
    end.

(** The storage paths [printItem] prints for the attachments field. *)
Definition attachment_paths (cfg : Config) (item : Item) : list string :=
  if Valid (Attachments item) && negb (is_empty (NString (Attachments item)))
  then
    flat_map (fun att =>
                match strings_SplitN2 att ":"%char with
                | [p0; p1] =>
                    [Filepath.Join [StoragePath cfg; p0;
                                    strings_TrimPrefix p1 "storage:"]]
                | _ => []
                end)
             (strings_Split (NString (Attachments item)) ","%char)
  else [""].

Definition cfg0 : Config :=
  mkConfig "/Users/vania/data/zotero/zotero.sqlite"
           "/Users/vania/data/zotero/storage/"
           "1.0".

(* ================================================================== *)
(** * The database: tables, the LIKE operator and the program's query *)
(* ================================================================== *)

Module Sqlite.

(** ** Tables.  The columns are those the query names; [parentItemID] and
    [path] are nullable (the query tests one with [IS NOT NULL] and wraps
    the other in [COALESCE]); the other columns are taken to hold a
    value (no NULL). *)

Record items_row := mk_items {
  itemID : Z; itemTypeID : Z; key : string }.
Record itemData_row := mk_itemData {
  id_itemID : Z; id_fieldID : Z; id_valueID : Z }.
Record itemDataValues_row := mk_itemDataValues {
  idv_valueID : Z; idv_value : string }.
Record itemTypes_row := mk_itemTypes {
  it_itemTypeID : Z; it_display : Z }.
Record itemTags_row := mk_itemTags {
  itag_itemID : Z; itag_tagID : Z }.
Record tags_row := mk_tags {
  t_tagID : Z; t_name : string }.
Record itemAttachments_row := mk_itemAttachments {
  ia_itemID : Z; ia_parentItemID : option Z; ia_path : option string }.
Record fields_row := mk_fields {
  f_fieldID : Z; f_fieldName : string }.

Record Database := mkDatabase {
  items : list items_row;
  itemData : list itemData_row;
  itemDataValues : list itemDataValues_row;
  itemTypes : list itemTypes_row;
  itemTags : list itemTags_row;
  tags : list tags_row;
  itemAttachments : list itemAttachments_row;
  fields : list fields_row
}.

(** ** The LIKE operator *)

(** The lookup table [sqlite3Utf8Trans1] for a leading byte [>= 0xC0]. *)
Definition utf8Trans1 (b : Z) : Z :=
  if b <? 0xE0 then b - 0xC0
  else if b <? 0xF0 then b - 0xE0
  else if b <? 0xF8 then b - 0xF0
  else if b <? 0xFC then b - 0xF8
  else if b <? 0xFE then b - 0xFC
  else 0.

(** The end of a multi-byte character in [sqlite3Utf8Read]: over-short
    encodings, surrogates and 0xFFFE/0xFFFF read as 0xFFFD. *)
Definition utf8Fix (c : Z) : Z :=
  if (c <? 0x80) || (Z.land c 0xFFFFF800 =? 0xD800)
     || (Z.land c 0xFFFFFFFE =? 0xFFFE)
  then 0xFFFD else c.

Definition is_cont (b : Z) : bool := Z.land b 0xC0 =? 0x80.

(** The characters of a text as the LIKE operator reads them (the macro
    [Utf8Read]): up to the first NUL byte, which terminates the text.
    [acc] is the value of the multi-byte character being read. *)
Fixpoint read_chars (acc : option Z) (bs : list Z) : list Z :=
  match bs with
  | [] => match acc with Some c => [utf8Fix c] | None => [] end
  | b :: r =>
      match acc with
      | Some c =>
          if is_cont b
          then read_chars (Some ((c * 64 + Z.land b 0x3F) mod 2 ^ 32)) r
          else utf8Fix c ::
               (if b =? 0 then []
                else if b <? 0xC0 then b :: read_chars None r
                else read_chars (Some (utf8Trans1 b)) r)
      | None =>
          if b =? 0 then []
          else if b <? 0xC0 then b :: read_chars None r
          else read_chars (Some (utf8Trans1 b)) r
      end
  end.

Definition chars (s : string) : list Z := read_chars None (bytes s).

Definition matchAll : Z := 37. (* % *)
Definition matchOne : Z := 95. (* _ *)

(** [sqlite3Tolower] on a character below 0x80 *)
Definition toLower (c : Z) : Z :=
  if (65 <=? c) && (c <=? 90) then c + 32 else c.

(** Two characters are equal for LIKE: the same, or two ASCII characters
    that differ in case only. *)
Definition like_eq (c d : Z) : bool :=
  (c =? d) || ((c <? 0x80) && (d <? 0x80) && (toLower c =? toLower d)).

(** The pattern match of LIKE without an escape character: [%] matches
    any run of characters, [_] any one character, any other character
    itself up to ASCII case. *)
Fixpoint like_chars (p s : list Z) : bool :=
  match p with
  | [] => match s with [] => true | _ => false end
  | c :: p' =>
      if c =? matchAll then
        (fix star (s : list Z) : bool :=
           like_chars p' s
           || match s with [] => false | _ :: s' => star s' end) s
      else
        match s with
        | [] => false
        | d :: s' => ((c =? matchOne) || like_eq c d) && like_chars p' s'
        end
  end.

(** [text LIKE pattern].  The limit on the length of the pattern is
    applied where the statement is stepped ([query_outcome]). *)
Definition like (pattern text : string) : bool :=
  like_chars (chars pattern) (chars text).

(** ** The query.  A row of the join of [baseQuery]: the item and, for each
    LEFT JOIN, the matching row or NULL. *)

Record JoinRow := mkJoinRow {
  r_i : items_row;
  r_id : option itemData_row;
  r_idv : option itemDataValues_row;
  r_it : option itemTypes_row;
  r_itag : option itemTags_row;
  r_t : option tags_row;
  r_ia : option itemAttachments_row;
  r_child : option items_row
}.

(** The right side of a LEFT JOIN: the matching rows, or one NULL row. *)
Definition left {B : Type} (matching : list B) : list (option B) :=
  match matching with
  | [] => [None]
  | _ => map Some matching
  end.

(** The rows of a table that satisfy the ON condition against a possibly
    NULL row of an earlier table: nothing matches NULL. *)
Definition on {A B : Type} (a : option A) (cond : A -> B -> bool)
  (tbl : list B) : list B :=
  match a with
  | Some a => filter (cond a) tbl
  | None => []
  end.

(** [ia.parentItemID = i.itemID OR ia.itemID = i.itemID] *)
Definition attachment_of (i : items_row) (ia : itemAttachments_row) : bool :=
  match ia_parentItemID ia with
  | Some p => p =? itemID i
  | None => false
  end || (ia_itemID ia =? itemID i).

(** FROM items i LEFT JOIN itemData id ... LEFT JOIN items child ... *)
Definition joined (db : Database) : list JoinRow :=
  flat_map (fun i =>
  flat_map (fun id =>
  flat_map (fun idv =>
  flat_map (fun it =>
  flat_map (fun itag =>
  flat_map (fun t =>
  flat_map (fun ia =>
  map (fun child => mkJoinRow i id idv it itag t ia child)
    (left (on ia (fun a c => itemID c =? ia_itemID a) (items db))))
    (left (filter (attachment_of i) (itemAttachments db))))
    (left (on itag (fun g t => t_tagID t =? itag_tagID g) (tags db))))
    (left (filter (fun g => itag_itemID g =? itemID i) (itemTags db))))
    (left (filter (fun it => it_itemTypeID it =? itemTypeID i) (itemTypes db))))
    (left (on id (fun d v => idv_valueID v =? id_valueID d) (itemDataValues db))))
    (left (filter (fun d => id_itemID d =? itemID i) (itemData db))))
  (items db).

(** [(SELECT fieldID FROM fields WHERE fieldName = 'title')]: the first
    such row, NULL when there is none. *)
Definition title_field (db : Database) : option Z :=
  match filter (fun f => String.eqb (f_fieldName f) "title") (fields db) with
  | [] => None
  | f :: _ => Some (f_fieldID f)
  end.

(** [EXISTS (SELECT 1 FROM itemAttachments WHERE itemAttachments.itemID =
    i.itemID AND itemAttachments.parentItemID IS NOT NULL)] *)
Definition is_child_attachment (db : Database) (i : items_row) : bool :=
  existsb (fun a => (ia_itemID a =? itemID i)
                    && match ia_parentItemID a with Some _ => true | None => false end)
          (itemAttachments db).

(** The WHERE clause of [baseQuery]; a comparison with NULL is not true. *)
Definition where_base (db : Database) (r : JoinRow) : bool :=
  match r_it r with Some it => it_display it =? 1 | None => false end
  && match r_id r, title_field db with
     | Some d, Some f => id_fieldID d =? f
     | _, _ => false
     end
  && negb (is_child_attachment db (r_i r)).

(** The conditions the program appends, each with one parameter. *)
Inductive Cond := TitleLike | TagLike | KeyEq.

Definition eval_cond (c : Cond) (arg : string) (r : JoinRow) : bool :=
  match c with
  | TitleLike =>
      match r_idv r with Some v => like arg (idv_value v) | None => false end
  | TagLike =>
      match r_t r with Some t => like arg (t_name t) | None => false end
  | KeyEq => String.eqb (key (r_i r)) arg
  end.

Definition where_all (db : Database) (conds : list (Cond * string))
  (r : JoinRow) : bool :=
  where_base db r && forallb (fun ca => eval_cond (fst ca) (snd ca) r) conds.

(** The distinct values of a list, in the order of their first
    occurrence. *)
Fixpoint distinct_Z (l : list Z) : list Z :=
  match l with
  | [] => []
  | x :: r => x :: filter (fun y => negb (y =? x)) (distinct_Z r)
  end.

Fixpoint distinct_str (l : list string) : list string :=
  match l with
  | [] => []
  | x :: r => x :: filter (fun y => negb (String.eqb y x)) (distinct_str r)
  end.

(** [GROUP_CONCAT(DISTINCT e)]: the distinct non-NULL values joined with
    commas, here in the order of the rows (SQLite promises none); NULL
    when there is none. *)
Definition group_concat_distinct (vals : list (option string)) : option string :=
  match distinct_str (flat_map (fun v => match v with Some s => [s] | None => [] end) vals) with
  | [] => None
  | l => Some (strings_Join l ",")
  end.

(** A row of the result: the four selected columns. *)
Record ResultRow := mkResultRow {
  c_key : option string;
  c_title : option string;
  c_tags : option string;
  c_attachments : option string
}.

(** [child.key || ':' || COALESCE(ia.path, '')] *)
Definition attachment_expr (r : JoinRow) : option string :=
  match r_child r with
  | None => None
  | Some c =>
      Some (key c ++ ":" ++
            match r_ia r with
            | Some a => match ia_path a with Some p => p | None => "" end
            | None => ""
            end)
  end.

(** The selected columns of one group: [i.key] and [idv.value] are bare
    columns and are read off the first row of the group (SQLite takes
    them from a row of the group it does not name), the other two are
    aggregates over its rows. *)
Definition select_group (r0 : JoinRow) (g : list JoinRow) : ResultRow :=
  mkResultRow
    (Some (key (r_i r0)))
    (match r_idv r0 with Some v => Some (idv_value v) | None => None end)
    (group_concat_distinct
       (map (fun r => match r_t r with Some t => Some (t_name t) | None => None end) g))
    (group_concat_distinct (map attachment_expr g)).

(** [... GROUP BY i.itemID]: one group for each item id among the rows,
    here in the order in which the items are visited (SQLite promises no
    order without ORDER BY). *)
Definition group_by_itemID (rows : list JoinRow) : list (Z * list JoinRow) :=
  map (fun x => (x, filter (fun r => itemID (r_i r) =? x) rows))
      (distinct_Z (map (fun r => itemID (r_i r)) rows)).

Definition select_groups (groups : list (Z * list JoinRow)) : list ResultRow :=
  flat_map (fun xg => match snd xg with
                      | [] => []
                      | r0 :: _ => [select_group r0 (snd xg)]
                      end) groups.

(** The query with the appended conditions bound to their parameters. *)
Definition run_select (db : Database) (conds : list (Cond * string))
  : list ResultRow :=
  select_groups (group_by_itemID (filter (where_all db conds) (joined db))).

End Sqlite.

(* ================================================================== *)
(** * Errors, the environment and the effects of the program *)
(* ================================================================== *)

(** The built-in [append(slice, x)] *)
Definition slice_append {A : Type} (l : list A) (x : A) : list A :=
  List.app l [x].

(** A Go [error]: a message, and for an error made with the verb [%w] the
    error it wraps. *)
Inductive error :=
| errorString (msg : string)
| wrapError (msg : string) (cause : error).

(** [err.Error()] *)
Definition Error (e : error) : string :=
  match e with
  | errorString m => m
  | wrapError m _ => m
  end.

(** [fmt.Errorf(context + ": %w", err)] *)
Definition Errorf_w (context : string) (err : error) : error :=
  wrapError (context ++ ": " ++ Error err) err.

Definition QUOTE : string := String (ascii_of_nat 34) "".

(** [sql.ErrNoRows] *)
Definition ErrNoRows : error := errorString "sql: no rows in result set".

(** The error of [Scan] for a NULL in a column read into a Go [string]. *)
Definition scan_null_error (index name : string) : error :=
  wrapError
    ("sql: Scan error on column index " ++ index ++ ", name " ++ QUOTE ++ name
     ++ QUOTE ++ ": converting NULL to string is unsupported")
    (errorString "converting NULL to string is unsupported").

(** What can go wrong between the program and the database file, chosen
    by the environment: the statement fails, or the cursor stops with an
    error after [k] rows. *)
Inductive Fault :=
| NoFault
| QueryFault (e : error)
| RowsFault (k : nat) (e : error).

(** The environment of one run: it is not changed by the program. *)
Record Env := mkEnv {
  open_db_error : option error;       (* the result of [sql.Open] *)
  fault : Fault;
  run_command : list string -> option error  (* the result of [cmd.Run] *)
}.

(** The state the program acts on. *)
Record World := mkWorld {
  w_db : Sqlite.Database;
  w_sent : list (string * list string); (* statements given to the database *)
  w_stdout : list string;
  w_log : list string;
  w_launched : list (list string)       (* commands started *)
}.

(** A computation with effects on the world; [None] is a panic. *)
Definition M (A : Type) : Type := World -> option A * World.

Definition ret {A : Type} (a : A) : M A := fun w => (Some a, w).

Definition bind {A B : Type} (m : M A) (f : A -> M B) : M B :=
  fun w =>
    match m w with
    | (Some a, w') => f a w'
    | (None, w') => (None, w')
    end.

Definition panic {A : Type} : M A := fun w => (None, w).

Declare Scope go_scope.
Delimit Scope go_scope with go.
Notation "x <- m ;; k" := (bind m (fun x => k))
  (at level 61, m at next level, right associativity) : go_scope.
Notation "m ;;; k" := (bind m (fun _ => k))
  (at level 61, right associativity) : go_scope.
Open Scope go_scope.

Definition write_stdout (s : string) : M unit :=
  fun w => (Some tt, mkWorld (w_db w) (w_sent w) (slice_append (w_stdout w) s)
                             (w_log w) (w_launched w)).

(** The writes of one call of [printItem], in order. *)
Definition write_all (out : list string) : M unit :=
  fun w => (Some tt, mkWorld (w_db w) (w_sent w) (List.app (w_stdout w) out)
                             (w_log w) (w_launched w)).

Definition write_log (s : string) : M unit :=
  fun w => (Some tt, mkWorld (w_db w) (w_sent w) (w_stdout w)
                             (slice_append (w_log w) s) (w_launched w)).

Definition launch (cmd : list string) : M unit :=
  fun w => (Some tt, mkWorld (w_db w) (w_sent w) (w_stdout w) (w_log w)
                             (slice_append (w_launched w) cmd)).

Definition send (text : string) (args : list string) : M unit :=
  fun w => (Some tt, mkWorld (w_db w) (slice_append (w_sent w) (text, args))
                             (w_stdout w) (w_log w) (w_launched w)).

Definition read_db : M Sqlite.Database := fun w => (Some (w_db w), w).

(* ================================================================== *)
(** * The statements of the program and their execution *)
(* ================================================================== *)

Definition baseQuery : string := Eval vm_compute in
  strings_Join
    [ "";
      "    SELECT ";
      "        i.key,";
      "        idv.value as title,";
      "        GROUP_CONCAT(DISTINCT t.name) as tags,";
      "        GROUP_CONCAT(DISTINCT child.key || ':' || COALESCE(ia.path, '')) as attachments";
      "    FROM items i";
      "    LEFT JOIN itemData id ON i.itemID = id.itemID ";
      "    LEFT JOIN itemDataValues idv ON id.valueID = idv.valueID";
      "    LEFT JOIN itemTypes it ON i.itemTypeID = it.itemTypeID";
      "    LEFT JOIN itemTags itag ON i.itemID = itag.itemID";
      "    LEFT JOIN tags t ON itag.tagID = t.tagID";
      "    LEFT JOIN itemAttachments ia ON (ia.parentItemID = i.itemID OR ia.itemID = i.itemID)";
      "    LEFT JOIN items child ON ia.itemID = child.itemID";
      "    WHERE it.display = 1";
      "        AND id.fieldID = (SELECT fieldID FROM fields WHERE fieldName = 'title')";
      "        AND NOT EXISTS (";
      "            SELECT 1 FROM itemAttachments ";
      "            WHERE itemAttachments.itemID = i.itemID ";
      "            AND itemAttachments.parentItemID IS NOT NULL)" ]
    NL.

(** The statements the database is given a meaning for: [baseQuery]
    followed by conditions of the three kinds the program writes and by
    the GROUP BY clause.  The result is the list of conditions, each
    taking one parameter. *)
Definition prepare (text : string) : option (list Sqlite.Cond) :=
  match strip_prefix baseQuery text with
  | None => None
  | Some rest =>
      if String.eqb rest " GROUP BY i.itemID" then Some []
      else if String.eqb rest " AND idv.value LIKE ? GROUP BY i.itemID"
      then Some [Sqlite.TitleLike]
      else if String.eqb rest " AND t.name LIKE ? GROUP BY i.itemID"
      then Some [Sqlite.TagLike]
      else if String.eqb rest
                " AND idv.value LIKE ? AND t.name LIKE ? GROUP BY i.itemID"
      then Some [Sqlite.TitleLike; Sqlite.TagLike]
      else if String.eqb rest " AND i.key = ? GROUP BY i.itemID"
      then Some [Sqlite.KeyEq]
      else None
  end.

(** The rows of a statement with its parameters bound in order. *)
Definition execute (db : Sqlite.Database) (text : string) (args : list string)
  : error + list Sqlite.ResultRow :=
  match prepare text with
  | None => inl (errorString "unsupported statement")
  | Some conds =>
      if (List.length conds =? List.length args)%nat
      then inr (Sqlite.run_select db (combine conds args))
      else inl (errorString "wrong number of parameters")
  end.

(** [*sql.Rows]: the rows the cursor delivers and the error it ends with. *)
Record Rows := mkRows {
  rows_delivered : list Sqlite.ResultRow;
  rows_Err : option error
}.

(** SQLite refuses a LIKE pattern of more than 50000 bytes
    ([SQLITE_MAX_LIKE_PATTERN_LENGTH]): the operator fails with this
    error when it is evaluated, which stops the cursor. *)
Definition like_pattern_limit : Z := 50000.

Definition like_too_complex : error :=
  errorString "LIKE or GLOB pattern too complex".

(** A condition whose parameter is a LIKE pattern over the limit. *)
Definition over_limit (ca : Sqlite.Cond * string) : bool :=
  match fst ca with
  | Sqlite.KeyEq => false
  | _ => like_pattern_limit <? Z.of_nat (String.length (snd ca))
  end.

Definition too_complex (text : string) (args : list string) : bool :=
  match prepare text with
  | Some conds => existsb over_limit (combine conds args)
  | None => false
  end.

(** What [db.Query(text, args...)] returns, given the content of the
    database.  With a pattern over the limit no row is delivered: a row
    is delivered after every condition was evaluated on it, and the
    first evaluation of the operator stops the cursor.  (SQLite raises
    the error only if a row reaches the operator; the model lets the
    statement fail also when none does.) *)
Definition query_outcome (env : Env) (db : Sqlite.Database) (text : string)
  (args : list string) : error + Rows :=
  match fault env with
  | QueryFault e => inl e
  | f =>
      match execute db text args with
      | inl e => inl e
      | inr rows =>
          if too_complex text args
          then inr (mkRows [] (Some like_too_complex))
          else
            match f with
            | RowsFault k e => inr (mkRows (firstn k rows) (Some e))
            | _ => inr (mkRows rows None)
            end
      end
  end.

(** [db.Query(text, args...)] *)
Definition db_Query (env : Env) (text : string) (args : list string)
  : M (error + Rows) :=
  send text args ;;;
  db <- read_db ;;
  ret (query_outcome env db text args).

(** A NULL read into a [sql.NullString] leaves it invalid and empty. *)
Definition scan_NullString (v : option string) : NullString :=
  match v with
  | Some s => mkNullString s true
  | None => mkNullString "" false
  end.

(** [rows.Scan(&item.StableID, &item.Title, &item.Tags, &item.Attachments)] *)
Definition Scan (r : Sqlite.ResultRow) : error + Item :=
  match Sqlite.c_key r with
  | None => inl (scan_null_error "0" "key")
  | Some k =>
      match Sqlite.c_title r with
      | None => inl (scan_null_error "1" "title")
      | Some t =>
          inr (mkItem k t (scan_NullString (Sqlite.c_tags r))
                           (scan_NullString (Sqlite.c_attachments r)))
      end
  end.

(** [Row.Scan] on the outcome of the query: the first row is scanned;
    without a row the error of the cursor, or [sql.ErrNoRows]. *)
Definition Row_Scan (res : error + Rows) : error + Item :=
  match res with
  | inl e => inl e
  | inr rows =>
      match rows_delivered rows with
      | [] =>
          match rows_Err rows with
          | Some e => inl e
          | None => inl ErrNoRows
          end
      | r :: _ => Scan r
      end
  end.

(** [db.QueryRow(text, args...).Scan(...)] *)
Definition db_QueryRow_Scan (env : Env) (text : string) (args : list string)
  : M (error + Item) :=
  res <- db_Query env text args ;;
  ret (Row_Scan res).

(* ================================================================== *)
(** * Repository *)
(* ================================================================== *)

(** The statement of [GetByStableID]:
    [fmt.Sprintf("%s AND i.key = ? GROUP BY i.itemID", baseQuery)] *)
Definition get_query : string := baseQuery ++ " AND i.key = ? GROUP BY i.itemID".

(** [GetByStableID] retrieves a single item by its stable ID.  The result
    is the Go pair of an item pointer (nil as [None]) and an error. *)
Definition GetByStableID (env : Env) (stableID : string)
  : M (option Item * option error) :=
  let query := get_query in
  res <- db_QueryRow_Scan env query [stableID] ;;
  match res with
  | inl err => ret (None, Some (Errorf_w "fetching item" err))
  | inr item => ret (Some item, None)
  end.

(** The statement and the parameters [ListItems] builds. *)
Definition list_query (titleFilter tagFilter : string) : string * list string :=
  let queryBuilder := baseQuery in
  let args : list string := [] in
  let '(queryBuilder, args) :=
    if negb (is_empty titleFilter) || negb (is_empty tagFilter) then
      let conditions : list string := [] in
      let '(conditions, args) :=
        if negb (is_empty titleFilter)
        then (slice_append conditions "idv.value LIKE ?",
              slice_append args ("%" ++ titleFilter ++ "%"))
        else (conditions, args) in
      let '(conditions, args) :=
        if negb (is_empty tagFilter)
        then (slice_append conditions "t.name LIKE ?",
              slice_append args ("%" ++ tagFilter ++ "%"))
        else (conditions, args) in
      if (0 <? List.length conditions)%nat
      then (queryBuilder ++ " AND " ++ strings_Join conditions " AND ", args)
      else (queryBuilder, args)
    else (queryBuilder, args) in
  (queryBuilder ++ " GROUP BY i.itemID", args).

(** The loop [for rows.Next() { ... rows.Scan ... }]: the items scanned,
    or the first scan error. *)
Fixpoint scan_all (rows : list Sqlite.ResultRow) (items : list Item)
  : error + list Item :=
  match rows with
  | [] => inr items
  | r :: rest =>
      match Scan r with
      | inl err => inl err
      | inr item => scan_all rest (slice_append items item)
      end
  end.

(** [ListItems] retrieves items matching the given filters.  The result is
    the Go pair [([]*Item, error)]; the nil slice is the empty list. *)
Definition ListItems (env : Env) (titleFilter tagFilter : string)
  : M (list Item * option error) :=
  let '(query, args) := list_query titleFilter tagFilter in
  res <- db_Query env query args ;;
  match res with
  | inl err => ret ([], Some (Errorf_w "executing query" err))
  | inr rows =>
      match scan_all (rows_delivered rows) [] with
      | inl err => ret ([], Some (Errorf_w "scanning row" err))
      | inr items =>
          match rows_Err rows with
          | Some err => ret ([], Some (Errorf_w "iterating rows" err))
          | None => ret (items, None)
          end
      end
  end.

(* ================================================================== *)
(** * CLI *)
(* ================================================================== *)

(** The loop [for _, item := range items { c.printItem(item, verbose) }] *)
Fixpoint print_items (cfg : Config) (items : list Item) (verbose : bool)
  : M unit :=
  match items with
  | [] => ret tt
  | item :: rest =>
      match printItem cfg item verbose with
      | None => panic
      | Some out =>
          write_all out ;;; print_items cfg rest verbose
      end
  end.

(** [List] displays items matching the given filters. *)
Definition CLI_List (env : Env) (cfg : Config)
  (titleFilter tagFilter : string) (verbose : bool) : M (option error) :=
  res <- ListItems env titleFilter tagFilter ;;
  match res with
  | (_, Some err) => ret (Some (Errorf_w "listing items" err))
  | (items, None) => print_items cfg items verbose ;;; ret None
  end.

(** [exec.Command(name, args...).Run()] *)
Definition exec_Run (env : Env) (cmd : list string) : M (option error) :=
  launch cmd ;;; ret (run_command env cmd).

(** [Open] launches the default application for the item's attachment. *)
Definition CLI_Open (env : Env) (cfg : Config) (stableID : string)
  : M (option error) :=
  res <- GetByStableID env stableID ;;
  match res with
  | (_, Some err) => ret (Some (Errorf_w "getting item" err))
  | (None, None) => panic (* a nil item is dereferenced *)
  | (Some item, None) =>
      let path := getStoragePath cfg item in
      if is_empty path
      then ret (Some (errorString ("no attachment found for item: " ++ stableID)))
      else
        err <- exec_Run env ["open"; path] ;;
        match err with
        | Some err => ret (Some (Errorf_w "opening file" err))
        | None => ret None
        end
  end.

(** ["[zotero: %s, stableid: %s, tags: %s, version: %s](%s)\n"] *)
Definition fmt_reference (title id tags version path : string) : string :=
  "[zotero: " ++ title ++ ", stableid: " ++ id ++ ", tags: " ++ tags
  ++ ", version: " ++ version ++ "](" ++ path ++ ")" ++ NL.

(** [Reference] generates a reference link for the item. *)
Definition CLI_Reference (env : Env) (cfg : Config) (stableID : string)
  : M (option error) :=
  res <- GetByStableID env stableID ;;
  match res with
  | (_, Some err) => ret (Some (Errorf_w "getting item" err))
  | (None, None) => panic
  | (Some item, None) =>
      let path := getStoragePath cfg item in
      if is_empty path
      then ret (Some (errorString ("no attachment found for item: " ++ stableID)))
      else
        let tags := if Valid (Tags item) then NString (Tags item) else "" in
        let tags := "{" ++ tags ++ "}" in
        let tags := if String.eqb tags "{}" then "{}" else tags in
        write_stdout (fmt_reference (Title item) (StableID item) tags
                                    (Version cfg) path) ;;;
        ret None
  end.

(* ================================================================== *)
(** * The entry point *)
(* ================================================================== *)

(** [log.Fatalf]: the message is logged and the process exits with
    status 1.  (The time stamp the logger puts before the message is left
    out.) *)
Definition log_Fatal (msg : string) : M Z :=
  write_log msg ;;; ret 1.

(** The values [flag.Parse] leaves behind: the three flags and the
    positional arguments [flag.Args()]. *)
Record Flags := mkFlags {
  titleFlag : string;
  tagFlag : string;
  verboseFlag : bool;
  flag_Args : list string
}.

(** [main] after [flag.Parse()]: the result is the exit status of the
    process. *)
Definition main (env : Env) (fl : Flags) : M Z :=
  let cfg := cfg0 in
  match open_db_error env with
  | Some err => log_Fatal ("Error opening database: " ++ Error err)
  | None =>
      match flag_Args fl with
      | [] =>
          err <- CLI_List env cfg (titleFlag fl) (tagFlag fl) (verboseFlag fl) ;;
          match err with
          | Some err => log_Fatal ("Error listing items: " ++ Error err)
          | None => ret 0
          end
      | command :: rest =>
          if String.eqb command "open" then
            if negb (List.length (flag_Args fl) =? 2)%nat
            then log_Fatal "Usage: store-zotero open <stableid>"
            else
              err <- CLI_Open env cfg (nth 1 (flag_Args fl) "") ;;
              match err with
              | Some err => log_Fatal ("Error opening item: " ++ Error err)
              | None => ret 0
              end
          else if String.eqb command "reference" then
            if negb (List.length (flag_Args fl) =? 2)%nat
            then log_Fatal "Usage: store-zotero reference <stableid>"
            else
              err <- CLI_Reference env cfg (nth 1 (flag_Args fl) "") ;;
              match err with
              | Some err => log_Fatal ("Error generating reference: " ++ Error err)
              | None => ret 0
              end
          else log_Fatal ("Unknown command: " ++ command)
      end
  end.

(** The exit status of a run: 2 when the program panicked. *)
Definition exit_status (r : option Z * World) : Z :=
  match fst r with
  | Some c => c
  | None => 2
  end.

(* ================================================================== *)
(** * Notions the properties are stated with *)
(* ================================================================== *)

(** ** Read-only statements *)

Definition is_word_byte (a : ascii) : bool :=
  let n := byte_val a in
  Utf8.between 65 90 n || Utf8.between 97 122 n || Utf8.between 48 57 n
  || (n =? 95).

Definition upper_byte (a : ascii) : ascii :=
  let n := byte_val a in
  if Utf8.between 97 122 n then byte_of (n - 32) else a.

(** The words of a statement (runs of letters, digits and underscores),
    in upper case. *)
Fixpoint sql_words_from (cur : string) (s : string) : list string :=
  match s with
  | EmptyString => if is_empty cur then [] else [cur]
  | String a r =>
      if is_word_byte a then sql_words_from (cur ++ String (upper_byte a) "") r
      else if is_empty cur then sql_words_from "" r
      else cur :: sql_words_from "" r
  end.

Definition sql_words (s : string) : list string := sql_words_from "" s.

(** The keywords that start or make a statement that writes, changes the
    schema, the connection or a transaction. *)
Definition write_keywords : list string :=
  [ "INSERT"; "UPDATE"; "DELETE"; "REPLACE"; "UPSERT"; "CREATE"; "DROP";
    "ALTER"; "ATTACH"; "DETACH"; "PRAGMA"; "VACUUM"; "REINDEX"; "ANALYZE";
    "BEGIN"; "COMMIT"; "ROLLBACK"; "SAVEPOINT"; "RELEASE" ].

(** A text is one read-only statement: it starts with the word SELECT,
    holds no statement separator and none of the writing keywords. *)
Definition read_only_select (text : string) : bool :=
  match sql_words text with
  | w :: _ => String.eqb w "SELECT"
  | [] => false
  end
  && negb (has_byte ";"%char text)
  && forallb (fun w => negb (existsb (String.eqb w) write_keywords))
             (sql_words text).

(** ** The items a listing is about *)

Module Listing.
Import Sqlite.

(** The names of the tags of an item. *)
Definition item_tags (db : Database) (i : items_row) : list string :=
  flat_map (fun g =>
              if itag_itemID g =? itemID i
              then map t_name (filter (fun t => t_tagID t =? itag_tagID g) (tags db))
              else [])
           (itemTags db).

(** The values of the title field of an item. *)
Definition item_titles (db : Database) (i : items_row) : list string :=
  flat_map (fun d =>
              if (id_itemID d =? itemID i)
                 && match title_field db with
                    | Some f => id_fieldID d =? f
                    | None => false
                    end
              then map idv_value
                       (filter (fun v => idv_valueID v =? id_valueID d)
                               (itemDataValues db))
              else [])
           (itemData db).

(** An item that takes part in listings: its type is displayed, it has a
    title field and it is not a child attachment. *)
Definition listable (db : Database) (i : items_row) : bool :=
  existsb (fun it => (it_itemTypeID it =? itemTypeID i) && (it_display it =? 1))
          (itemTypes db)
  && existsb (fun d => (id_itemID d =? itemID i)
                       && match title_field db with
                          | Some f => id_fieldID d =? f
                          | None => false
                          end)
             (itemData db)
  && negb (is_child_attachment db i).

(** An item passes the filters: each non-empty filter [matches] the title,
    respectively some tag name. *)
Definition passes (matches : string -> string -> bool) (db : Database)
  (titleFilter tagFilter : string) (i : items_row) : bool :=
  listable db i
  && (is_empty titleFilter || existsb (matches titleFilter) (item_titles db i))
  && (is_empty tagFilter || existsb (matches tagFilter) (item_tags db i)).

(** The test the program asks the database to make: the text matches the
    LIKE pattern made of the filter between two percent signs. *)
Definition like_filter (filter text : string) : bool :=
  like ("%" ++ filter ++ "%") text.

Fixpoint prefix_ci (needle hay : list Z) : bool :=
  match needle with
  | [] => true
  | c :: n' =>
      match hay with
      | [] => false
      | d :: h' => like_eq c d && prefix_ci n' h'
      end
  end.

Fixpoint contains_ci (needle hay : list Z) : bool :=
  prefix_ci needle hay
  || match hay with
     | [] => false
     | _ :: h' => contains_ci needle h'
     end.

(** The filter occurs among the characters the LIKE operator reads from
    the text, letters compared without regard to (ASCII) case. *)
Definition contains_chars (filter text : string) : bool :=
  contains_ci (chars filter) (chars text).

(** The test in the words of the specification: the bytes of the filter
    occur in the bytes of the text as a substring, letters compared
    without regard to (ASCII) case. *)
Definition contains_fold (filter text : string) : bool :=
  contains_ci (bytes filter) (bytes text).

(** A rune the LIKE operator reads as itself: a Unicode scalar value
    other than NUL, U+FFFE and U+FFFF. *)
Definition like_rune (r : Z) : bool :=
  (0 <? r) && (r <=? Utf8.MaxRune)
  && negb (Utf8.between Utf8.surrogateMin Utf8.surrogateMax r)
  && negb (Utf8.between 0xFFFE 0xFFFF r).

(** A text that is well-formed UTF-8 and holds no NUL, U+FFFE or U+FFFF:
    its runes are such runes, and writing them again gives the text back
    ([string([]rune(s)) == s]). *)
Definition plain_text (s : string) : bool :=
  forallb like_rune (Utf8.runes s)
  && String.eqb (Utf8.string_of_runes (Utf8.runes s)) s.

(** The keys a listing returns are those of the items that pass the
    filters, under a given reading of the filter test. *)
Definition lists_exactly (matches : string -> string -> bool)
  (db : Database) (titleFilter tagFilter : string) (listed : list Item) : Prop :=
  forall k : string,
    In k (map StableID listed)
    <-> exists i, In i (items db) /\ key i = k
                  /\ passes matches db titleFilter tagFilter i = true.

(** A character, respectively a byte, that is not special in a pattern. *)
Definition ordinary (c : Z) : Prop := c <> matchAll /\ c <> matchOne.

Definition plain_byte (b : Z) : Prop :=
  b <> 0 /\ b <> matchAll /\ b <> matchOne.

(** A filter in which the LIKE operator finds nothing special: no percent
    sign, no underscore and no NUL byte. *)
Definition plain_filter (filter : string) : bool :=
  forallb (fun b => negb ((b =? 0) || (b =? matchAll) || (b =? matchOne)))
          (bytes filter).

End Listing.

(** ** Fetching and the rows of a cursor *)

(** The outcome of fetching the item with a stable ID. *)
Definition fetch (env : Env) (db : Sqlite.Database) (stableID : string)
  : error + Item :=
  Row_Scan (query_outcome env db get_query [stableID]).

(** The rows the cursor of a statement hands over: all its rows, or the
    first [k] when the environment stops it with an error after [k]
    rows. *)
Definition delivered (env : Env) (rows : list Sqlite.ResultRow)
  : list Sqlite.ResultRow :=
  match fault env with
  | RowsFault k _ => firstn k rows
  | _ => rows
  end.

(** A row with a title: its second column is not NULL. *)
Definition has_title (r : Sqlite.ResultRow) : bool :=
  match Sqlite.c_title r with
  | Some _ => true
  | None => false
  end.

(** ** Fatal termination *)

(** A run ends like [log.Fatalf(msg)] from world [w]: exit status 1, the
    message logged, nothing more on standard output. *)
Definition fatal (msg : string) (w : World) (r : option Z * World) : Prop :=
  fst r = Some 1
  /\ w_log (snd r) = List.app (w_log w) [msg]
  /\ w_stdout (snd r) = w_stdout w.

(** ** The conditions of a listing *)

(** The conditions [ListItems] adds for its two filters, each with its
    parameter. *)
Definition list_conds (titleFilter tagFilter : string)
  : list (Sqlite.Cond * string) :=
  List.app
    (if is_empty titleFilter then []
     else [(Sqlite.TitleLike, "%" ++ titleFilter ++ "%")])
    (if is_empty tagFilter then []
     else [(Sqlite.TagLike, "%" ++ tagFilter ++ "%")]).

(** The rows that pass the WHERE clause of a statement. *)
Definition selected_rows (db : Sqlite.Database)
  (conds : list (Sqlite.Cond * string)) : list Sqlite.JoinRow :=
  filter (Sqlite.where_all db conds) (Sqlite.joined db).

(** The first row of the group of item id [x]. *)
Definition group_head (rows : list Sqlite.JoinRow) (x : Z)
  : option Sqlite.JoinRow :=
  hd_error (filter (fun r => Sqlite.itemID (Sqlite.r_i r) =? x) rows).

(** ** A small library, for examples *)

Module Sample.
Import Sqlite.

(** Two papers and the PDF attached to the first one. *)
Definition db : Database :=
  mkDatabase
    [ mk_items 1 2 "AAAA1111"; mk_items 2 2 "BBBB2222"; mk_items 3 14 "CCCC3333" ]
    [ mk_itemData 1 110 7; mk_itemData 1 111 9; mk_itemData 2 110 8;
      mk_itemData 3 110 10 ]
    [ mk_itemDataValues 7 "Attention is all you need"; mk_itemDataValues 8 "a";
      mk_itemDataValues 9 "2017"; mk_itemDataValues 10 "paper.pdf" ]
    [ mk_itemTypes 2 1; mk_itemTypes 14 1 ]
    [ mk_itemTags 1 1; mk_itemTags 1 2 ]
    [ mk_tags 1 "ml"; mk_tags 2 "nlp" ]
    [ mk_itemAttachments 3 (Some 1) (Some "storage:paper.pdf") ]
    [ mk_fields 110 "title"; mk_fields 111 "date" ].

(** The world before a run. *)
Definition world : World := mkWorld db [] [] [] [].

(** An environment in which nothing fails. *)
Definition env : Env := mkEnv None NoFault (fun _ => None).

Definition item1 : Item :=
  mkItem "AAAA1111" "Attention is all you need"
         (mkNullString "ml,nlp" true)
         (mkNullString "CCCC3333:storage:paper.pdf" true).

Definition item2 : Item :=
  mkItem "BBBB2222" "a" (mkNullString "" false) (mkNullString "" false).

End Sample.

(** ** Runes *)

(** A Unicode scalar value: a code point that is not a surrogate. *)
Definition valid_rune (r : Z) : Prop :=
  0 <= r <= Utf8.MaxRune
  /\ ~ (Utf8.surrogateMin <= r <= Utf8.surrogateMax).

(** ** The entries of an attachments field *)

(** The first comma-separated entry of a text. *)
Definition first_entry (s : string) : string :=
  hd "" (strings_Split s ","%char).

(** A name that [filepath.Clean] keeps as one element of a path: not
    empty, not a dot element, without a separator. *)
Definition path_element (s : string) : Prop :=
  s <> "" /\ s <> "." /\ s <> ".." /\ has_byte "/"%char s = false.

(** A piece between two separators of a path that [filepath.Clean] leaves
    alone: an element, or nothing (a doubled or trailing separator). *)
Definition path_piece (s : string) : Prop := s = "" \/ path_element s.

(** The pieces that are elements. *)
Definition kept_pieces (l : list string) : list string :=
  filter (fun s => negb (is_empty s)) l.

(** Bytes that are empty or start with an ASCII byte. *)
Definition ascii_head (t : list Z) : Prop :=
  match t with
  | [] => True
  | c :: _ => c < 0x80
  end.

(** What one call of [printItem] writes. *)
Definition printed (cfg : Config) (verbose : bool) (item : Item)
  : list string :=
  match printItem cfg item verbose with
  | Some out => out
  | None => []
  end.

(** The tags as [Reference] prints them. *)
Definition reference_tags (item : Item) : string :=
  "{" ++ (if Valid (Tags item) then NString (Tags item) else "") ++ "}".

(** ** The attachments of an item *)

(** [COALESCE(ia.path, '')] *)
Definition coalesce_path (a : Sqlite.itemAttachments_row) : string :=
  match Sqlite.ia_path a with
  | Some p => p
  | None => ""
  end.

(** The entries [child.key || ':' || path] of the attachment rows of an
    item (the rows of which it is the parent, and its own). *)
Definition item_attachments (db : Sqlite.Database) (i : Sqlite.items_row)
  : list string :=
  flat_map (fun a =>
              if Sqlite.attachment_of i a
              then map (fun c => Sqlite.key c ++ ":" ++ coalesce_path a)
                       (filter (fun c => Sqlite.itemID c =? Sqlite.ia_itemID a)
                               (Sqlite.items db))
              else [])
           (Sqlite.itemAttachments db).

(** The value a [GROUP_CONCAT] of these names scans to. *)
Definition joined_names (names : list string) : NullString :=
  match names with
  | [] => mkNullString "" false
  | _ => mkNullString (strings_Join names ",") true
  end.

(** ** Groups of rows *)

(** The group of the rows of an item id. *)
Definition group_of (rows : list Sqlite.JoinRow) (x : Z)
  : list Sqlite.JoinRow :=
  filter (fun r => Sqlite.itemID (Sqlite.r_i r) =? x) rows.

(** ** The limit on patterns *)

(** A filter whose pattern, the filter between two percent signs, is
    within the limit SQLite puts on LIKE patterns. *)
Definition within_like_limit (filter : string) : Prop :=
  Z.of_nat (String.length filter) + 2 <= like_pattern_limit.

(** ** Runes as bytes *)

(** The bytes of a sequence of runes. *)
Definition encode_all (rs : list Z) : list Z :=
  List.concat (map Utf8.EncodeRune rs).

(** Bytes that do not start in the middle of a character: nothing, or a
    first byte that is not a continuation byte. *)
Definition lead_head (bs : list Z) : Prop :=
  match bs with
  | [] => True
  | b :: _ => 0 <= b < 0x80 \/ 0xC0 <= b < 256
  end.

(* ================================================================== *)
(** * Properties: strings and UTF-8 *)
(* ================================================================== *)

Ltac bool_to_prop H :=
  repeat first
    [ rewrite andb_true_iff in H | rewrite orb_true_iff in H
    | rewrite andb_false_iff in H | rewrite orb_false_iff in H
    | rewrite negb_true_iff in H | rewrite negb_false_iff in H
    | rewrite Z.ltb_lt in H | rewrite Z.leb_le in H | rewrite Z.eqb_eq in H
    | rewrite Z.ltb_ge in H | rewrite Z.leb_gt in H | rewrite Z.eqb_neq in H ].

(** Case analysis on the condition of the first [if] of the goal. *)
Ltac split_if :=
  match goal with
  | |- context [if ?c then _ else _] =>
      let E := fresh "E" in destruct c eqn:E; bool_to_prop E
  end.

Section StringFacts.

Lemma bytes_app (a b : string) : bytes (a ++ b) = List.app (bytes a) (bytes b).
Proof.
  induction a as [|c a IH]; simpl; [reflexivity | now rewrite IH].
Qed.

Lemma of_bytes_app (l m : list Z) :
  of_bytes (List.app l m) = of_bytes l ++ of_bytes m.
Proof.
  induction l as [|b l IH]; simpl; [reflexivity | now rewrite IH].
Qed.

Lemma byte_val_of (b : Z) : 0 <= b < 256 -> byte_val (byte_of b) = b.
Proof.
  intros Hb. unfold byte_val, byte_of.
  rewrite N_ascii_embedding by lia. lia.
Qed.

Lemma bytes_of_bytes (l : list Z) :
  Forall (fun b => 0 <= b < 256) l -> bytes (of_bytes l) = l.
Proof.
  induction 1 as [|b l Hb _ IH]; simpl; [reflexivity|].
  now rewrite byte_val_of, IH.
Qed.

Lemma is_empty_true (s : string) : is_empty s = true <-> s = "".
Proof. destruct s; simpl; split; congruence. Qed.

Lemma is_empty_false (s : string) : is_empty s = false <-> s <> "".
Proof. destruct s; simpl; split; congruence. Qed.

Lemma string_app_assoc (a b c : string) : (a ++ b) ++ c = a ++ (b ++ c).
Proof.
  induction a as [|x a IH]; simpl; [reflexivity | now rewrite IH].
Qed.

Lemma string_app_nil_r (a : string) : a ++ "" = a.
Proof.
  induction a as [|x a IH]; simpl; [reflexivity | now rewrite IH].
Qed.

End StringFacts.

Module Utf8Facts.
Import Utf8.

(** A bit pattern [h * 2^k] or-ed with a value below [2^k] is their sum. *)
Lemma lor_high_low (h k x : Z) :
  0 <= k -> 0 <= x < 2 ^ k -> Z.lor (h * 2 ^ k) x = h * 2 ^ k + x.
Proof.
  intros Hk Hx.
  rewrite <- (Z.add_lor_land (h * 2 ^ k) x).
  assert (Z.land (h * 2 ^ k) x = 0) as ->; [|lia].
  apply Z.bits_inj'. intros n Hn.
  rewrite Z.land_spec, Z.bits_0.
  destruct (Z.lt_ge_cases n k) as [Hlt|Hge].
  - rewrite Z.mul_pow2_bits_low by lia. reflexivity.
  - assert (Z.testbit x n = false) as ->; [|apply andb_false_r].
    apply Z.testbit_false; [lia|].
    rewrite Z.div_small; [reflexivity|].
    split; [lia|].
    apply Z.lt_le_trans with (2 ^ k); [lia|].
    apply Z.pow_le_mono_r; lia.
Qed.

Lemma land_3F (x : Z) : Z.land x 0x3F = x mod 64.
Proof. change 0x3F with (Z.ones 6). now rewrite Z.land_ones by lia. Qed.

Lemma cont_byte (x : Z) : Z.lor 0x80 (Z.land x 0x3F) = 0x80 + x mod 64.
Proof.
  rewrite land_3F.
  change 0x80 with (2 * 2 ^ 6).
  apply lor_high_low; [lia|].
  change (2 ^ 6) with 64. apply Z.mod_pos_bound. lia.
Qed.

Lemma lead2 (x : Z) : 0 <= x < 32 -> Z.lor 0xC0 x = 0xC0 + x.
Proof.
  intros H. change 0xC0 with (6 * 2 ^ 5). apply lor_high_low; simpl; lia.
Qed.

Lemma lead3 (x : Z) : 0 <= x < 16 -> Z.lor 0xE0 x = 0xE0 + x.
Proof.
  intros H. change 0xE0 with (14 * 2 ^ 4). apply lor_high_low; simpl; lia.
Qed.

Lemma lead4 (x : Z) : 0 <= x < 8 -> Z.lor 0xF0 x = 0xF0 + x.
Proof.
  intros H. change 0xF0 with (30 * 2 ^ 3). apply lor_high_low; simpl; lia.
Qed.

(** The width [DecodeRune] reports for well-formed sequences. *)
Lemma width1 (b0 : Z) (rest : list Z) :
  0 <= b0 < 0x80 -> snd (DecodeRune (b0 :: rest)) = 1%nat.
Proof.
  intros H. unfold DecodeRune. split_if; [reflexivity | lia].
Qed.

Lemma width2 (b0 b1 : Z) (rest : list Z) :
  0xC2 <= b0 <= 0xDF -> 0x80 <= b1 <= 0xBF ->
  snd (DecodeRune (b0 :: b1 :: rest)) = 2%nat.
Proof.
  intros H0 H1. unfold DecodeRune, first, between.
  repeat (split_if; try lia; simpl; try reflexivity).
Qed.

Lemma width3 (b0 b1 b2 : Z) (rest : list Z) :
  0xE0 <= b0 <= 0xEF -> 0x80 <= b1 <= 0xBF -> 0x80 <= b2 <= 0xBF ->
  (b0 = 0xE0 -> 0xA0 <= b1) -> (b0 = 0xED -> b1 <= 0x9F) ->
  snd (DecodeRune (b0 :: b1 :: b2 :: rest)) = 3%nat.
Proof.
  intros H0 H1 H2 Ha Hb. unfold DecodeRune, first, between.
  repeat (split_if; try lia; simpl; try reflexivity).
Qed.

Lemma width4 (b0 b1 b2 b3 : Z) (rest : list Z) :
  0xF0 <= b0 <= 0xF4 -> 0x80 <= b1 <= 0xBF -> 0x80 <= b2 <= 0xBF ->
  0x80 <= b3 <= 0xBF ->
  (b0 = 0xF0 -> 0x90 <= b1) -> (b0 = 0xF4 -> b1 <= 0x8F) ->
  snd (DecodeRune (b0 :: b1 :: b2 :: b3 :: rest)) = 4%nat.
Proof.
  intros H0 H1 H2 H3 Ha Hb. unfold DecodeRune, first, between.
  repeat (split_if; try lia; simpl; try reflexivity).
Qed.

Ltac all_bytes :=
  repeat (apply Forall_cons; [Z.div_mod_to_equations; lia|]); apply Forall_nil.

Ltac encode_arith :=
  rewrite ?Z.shiftr_div_pow2 by lia; rewrite ?cont_byte;
  change (2 ^ 6) with 64 in *; change (2 ^ 12) with 4096 in *;
  change (2 ^ 18) with 262144 in *.

(** Every rune is written as one to four bytes which [DecodeRune] reads
    back as one rune of the same width. *)
Lemma encode_width (r : Z) (rest : list Z) :
  Forall is_byte (EncodeRune r)
  /\ snd (DecodeRune (List.app (EncodeRune r) rest)) = List.length (EncodeRune r)
  /\ (1 <= List.length (EncodeRune r))%nat.
Proof.
  unfold EncodeRune, MaxRune, surrogateMin, surrogateMax, between, is_byte.
  split_if.
  { (* one byte *)
    repeat split; cbn [List.app List.length]; try lia.
    - all_bytes.
    - apply width1. lia. }
  split_if.
  { (* two bytes *)
    encode_arith.
    rewrite lead2 by (Z.div_mod_to_equations; lia).
    repeat split; cbn [List.app List.length]; try lia.
    - all_bytes.
    - apply width2; Z.div_mod_to_equations; lia. }
  split_if.
  { (* the replacement character *)
    repeat split; cbn [List.app List.length]; try lia.
    all_bytes. }
  split_if.
  { (* three bytes *)
    encode_arith.
    rewrite lead3 by (Z.div_mod_to_equations; lia).
    repeat split; cbn [List.app List.length]; try lia.
    - all_bytes.
    - apply width3; Z.div_mod_to_equations; lia. }
  (* four bytes *)
  encode_arith.
  rewrite lead4 by (Z.div_mod_to_equations; lia).
  repeat split; cbn [List.app List.length]; try lia.
  - all_bytes.
  - apply width4; Z.div_mod_to_equations; lia.
Qed.

Lemma runes_count_from (skip : nat) (bs : list Z) :
  List.length (runes_from skip bs) = count_from skip bs.
Proof.
  revert skip. induction bs as [|b bs IH]; intros skip; [reflexivity|].
  cbn [runes_from count_from]. destruct skip as [|k]; [|apply IH].
  destruct (DecodeRune (b :: bs)) as [c w]. cbn [List.length snd].
  now rewrite IH.
Qed.

(** [len([]rune(s)) == utf8.RuneCountInString(s)] *)
Lemma length_runes (s : string) :
  List.length (runes s) = RuneCountInString s.
Proof. apply runes_count_from. Qed.

Lemma count_from_skip (l rest : list Z) :
  count_from (List.length l) (List.app l rest) = count_from 0 rest.
Proof.
  induction l as [|b l IH]; [reflexivity|]. exact IH.
Qed.

Lemma count_encode (r : Z) (rest : list Z) :
  count_from 0 (List.app (EncodeRune r) rest) = S (count_from 0 rest).
Proof.
  destruct (encode_width r rest) as (_ & Hw & Hlen).
  destruct (EncodeRune r) as [|b e]; [simpl in Hlen; lia|].
  cbn [List.app count_from] in *. rewrite Hw.
  cbn [List.length Nat.pred]. now rewrite count_from_skip.
Qed.

Lemma count_encode_all (rs : list Z) (rest : list Z) :
  count_from 0 (List.app (List.concat (map EncodeRune rs)) rest)
  = (List.length rs + count_from 0 rest)%nat.
Proof.
  induction rs as [|r rs IH]; [reflexivity|].
  cbn [map List.concat List.length]. rewrite <- List.app_assoc.
  rewrite count_encode, IH. reflexivity.
Qed.

Lemma encode_all_bytes (rs : list Z) :
  Forall is_byte (List.concat (map EncodeRune rs)).
Proof.
  induction rs as [|r rs IH]; [constructor|].
  cbn [map List.concat]. apply Forall_app. split; [|exact IH].
  apply (encode_width r []).
Qed.

(** A string made of runes and followed by a text has as many runes as
    were written, plus those of the text. *)
Lemma count_string_of_runes (rs : list Z) (tail : string) :
  RuneCountInString (string_of_runes rs ++ tail)
  = (List.length rs + RuneCountInString tail)%nat.
Proof.
  unfold RuneCountInString, string_of_runes.
  rewrite bytes_app, bytes_of_bytes by apply encode_all_bytes.
  apply count_encode_all.
Qed.

End Utf8Facts.

(* ================================================================== *)
(** * Properties: truncation *)
(* ================================================================== *)

Section Truncation.
Import Utf8 Utf8Facts.

Lemma int_wrap_small (z : Z) : - 2 ^ 63 <= z < 2 ^ 63 -> int_wrap z = z.
Proof.
  intros H. unfold int_wrap. rewrite Z.mod_small; lia.
Qed.

(** A string no longer than the width is returned as it is. *)
Lemma truncateString_short (s : string) (n : Z) :
  Z.of_nat (RuneCountInString s) <= n -> truncateString s n = Some s.
Proof.
  intros H. unfold truncateString.
  destruct (Z.leb_spec (Z.of_nat (RuneCountInString s)) n); [reflexivity|lia].
Qed.

(** A longer string is cut to [n-3] runes followed by three dots. *)
Lemma truncateString_long (s : string) (n : Z) :
  3 <= n < 2 ^ 63 -> n < Z.of_nat (RuneCountInString s) ->
  truncateString s n
  = Some (string_of_runes (firstn (Z.to_nat (n - 3)) (runes s)) ++ "...")
  /\ Z.of_nat (RuneCountInString
                 (string_of_runes (firstn (Z.to_nat (n - 3)) (runes s)) ++ "..."))
     = n.
Proof.
  intros Hn Hlong. unfold truncateString.
  destruct (Z.leb_spec (Z.of_nat (RuneCountInString s)) n); [lia|].
  rewrite int_wrap_small by lia.
  rewrite length_runes.
  destruct (Z.leb_spec 0 (n - 3)); [|lia].
  destruct (Z.leb_spec (n - 3) (Z.of_nat (RuneCountInString s))); [|lia].
  split; [reflexivity|].
  rewrite count_string_of_runes, length_firstn, length_runes.
  change (RuneCountInString "...") with 3%nat. lia.
Qed.

(** At a width of at least 3 the helper does not panic and its result is
    at most that wide. *)
Lemma truncateString_width (s : string) (n : Z) :
  3 <= n < 2 ^ 63 ->
  exists t, truncateString s n = Some t
            /\ Z.of_nat (RuneCountInString t) <= n
            /\ (Z.of_nat (RuneCountInString s) <= n -> t = s)
            /\ (n < Z.of_nat (RuneCountInString s) ->
                Z.of_nat (RuneCountInString t) = n
                /\ t = string_of_runes (firstn (Z.to_nat (n - 3)) (runes s))
                       ++ "...").
Proof.
  intros Hn.
  destruct (Z.le_gt_cases (Z.of_nat (RuneCountInString s)) n) as [Hs|Hl].
  - exists s. rewrite truncateString_short by lia.
    repeat split; try lia.
  - destruct (truncateString_long s n Hn) as [Ht Hc]; [lia|].
    eexists. split; [exact Ht|].
    repeat split; try lia.
Qed.

End Truncation.

(** ** C8 *)

(** Claim C8.  [truncateString] is total and width-bounded at every width
    [n >= 3] (a Go [int]): a string of at most [n] runes is returned as it
    is, a longer one becomes a string of exactly [n] runes that ends in
    three dots; at the two widths the program uses, 25 and 15, the slice
    expression never indexes out of range. *)
Theorem truncateString_total_bounded (s : string) (n : Z) :
  3 <= n < 2 ^ 63 ->
  (Z.of_nat (Utf8.RuneCountInString s) <= n -> truncateString s n = Some s)
  /\ (n < Z.of_nat (Utf8.RuneCountInString s) ->
      exists u, u = Utf8.string_of_runes (firstn (Z.to_nat (n - 3)) (Utf8.runes s))
                /\ truncateString s n = Some (u ++ "...")
                /\ Z.of_nat (Utf8.RuneCountInString (u ++ "...")) = n)
  /\ (forall s', truncateString s' 25 <> None /\ truncateString s' 15 <> None).
Proof.
  intros Hn. split; [|split].
  - apply truncateString_short.
  - intros Hl. destruct (truncateString_long s n Hn Hl) as [Ht Hc].
    eexists. split; [reflexivity|]. split; [exact Ht | exact Hc].
  - intros s'. split.
    + destruct (truncateString_width s' 25) as (t & Ht & _); [lia|]. congruence.
    + destruct (truncateString_width s' 15) as (t & Ht & _); [lia|]. congruence.
Qed.

Lemma truncateString_total_bounded_witness :
  3 <= 4 < 2 ^ 63
  /\ (Z.of_nat (Utf8.RuneCountInString "zotero") <= 4 ->
      truncateString "zotero" 4 = Some "zotero")
  /\ (4 < Z.of_nat (Utf8.RuneCountInString "zotero") ->
      exists u, u = Utf8.string_of_runes
                      (firstn (Z.to_nat (4 - 3)) (Utf8.runes "zotero"))
                /\ truncateString "zotero" 4 = Some (u ++ "...")
                /\ Z.of_nat (Utf8.RuneCountInString (u ++ "...")) = 4)
  /\ (forall s', truncateString s' 25 <> None /\ truncateString s' 15 <> None).
Proof.
  split; [lia | apply (truncateString_total_bounded "zotero" 4); lia].
Defined.

(* ================================================================== *)
(** * Properties: splitting and attachment paths *)
(* ================================================================== *)

Section Splitting.

Lemma strings_Split_nonempty (s : string) (sep : ascii) :
  strings_Split s sep <> [].
Proof.
  destruct s as [|a s]; simpl; [discriminate|].
  destruct (Ascii.eqb a sep); [discriminate|].
  destruct (strings_Split s sep); discriminate.
Qed.

(** A text without the separator is one piece. *)
Lemma strings_Split_one (a : string) (sep : ascii) :
  has_byte sep a = false -> strings_Split a sep = [a].
Proof.
  induction a as [|c a IH]; simpl; [reflexivity|].
  intros H. apply orb_false_iff in H as [Hc Ha].
  rewrite Hc, IH by exact Ha. reflexivity.
Qed.

(** The first piece ends at the first separator. *)
Lemma strings_Split_first (a r : string) (sep : ascii) :
  has_byte sep a = false ->
  strings_Split (a ++ String sep r) sep = a :: strings_Split r sep.
Proof.
  induction a as [|c a IH]; simpl.
  - intros _. now rewrite Ascii.eqb_refl.
  - intros H. apply orb_false_iff in H as [Hc Ha].
    rewrite Hc, IH by exact Ha. reflexivity.
Qed.

Lemma cut_none (a : string) (sep : ascii) :
  has_byte sep a = false -> cut a sep = None.
Proof.
  induction a as [|c a IH]; simpl; [reflexivity|].
  intros H. apply orb_false_iff in H as [Hc Ha].
  rewrite Hc, IH by exact Ha. reflexivity.
Qed.

Lemma cut_first (a r : string) (sep : ascii) :
  has_byte sep a = false -> cut (a ++ String sep r) sep = Some (a, r).
Proof.
  induction a as [|c a IH]; simpl.
  - intros _. now rewrite Ascii.eqb_refl.
  - intros H. apply orb_false_iff in H as [Hc Ha].
    rewrite Hc, IH by exact Ha. reflexivity.
Qed.

Lemma has_byte_app (c : ascii) (a b : string) :
  has_byte c (a ++ b) = has_byte c a || has_byte c b.
Proof.
  induction a as [|x a IH]; simpl; [reflexivity|].
  now rewrite IH, orb_assoc.
Qed.

Lemma strip_prefix_app (p x : string) : strip_prefix p (p ++ x) = Some x.
Proof.
  induction p as [|a p IH]; simpl; [reflexivity|].
  now rewrite Ascii.eqb_refl.
Qed.

(** [strings.TrimPrefix] removes the prefix when it is there. *)
Lemma strings_TrimPrefix_app (p x : string) : strings_TrimPrefix (p ++ x) p = x.
Proof. unfold strings_TrimPrefix. now rewrite strip_prefix_app. Qed.

Lemma strip_prefix_sound (p s r : string) :
  strip_prefix p s = Some r -> s = p ++ r.
Proof.
  revert s. induction p as [|a p IH]; intros s; simpl.
  - congruence.
  - destruct s as [|b s]; [discriminate|].
    destruct (Ascii.eqb_spec a b) as [->|]; [|discriminate].
    intros H. now rewrite (IH _ H).
Qed.

(** The pieces of one attachment entry when it has no colon. *)
Lemma print_attachment_no_colon (cfg : Config) (id title tags att : string) :
  has_byte ":"%char att = false ->
  print_attachment cfg id title tags att = [].
Proof.
  intros H. unfold print_attachment, strings_SplitN2.
  now rewrite cut_none.
Qed.

End Splitting.

(** ** C1 *)

(** Claim C1.  [getStoragePath] returns the empty string when the
    attachments field is absent or empty.  When the field starts with a
    pair [key:rel] (the first comma-separated entry, cut at its first
    colon), the result is the join of the storage root, the key and the
    relative segment with the prefix [storage:] stripped. *)
Theorem getStoragePath_first_pair (cfg : Config) (item : Item) :
  ((Valid (Attachments item) = false \/ NString (Attachments item) = "") ->
   getStoragePath cfg item = "")
  /\ (forall key rel rest : string,
        Valid (Attachments item) = true ->
        NString (Attachments item) = key ++ ":" ++ rel ++ rest ->
        has_byte ":"%char key = false ->
        has_byte ","%char key = false ->
        has_byte ","%char rel = false ->
        (rest = "" \/ exists more, rest = "," ++ more) ->
        getStoragePath cfg item
        = Filepath.Join [StoragePath cfg; key; strings_TrimPrefix rel "storage:"]
        /\ forall p, rel = "storage:" ++ p ->
                     strings_TrimPrefix rel "storage:" = p).
Proof.
  split.
  - intros [Hv|He]; unfold getStoragePath.
    + now rewrite Hv.
    + rewrite He. now rewrite orb_true_r.
  - intros key rel rest Hv Hs Hk1 Hk2 Hr Hrest.
    split; [|intros p ->; apply strings_TrimPrefix_app].
    unfold getStoragePath. rewrite Hv, Hs. cbn [negb orb].
    assert (Hne : is_empty (key ++ ":" ++ rel ++ rest) = false).
    { apply is_empty_false. destruct key; discriminate. }
    rewrite Hne.
    assert (Hfirst : exists others,
               strings_Split (key ++ ":" ++ rel ++ rest) ","%char
               = (key ++ ":" ++ rel) :: others).
    { destruct Hrest as [->|[more ->]].
      - exists []. rewrite string_app_nil_r. apply strings_Split_one.
        rewrite has_byte_app. cbn. now rewrite Hk2, Hr.
      - exists (strings_Split more ","%char).
        change (key ++ ":" ++ rel ++ "," ++ more)
          with (key ++ (":" ++ rel) ++ String ","%char more).
        rewrite <- string_app_assoc. apply strings_Split_first.
        rewrite has_byte_app. cbn. now rewrite Hk2, Hr. }
    destruct Hfirst as [others ->].
    unfold strings_SplitN2.
    change (key ++ ":" ++ rel) with (key ++ String ":"%char rel).
    rewrite cut_first by exact Hk1. reflexivity.
Qed.

Lemma getStoragePath_first_pair_witness :
  let item := mkItem "AB12CD34" "Title" (mkNullString "" false)
                (mkNullString "KEY1:storage:a.pdf,KEY2:storage:b.pdf" true) in
  getStoragePath cfg0 item = "/Users/vania/data/zotero/storage/KEY1/a.pdf".
Proof.
  intros item.
  destruct (getStoragePath_first_pair cfg0 item) as [_ H].
  assert (Hrest : ",KEY2:storage:b.pdf" = ""
                  \/ exists more, ",KEY2:storage:b.pdf" = "," ++ more)
    by (right; exists "KEY2:storage:b.pdf"; reflexivity).
  destruct (H "KEY1" "storage:a.pdf" ",KEY2:storage:b.pdf"
              eq_refl eq_refl eq_refl eq_refl eq_refl Hrest) as [Hp Ht].
  rewrite Hp. rewrite (Ht "a.pdf") by reflexivity. reflexivity.
Defined.

(** The remaining case: a field whose first entry has no colon does not
    start with a pair, and resolves to the empty string. *)
Lemma getStoragePath_no_pair (cfg : Config) (item : Item)
  (first : string) (others : list string) :
  strings_Split (NString (Attachments item)) ","%char = first :: others ->
  has_byte ":"%char first = false ->
  getStoragePath cfg item = "".
Proof.
  intros Hs Hc. unfold getStoragePath.
  destruct (negb (Valid (Attachments item))
            || is_empty (NString (Attachments item))); [reflexivity|].
  rewrite Hs. unfold strings_SplitN2. now rewrite cut_none.
Qed.

(** ** C3 *)

Section Printing.
Import Utf8.

Lemma flat_map_print_attachment (cfg : Config) (id title tags : string)
  (atts : list string) :
  flat_map (print_attachment cfg id title tags) atts
  = map (fmt_row id title tags)
        (flat_map (fun att =>
                     match strings_SplitN2 att ":"%char with
                     | [p0; p1] =>
                         [Filepath.Join [StoragePath cfg; p0;
                                         strings_TrimPrefix p1 "storage:"]]
                     | _ => []
                     end) atts).
Proof.
  induction atts as [|a atts IH]; [reflexivity|].
  cbn [flat_map]. rewrite map_app, IH. f_equal.
  unfold print_attachment.
  destruct (strings_SplitN2 a ":"%char) as [|p0 [|p1 [|p2 l]]]; reflexivity.
Qed.

(** Non-verbose printing writes the identifier and a newline. *)
Lemma printItem_quiet (cfg : Config) (item : Item) :
  printItem cfg item false = Some [StableID item ++ NL].
Proof. reflexivity. Qed.

(** Verbose printing writes one row per attachment path, each with the
    title cut at 25 and the tags cut at 15. *)
Lemma printItem_verbose (cfg : Config) (item : Item) :
  exists title tags,
    truncateString (Title item) 25 = Some title
    /\ (if Valid (Tags item) then truncateString (NString (Tags item)) 15
        else Some "") = Some tags
    /\ printItem cfg item true
       = Some (map (fmt_row (StableID item) title tags)
                   (attachment_paths cfg item)).
Proof.
  destruct (truncateString_width (Title item) 25) as (title & Ht & _); [lia|].
  assert (Hg : exists tags,
             (if Valid (Tags item) then truncateString (NString (Tags item)) 15
              else Some "") = Some tags).
  { destruct (Valid (Tags item)); [|now exists ""].
    destruct (truncateString_width (NString (Tags item)) 15) as (g & Hg & _);
      [lia | now exists g]. }
  destruct Hg as [tags Hg].
  exists title, tags. repeat split; try assumption.
  unfold printItem, attachment_paths. cbn [negb]. rewrite Ht, Hg.
  destruct (Valid (Attachments item)
            && negb (is_empty (NString (Attachments item)))).
  - now rewrite flat_map_print_attachment.
  - reflexivity.
Qed.

(** [printItem] does not panic. *)
Lemma printItem_total (cfg : Config) (item : Item) (verbose : bool) :
  exists out, printItem cfg item verbose = Some out.
Proof.
  destruct verbose.
  - destruct (printItem_verbose cfg item) as (t & g & _ & _ & H). eauto.
  - eexists. apply printItem_quiet.
Qed.

End Printing.

(** Claim C3.  Non-verbose printing writes only the identifier, in
    full, and a newline.  Verbose printing writes one row for each
    attachment path: the identifier, the title and the tags, each
    followed by the spaces that fill its column (8, 25 and 15 runes) and
    a tab, then the path and a newline.  The title in the row is the
    title cut to 25 runes and the tags are cut to 15 runes: a value
    within the width is printed as it is, a longer one as its first 22
    (respectively 12) runes followed by three dots, exactly 25
    (respectively 15) runes in all. *)
Theorem printItem_truncates (cfg : Config) (item : Item) :
  printItem cfg item false = Some [StableID item ++ NL]
  /\ exists title tags,
       printItem cfg item true
       = Some (map (fun path =>
                      (StableID item
                       ++ spaces (8 - Utf8.RuneCountInString (StableID item)))
                      ++ TAB
                      ++ (title ++ spaces (25 - Utf8.RuneCountInString title))
                      ++ TAB
                      ++ (tags ++ spaces (15 - Utf8.RuneCountInString tags))
                      ++ TAB ++ path ++ NL)
                   (attachment_paths cfg item))
       /\ truncateString (Title item) 25 = Some title
       /\ (Utf8.RuneCountInString title <= 25)%nat
       /\ ((Utf8.RuneCountInString (Title item) <= 25)%nat -> title = Title item)
       /\ ((25 < Utf8.RuneCountInString (Title item))%nat ->
           Utf8.RuneCountInString title = 25%nat
           /\ title = Utf8.string_of_runes (firstn 22 (Utf8.runes (Title item)))
                      ++ "...")
       /\ (Valid (Tags item) = false -> tags = "")
       /\ (Valid (Tags item) = true ->
           truncateString (NString (Tags item)) 15 = Some tags
           /\ (Utf8.RuneCountInString tags <= 15)%nat
           /\ ((Utf8.RuneCountInString (NString (Tags item)) <= 15)%nat ->
               tags = NString (Tags item))
           /\ ((15 < Utf8.RuneCountInString (NString (Tags item)))%nat ->
               Utf8.RuneCountInString tags = 15%nat
               /\ tags = Utf8.string_of_runes
                           (firstn 12 (Utf8.runes (NString (Tags item))))
                         ++ "...")).
Proof.
  split; [apply printItem_quiet|].
  destruct (printItem_verbose cfg item) as (title & tags & Ht & Hg & Hp).
  exists title, tags. split; [exact Hp|]. split; [exact Ht|].
  destruct (truncateString_width (Title item) 25) as (t & Ht' & Hw & Hs & Hl);
    [lia|].
  assert (t = title) as -> by congruence.
  split; [lia|]. split; [intros; apply Hs; lia|].
  split; [intros H; destruct Hl as [Hc Hu]; [lia|]; split; [lia|exact Hu]|].
  split.
  - intros Hv. rewrite Hv in Hg. congruence.
  - intros Hv. rewrite Hv in Hg. split; [exact Hg|].
    destruct (truncateString_width (NString (Tags item)) 15)
      as (g & Hg' & Hgw & Hgs & Hgl); [lia|].
    assert (g = tags) as -> by congruence.
    split; [lia|]. split; [intros; apply Hgs; lia|].
    intros H. destruct Hgl as [Hc Hu]; [lia|]. split; [lia|exact Hu].
Qed.

(** A paper with a long title, two tags and one attachment: the row
    shows the first 22 runes of the title and three dots, and the tags
    filled up to their column. *)
Lemma printItem_truncates_witness :
  let item := mkItem "AB12CD34" "Attention is all you need, once more"
                     (mkNullString "ml,nlp" true)
                     (mkNullString "KEY1:storage:a.pdf" true) in
  printItem cfg0 item false = Some ["AB12CD34" ++ NL]
  /\ printItem cfg0 item true
     = Some [ "AB12CD34" ++ TAB ++ "Attention is all you n..." ++ TAB
              ++ "ml,nlp         " ++ TAB
              ++ "/Users/vania/data/zotero/storage/KEY1/a.pdf" ++ NL ].
Proof.
  intros item.
  destruct (printItem_truncates cfg0 item)
    as (Hq & title & tags & Hp & _ & _ & _ & Hlong & _ & Htags).
  split; [exact Hq|].
  destruct Hlong as [_ Htitle]; [vm_compute; lia|].
  destruct (Htags eq_refl) as (_ & _ & Hshort & _).
  rewrite Hp, Htitle, Hshort by (vm_compute; lia).
  vm_compute. reflexivity.
Defined.

(** Claim C9.  An item whose attachments field is present and non-empty
    but has no entry with a colon produces no output line when printed
    verbosely, while non-verbose printing still writes its identifier. *)
Theorem printItem_verbose_drops_item (cfg : Config) (item : Item) :
  Valid (Attachments item) = true ->
  NString (Attachments item) <> "" ->
  Forall (fun entry => has_byte ":"%char entry = false)
         (strings_Split (NString (Attachments item)) ","%char) ->
  printItem cfg item true = Some []
  /\ printItem cfg item false = Some [StableID item ++ NL].
Proof.
  intros Hv Hne Hall. split; [|apply printItem_quiet].
  destruct (printItem_verbose cfg item) as (title & tags & _ & _ & ->).
  f_equal. unfold attachment_paths.
  rewrite Hv. apply is_empty_false in Hne. rewrite Hne. cbn [andb negb].
  induction Hall as [|e l He _ IH]; [reflexivity|].
  cbn [flat_map]. unfold strings_SplitN2 at 1.
  rewrite cut_none by exact He. exact IH.
Qed.

Lemma printItem_verbose_drops_item_witness :
  let item := mkItem "AB12CD34" "A title" (mkNullString "" false)
                     (mkNullString "paper.pdf,notes.txt" true) in
  printItem cfg0 item true = Some []
  /\ printItem cfg0 item false = Some [StableID item ++ NL].
Proof.
  intros item. apply (printItem_verbose_drops_item cfg0 item).
  - reflexivity.
  - discriminate.
  - repeat constructor.
Defined.

(* ================================================================== *)
(** * Properties: the operations as state transformers *)
(* ================================================================== *)

Section Runs.

Variable env : Env.

Lemma bind_run {A B : Type} (m : M A) (f : A -> M B) (w w' : World) (a : A) :
  m w = (Some a, w') -> bind m f w = f a w'.
Proof. intros H. unfold bind. now rewrite H. Qed.

Lemma db_Query_run (text : string) (args : list string) (w : World) :
  db_Query env text args w
  = (Some (query_outcome env (w_db w) text args), snd (send text args w)).
Proof. reflexivity. Qed.

Lemma db_QueryRow_Scan_run (text : string) (args : list string) (w : World) :
  db_QueryRow_Scan env text args w
  = (Some (Row_Scan (query_outcome env (w_db w) text args)),
     snd (send text args w)).
Proof. reflexivity. Qed.

(** [GetByStableID] sends one statement and returns the item or the
    wrapped error, never both. *)
Lemma GetByStableID_run (stableID : string) (w : World) :
  GetByStableID env stableID w
  = (Some match fetch env (w_db w) stableID with
          | inl e => (None, Some (Errorf_w "fetching item" e))
          | inr item => (Some item, None)
          end,
     snd (send get_query [stableID] w)).
Proof.
  unfold GetByStableID.
  rewrite (bind_run _ _ _ _ _ (db_QueryRow_Scan_run get_query [stableID] w)).
  fold (fetch env (w_db w) stableID).
  destruct (fetch env (w_db w) stableID); reflexivity.
Qed.

(** [ListItems] sends one statement; its result is decided by the outcome
    of the query, the scan of the rows and the error of the cursor. *)
Lemma ListItems_run (titleFilter tagFilter : string) (w : World) :
  ListItems env titleFilter tagFilter w
  = (Some match query_outcome env (w_db w)
                  (fst (list_query titleFilter tagFilter))
                  (snd (list_query titleFilter tagFilter)) with
          | inl e => ([], Some (Errorf_w "executing query" e))
          | inr rows =>
              match scan_all (rows_delivered rows) [] with
              | inl e => ([], Some (Errorf_w "scanning row" e))
              | inr items =>
                  match rows_Err rows with
                  | Some e => ([], Some (Errorf_w "iterating rows" e))
                  | None => (items, None)
                  end
              end
          end,
     snd (send (fst (list_query titleFilter tagFilter))
               (snd (list_query titleFilter tagFilter)) w)).
Proof.
  unfold ListItems.
  destruct (list_query titleFilter tagFilter) as [query args].
  rewrite (bind_run _ _ _ _ _ (db_Query_run query args w)).
  cbn [fst snd].
  destruct (query_outcome env (w_db w) query args) as [e|rows]; [reflexivity|].
  destruct (scan_all (rows_delivered rows) []) as [e|items]; [reflexivity|].
  destruct (rows_Err rows); reflexivity.
Qed.

(** Printing never panics and only adds to standard output. *)
Lemma print_items_run (cfg : Config) (items : list Item) (verbose : bool)
  (w : World) :
  exists out,
    print_items cfg items verbose w
    = (Some tt, mkWorld (w_db w) (w_sent w) (List.app (w_stdout w) out)
                        (w_log w) (w_launched w)).
Proof.
  revert w. induction items as [|item items IH]; intros w.
  - exists []. cbn. rewrite List.app_nil_r. now destruct w.
  - cbn [print_items].
    destruct (printItem_total cfg item verbose) as [o ->].
    unfold bind at 1, write_all.
    destruct (IH (mkWorld (w_db w) (w_sent w) (List.app (w_stdout w) o)
                          (w_log w) (w_launched w))) as [out ->].
    exists (List.app o out). cbn. now rewrite List.app_assoc.
Qed.

(** What a run of the printing loop writes. *)
Lemma print_items_out (cfg : Config) (items : list Item) (verbose : bool)
  (w : World) :
  print_items cfg items verbose w
  = (Some tt,
     mkWorld (w_db w) (w_sent w)
             (List.app (w_stdout w) (flat_map (printed cfg verbose) items))
             (w_log w) (w_launched w)).
Proof.
  revert w. induction items as [|item items IH]; intros w.
  - cbn. rewrite List.app_nil_r. now destruct w.
  - cbn [print_items flat_map]. unfold printed at 1.
    destruct (printItem_total cfg item verbose) as [o ->].
    unfold bind at 1, write_all. rewrite IH. cbn.
    now rewrite List.app_assoc.
Qed.

End Runs.

Section CLIRuns.

Variable env : Env.
Variable cfg : Config.

(** [List]: the outcome of [ListItems], then the rows printed. *)
Lemma CLI_List_run (titleFilter tagFilter : string) (verbose : bool)
  (w : World) :
  exists items oe out,
    fst (ListItems env titleFilter tagFilter w) = Some (items, oe)
    /\ CLI_List env cfg titleFilter tagFilter verbose w
       = (Some match oe with
               | Some err => Some (Errorf_w "listing items" err)
               | None => None
               end,
          mkWorld (w_db w)
                  (slice_append (w_sent w)
                                (list_query titleFilter tagFilter))
                  (List.app (w_stdout w) out) (w_log w) (w_launched w))
    /\ (oe <> None -> out = []).
Proof.
  pose proof (ListItems_run env titleFilter tagFilter w) as HL.
  set (res := match query_outcome env (w_db w) _ _ with
              | inl e => _ | inr rows => _ end) in HL.
  unfold CLI_List. rewrite (bind_run _ _ _ _ _ HL). rewrite HL. cbn [fst].
  destruct res as [items [err|]].
  - exists items, (Some err), []. split; [reflexivity|].
    split; [|reflexivity].
    cbn. rewrite List.app_nil_r.
    now destruct (list_query titleFilter tagFilter).
  - destruct (print_items_run cfg items verbose
                (snd (send (fst (list_query titleFilter tagFilter))
                           (snd (list_query titleFilter tagFilter)) w)))
      as [out Hout].
    exists items, None, out. split; [reflexivity|].
    split; [|congruence].
    rewrite (bind_run _ _ _ _ _ Hout).
    cbn. now destruct (list_query titleFilter tagFilter).
Qed.

(** [Open], step by step. *)
Lemma CLI_Open_run (stableID : string) (w : World) :
  CLI_Open env cfg stableID w
  = match fetch env (w_db w) stableID with
    | inl e =>
        (Some (Some (Errorf_w "getting item" (Errorf_w "fetching item" e))),
         snd (send get_query [stableID] w))
    | inr item =>
        if is_empty (getStoragePath cfg item)
        then (Some (Some (errorString
                            ("no attachment found for item: " ++ stableID))),
              snd (send get_query [stableID] w))
        else
          (Some match run_command env ["open"; getStoragePath cfg item] with
                | Some e => Some (Errorf_w "opening file" e)
                | None => None
                end,
           snd (launch ["open"; getStoragePath cfg item]
                       (snd (send get_query [stableID] w))))
    end.
Proof.
  unfold CLI_Open.
  rewrite (bind_run _ _ _ _ _ (GetByStableID_run env stableID w)).
  destruct (fetch env (w_db w) stableID) as [e|item]; [reflexivity|].
  destruct (is_empty (getStoragePath cfg item)); [reflexivity|].
  unfold exec_Run. cbn.
  destruct (run_command env ["open"; getStoragePath cfg item]); reflexivity.
Qed.

(** [Reference], step by step. *)
Lemma CLI_Reference_run (stableID : string) (w : World) :
  CLI_Reference env cfg stableID w
  = match fetch env (w_db w) stableID with
    | inl e =>
        (Some (Some (Errorf_w "getting item" (Errorf_w "fetching item" e))),
         snd (send get_query [stableID] w))
    | inr item =>
        if is_empty (getStoragePath cfg item)
        then (Some (Some (errorString
                            ("no attachment found for item: " ++ stableID))),
              snd (send get_query [stableID] w))
        else
          (Some None,
           snd (write_stdout
                  (fmt_reference (Title item) (StableID item)
                     ("{" ++ (if Valid (Tags item) then NString (Tags item)
                              else "") ++ "}")
                     (Version cfg) (getStoragePath cfg item))
                  (snd (send get_query [stableID] w))))
    end.
Proof.
  unfold CLI_Reference.
  rewrite (bind_run _ _ _ _ _ (GetByStableID_run env stableID w)).
  destruct (fetch env (w_db w) stableID) as [e|item]; [reflexivity|].
  destruct (is_empty (getStoragePath cfg item)); [reflexivity|].
  unfold bind, write_stdout, ret. cbv zeta.
  match goal with
  | |- context [String.eqb ?t "{}"] =>
      destruct (String.eqb_spec t "{}") as [Heq|]; [rewrite Heq|]; reflexivity
  end.
Qed.

(** [List], given the result of [ListItems]. *)
Lemma CLI_List_of (titleFilter tagFilter : string) (verbose : bool)
  (w : World) (items : list Item) (oe : option error) :
  fst (ListItems env titleFilter tagFilter w) = Some (items, oe) ->
  CLI_List env cfg titleFilter tagFilter verbose w
  = (Some match oe with
          | Some err => Some (Errorf_w "listing items" err)
          | None => None
          end,
     mkWorld (w_db w)
             (slice_append (w_sent w) (list_query titleFilter tagFilter))
             (List.app (w_stdout w)
                       match oe with
                       | Some _ => []
                       | None => flat_map (printed cfg verbose) items
                       end)
             (w_log w) (w_launched w)).
Proof.
  intros Hl. pose proof (ListItems_run env titleFilter tagFilter w) as HL.
  rewrite HL in Hl. cbn [fst] in Hl. injection Hl as Hl.
  rewrite Hl in HL. unfold CLI_List. rewrite (bind_run _ _ _ _ _ HL).
  destruct oe as [err|].
  - cbn. rewrite List.app_nil_r.
    now destruct (list_query titleFilter tagFilter).
  - unfold bind. rewrite print_items_out. cbn.
    now destruct (list_query titleFilter tagFilter).
Qed.

(** The three operations return: none of them panics. *)
Lemma CLI_List_total (titleFilter tagFilter : string) (verbose : bool)
  (w : World) :
  exists r, fst (CLI_List env cfg titleFilter tagFilter verbose w) = Some r.
Proof.
  destruct (CLI_List_run titleFilter tagFilter verbose w)
    as (items & oe & out & _ & -> & _).
  eexists. reflexivity.
Qed.

Lemma CLI_Open_total (stableID : string) (w : World) :
  exists r, fst (CLI_Open env cfg stableID w) = Some r.
Proof.
  rewrite CLI_Open_run.
  destruct (fetch env (w_db w) stableID) as [e|item];
    [eexists; reflexivity|].
  destruct (is_empty (getStoragePath cfg item)); eexists; reflexivity.
Qed.

Lemma CLI_Reference_total (stableID : string) (w : World) :
  exists r, fst (CLI_Reference env cfg stableID w) = Some r.
Proof.
  rewrite CLI_Reference_run.
  destruct (fetch env (w_db w) stableID) as [e|item];
    [eexists; reflexivity|].
  destruct (is_empty (getStoragePath cfg item)); eexists; reflexivity.
Qed.

End CLIRuns.

(* ================================================================== *)
(** * Properties: the query *)
(* ================================================================== *)

Module SqliteFacts.
Import Sqlite.

Lemma In_left {B : Type} (o : option B) (l : list B) :
  In o (left l) <-> match o with Some b => In b l | None => l = [] end.
Proof.
  unfold left. destruct l as [|b0 l].
  - destruct o; simpl; split; intros H; try tauto; try discriminate.
    destruct H as [H|[]]. discriminate.
  - rewrite in_map_iff. destruct o as [b|]; split.
    + intros (b' & [= <-] & H). exact H.
    + intros H. now exists b.
    + intros (b' & H & _). discriminate.
    + discriminate.
Qed.

(** The right side of a LEFT JOIN is never empty. *)
Lemma left_inhabited {B : Type} (l : list B) : exists o, In o (left l).
Proof.
  destruct l as [|b l]; [exists None | exists (Some b)]; simpl; auto.
Qed.

Lemma In_on {A B : Type} (a : option A) (cond : A -> B -> bool) (tbl : list B)
  (b : B) :
  In b (on a cond tbl) <-> exists a', a = Some a' /\ In b tbl /\ cond a' b = true.
Proof.
  unfold on. destruct a as [a'|].
  - rewrite filter_In. split.
    + intros [H1 H2]. now exists a'.
    + intros (a'' & [= <-] & H). exact H.
  - split; [intros [] | intros (a' & H & _); discriminate].
Qed.

(** The rows of the join, column by column. *)
Lemma In_joined (db : Database) (r : JoinRow) :
  In r (joined db)
  <-> In (r_i r) (items db)
      /\ In (r_id r)
            (left (filter (fun d => id_itemID d =? itemID (r_i r)) (itemData db)))
      /\ In (r_idv r)
            (left (on (r_id r) (fun d v => idv_valueID v =? id_valueID d)
                      (itemDataValues db)))
      /\ In (r_it r)
            (left (filter (fun it => it_itemTypeID it =? itemTypeID (r_i r))
                          (itemTypes db)))
      /\ In (r_itag r)
            (left (filter (fun g => itag_itemID g =? itemID (r_i r))
                          (itemTags db)))
      /\ In (r_t r)
            (left (on (r_itag r) (fun g t => t_tagID t =? itag_tagID g)
                      (tags db)))
      /\ In (r_ia r)
            (left (filter (attachment_of (r_i r)) (itemAttachments db)))
      /\ In (r_child r)
            (left (on (r_ia r) (fun a c => itemID c =? ia_itemID a) (items db))).
Proof.
  unfold joined. split.
  - intros H.
    repeat (apply in_flat_map in H; destruct H as (? & ? & H)).
    apply in_map_iff in H. destruct H as (? & <- & H).
    cbn. tauto.
  - intros (H1 & H2 & H3 & H4 & H5 & H6 & H7 & H8).
    destruct r as [i d v it g t a c]. cbn in *.
    apply in_flat_map. exists i. split; [assumption|].
    apply in_flat_map. exists d. split; [assumption|].
    apply in_flat_map. exists v. split; [assumption|].
    apply in_flat_map. exists it. split; [assumption|].
    apply in_flat_map. exists g. split; [assumption|].
    apply in_flat_map. exists t. split; [assumption|].
    apply in_flat_map. exists a. split; [assumption|].
    apply in_map. assumption.
Qed.

Lemma In_distinct_Z (l : list Z) (x : Z) : In x (distinct_Z l) <-> In x l.
Proof.
  induction l as [|y l IH]; [reflexivity|].
  cbn [distinct_Z In]. rewrite filter_In, IH.
  destruct (Z.eqb_spec x y) as [->|Hne]; cbn.
  - split; auto.
  - split.
    + intros [H|[H _]]; auto.
    + intros [H|H]; [congruence | auto].
Qed.

Lemma NoDup_distinct_Z (l : list Z) : NoDup (distinct_Z l).
Proof.
  induction l as [|y l IH]; [constructor|].
  cbn [distinct_Z]. constructor.
  - rewrite filter_In. intros [_ H]. now rewrite Z.eqb_refl in H.
  - now apply NoDup_filter.
Qed.

Lemma flat_map_singletons {A B : Type} (f : A -> list B) (g : A -> B)
  (l : list A) :
  (forall x, In x l -> f x = [g x]) -> flat_map f l = map g l.
Proof.
  induction l as [|x l IH]; intros H; [reflexivity|].
  cbn [flat_map map]. rewrite (H x) by now left.
  rewrite IH by (intros y Hy; apply H; now right). reflexivity.
Qed.

Lemma group_head_In (rows : list JoinRow) (x : Z) (r0 : JoinRow) :
  group_head rows x = Some r0 -> In r0 rows /\ itemID (r_i r0) = x.
Proof.
  unfold group_head. intros H.
  assert (Hin : In r0 (filter (fun r => itemID (r_i r) =? x) rows)).
  { destruct (filter _ rows) as [|r l]; [discriminate|].
    injection H as ->. now left. }
  apply filter_In in Hin as [Hin Hx]. split; [exact Hin | lia].
Qed.

(** Every item id among the rows has a group with a first row. *)
Lemma group_head_Some (rows : list JoinRow) (x : Z) :
  In x (map (fun r => itemID (r_i r)) rows) ->
  exists r0, group_head rows x = Some r0.
Proof.
  intros H. apply in_map_iff in H as (r & Hx & Hr).
  unfold group_head.
  destruct (filter (fun r => itemID (r_i r) =? x) rows) as [|r0 l] eqn:Hf.
  - assert (Hin : In r (filter (fun r => itemID (r_i r) =? x) rows))
      by (apply filter_In; split; [exact Hr | lia]).
    rewrite Hf in Hin. destruct Hin.
  - now exists r0.
Qed.

(** The key column of the result: for each item id among the selected
    rows, in order and once, the key of the item of the first row of its
    group. *)
Lemma run_select_keys (db : Database) (conds : list (Cond * string)) :
  map c_key (run_select db conds)
  = map (fun x => match group_head (selected_rows db conds) x with
                  | Some r0 => Some (key (r_i r0))
                  | None => None
                  end)
        (distinct_Z (map (fun r => itemID (r_i r)) (selected_rows db conds))).
Proof.
  unfold run_select, select_groups, group_by_itemID.
  fold (selected_rows db conds).
  set (rows := selected_rows db conds).
  rewrite flat_map_concat_map, map_map, <- flat_map_concat_map.
  rewrite <- map_map with (g := c_key).
  rewrite map_map. 
  erewrite flat_map_singletons
    with (g := fun x => select_group
                          (match group_head rows x with
                           | Some r0 => r0
                           | None => mkJoinRow (mk_items 0 0 "") None None None
                                               None None None None
                           end)
                          (filter (fun r => itemID (r_i r) =? x) rows)).
  - rewrite map_map. apply map_ext_in. intros x Hx.
    apply (proj1 (In_distinct_Z _ _)) in Hx.
    apply group_head_Some in Hx as [r0 Hr0].
    now rewrite Hr0.
  - intros x Hx. apply (proj1 (In_distinct_Z _ _)) in Hx.
    apply group_head_Some in Hx as [r0 Hr0].
    rewrite Hr0. cbn [snd]. unfold group_head in Hr0.
    destruct (filter (fun r => itemID (r_i r) =? x) rows) as [|r l];
      [discriminate|].
    injection Hr0 as ->. reflexivity.
Qed.

(** Every selected row passes the WHERE clause and is a row of the join. *)
Lemma In_selected_rows (db : Database) (conds : list (Cond * string))
  (r : JoinRow) :
  In r (selected_rows db conds)
  <-> In r (joined db) /\ where_all db conds r = true.
Proof. apply filter_In. Qed.

(** The title of a row and of an item: a row with a title field whose
    value passes the filter exists exactly when the item has the title
    field and, for a non-empty filter, a title that passes. *)
Lemma title_dimension (db : Database) (f : string) (i : items_row) :
  (exists d ov,
      In d (itemData db) /\ id_itemID d = itemID i
      /\ title_field db = Some (id_fieldID d)
      /\ In ov (left (on (Some d) (fun d v => idv_valueID v =? id_valueID d)
                         (itemDataValues db)))
      /\ (is_empty f
          || match ov with
             | Some v => like ("%" ++ f ++ "%") (idv_value v)
             | None => false
             end) = true)
  <-> existsb (fun d => (id_itemID d =? itemID i)
                        && match title_field db with
                           | Some f0 => id_fieldID d =? f0
                           | None => false
                           end) (itemData db) = true
      /\ (is_empty f
          || existsb (Listing.like_filter f) (Listing.item_titles db i)) = true.
Proof.
  split.
  - intros (d & ov & Hd & Hi & Hf & Hov & Hm).
    assert (Hc : (id_itemID d =? itemID i)
                 && match title_field db with
                    | Some f0 => id_fieldID d =? f0
                    | None => false
                    end = true).
    { rewrite Hf, Hi, !Z.eqb_refl. reflexivity. }
    split.
    + apply existsb_exists. now exists d.
    + destruct (is_empty f); [reflexivity|]. cbn [orb] in *.
      destruct ov as [v|]; [|discriminate].
      apply In_left, In_on in Hov as (d' & [= <-] & Hv & Hid).
      apply existsb_exists. exists (idv_value v). split; [|exact Hm].
      unfold Listing.item_titles. apply in_flat_map. exists d.
      split; [exact Hd|]. rewrite Hc.
      apply in_map. apply filter_In. now split.
  - intros [Hd Hm].
    destruct (is_empty f) eqn:Hf.
    + apply existsb_exists in Hd as (d & Hd & Hc).
      apply andb_true_iff in Hc as [Hi Hfld].
      destruct (left_inhabited
                  (on (Some d) (fun d v => idv_valueID v =? id_valueID d)
                      (itemDataValues db))) as [ov Hov].
      exists d, ov. repeat split; try assumption; try lia.
      destruct (title_field db) as [f0|]; [|discriminate].
      f_equal. lia.
    + cbn [orb] in Hm. apply existsb_exists in Hm as (s & Hs & Hm).
      unfold Listing.item_titles in Hs.
      apply in_flat_map in Hs as (d & Hd' & Hs).
      destruct ((id_itemID d =? itemID i)
                && match title_field db with
                   | Some f0 => id_fieldID d =? f0
                   | None => false
                   end) eqn:Hc; [|destruct Hs].
      apply andb_true_iff in Hc as [Hi Hfld].
      apply in_map_iff in Hs as (v & <- & Hv).
      apply filter_In in Hv as [Hv Hid].
      exists d, (Some v). repeat split; try assumption; try lia.
      * destruct (title_field db) as [f0|]; [|discriminate]. f_equal. lia.
      * apply In_left, In_on. exists d. now repeat split.
Qed.

(** The same for the tags of a row and of an item. *)
Lemma tag_dimension (db : Database) (g : string) (i : items_row) :
  (exists og ot,
      In og (left (filter (fun x => itag_itemID x =? itemID i) (itemTags db)))
      /\ In ot (left (on og (fun x t => t_tagID t =? itag_tagID x) (tags db)))
      /\ (is_empty g
          || match ot with
             | Some t => like ("%" ++ g ++ "%") (t_name t)
             | None => false
             end) = true)
  <-> (is_empty g
       || existsb (Listing.like_filter g) (Listing.item_tags db i)) = true.
Proof.
  split.
  - intros (og & ot & Hog & Hot & Hm).
    destruct (is_empty g); [reflexivity|]. cbn [orb] in *.
    destruct ot as [t|]; [|discriminate].
    apply In_left, In_on in Hot as (x & -> & Ht & Hid).
    apply In_left, filter_In in Hog as [Hx Hi].
    apply existsb_exists. exists (t_name t). split; [|exact Hm].
    unfold Listing.item_tags. apply in_flat_map. exists x.
    split; [exact Hx|]. rewrite Hi.
    apply in_map. apply filter_In. now split.
  - intros Hm. destruct (is_empty g) eqn:Hg.
    + destruct (left_inhabited
                  (filter (fun x => itag_itemID x =? itemID i) (itemTags db)))
        as [og Hog].
      destruct (left_inhabited
                  (on og (fun x t => t_tagID t =? itag_tagID x) (tags db)))
        as [ot Hot].
      now exists og, ot.
    + cbn [orb] in Hm. apply existsb_exists in Hm as (s & Hs & Hm).
      unfold Listing.item_tags in Hs.
      apply in_flat_map in Hs as (x & Hx & Hs).
      destruct (itag_itemID x =? itemID i) eqn:Hi; [|destruct Hs].
      apply in_map_iff in Hs as (t & <- & Ht).
      apply filter_In in Ht as [Ht Hid].
      exists (Some x), (Some t). repeat split.
      * apply In_left, filter_In. now split.
      * apply In_left, In_on. exists x. now repeat split.
      * exact Hm.
Qed.

Lemma where_all_list_conds (db : Database) (f g : string) (r : JoinRow) :
  where_all db (list_conds f g) r
  = where_base db r
    && (is_empty f || eval_cond TitleLike ("%" ++ f ++ "%") r)
    && (is_empty g || eval_cond TagLike ("%" ++ g ++ "%") r).
Proof.
  unfold where_all, list_conds.
  destruct (is_empty f), (is_empty g); cbn [List.app forallb fst snd orb];
    rewrite ?andb_true_r, ?andb_assoc; reflexivity.
Qed.

(** An item has a row that passes the WHERE clause of a listing exactly
    when it is an item of the database that passes the filters, read as
    LIKE patterns. *)
Lemma selected_row_of_item (db : Database) (f g : string) (i : items_row) :
  (exists r, In r (selected_rows db (list_conds f g)) /\ r_i r = i)
  <-> In i (items db) /\ Listing.passes Listing.like_filter db f g i = true.
Proof.
  unfold Listing.passes, Listing.listable. split.
  - intros (r & Hr & <-).
    apply In_selected_rows in Hr as [Hj Hw].
    apply In_joined in Hj as (Hi & Hid & Hidv & Hit & Hitag & Ht & _ & _).
    rewrite where_all_list_conds in Hw.
    apply andb_true_iff in Hw as [Hw Htag].
    apply andb_true_iff in Hw as [Hbase Htitle].
    unfold where_base in Hbase.
    apply andb_true_iff in Hbase as [Hbase Hchild].
    apply andb_true_iff in Hbase as [Htype Hfield].
    split; [exact Hi|].
    destruct (r_it r) as [it|] eqn:Eit; [|discriminate].
    destruct (r_id r) as [d|] eqn:Eid; [|discriminate].
    destruct (title_field db) as [f0|] eqn:Ef; [|discriminate].
    apply In_left, filter_In in Hit as [Hit Hty].
    apply In_left, filter_In in Hid as [Hd Hdi].
    assert (Htd := proj1 (title_dimension db f (r_i r))).
    rewrite Ef in Htd. destruct Htd as [Hd1 Hd2].
    { exists d, (r_idv r).
      split; [exact Hd|]. split; [lia|]. split; [f_equal; lia|].
      split; [exact Hidv | exact Htitle]. }
    assert (Htg := proj1 (tag_dimension db g (r_i r))).
    rewrite Hd1, Hd2, Hchild, Htg.
    + rewrite !andb_true_r. apply existsb_exists. exists it.
      split; [exact Hit|]. now rewrite Hty, Htype.
    + exists (r_itag r), (r_t r). repeat split; assumption.
  - intros (Hi & Hp).
    apply andb_true_iff in Hp as [Hp Htag].
    apply andb_true_iff in Hp as [Hl Htitle].
    apply andb_true_iff in Hl as [Hl Hchild].
    apply andb_true_iff in Hl as [Htype Hdata].
    apply existsb_exists in Htype as (it & Hit & Hty).
    apply andb_true_iff in Hty as [Hty Hdisp].
    destruct (proj2 (title_dimension db f i) (conj Hdata Htitle))
      as (d & ov & Hd & Hdi & Hf & Hov & Hm).
    destruct (proj2 (tag_dimension db g i) Htag) as (og & ot & Hog & Hot & Hmt).
    destruct (left_inhabited (filter (attachment_of i) (itemAttachments db)))
      as [oa Hoa].
    destruct (left_inhabited
                (on oa (fun a c => itemID c =? ia_itemID a) (items db)))
      as [oc Hoc].
    exists (mkJoinRow i (Some d) ov (Some it) og ot oa oc).
    split; [|reflexivity].
    apply In_selected_rows. split.
    + apply In_joined. cbn. repeat split; try assumption.
      * apply In_left, filter_In. split; [exact Hd | lia].
      * apply In_left, filter_In. now split.
    + rewrite where_all_list_conds. unfold where_base, eval_cond.
      cbn [r_i r_id r_idv r_it r_itag r_t].
      rewrite Hdisp, Hf, Z.eqb_refl, Hchild, Hm, Hmt. reflexivity.
Qed.

(** The rows of the result: one for each group, made of its first row
    and its rows. *)
Lemma In_run_select (db : Database) (conds : list (Cond * string))
  (row : ResultRow) :
  In row (run_select db conds)
  <-> exists r0,
        group_head (selected_rows db conds) (itemID (r_i r0)) = Some r0
        /\ row = select_group r0 (group_of (selected_rows db conds)
                                           (itemID (r_i r0))).
Proof.
  unfold run_select, select_groups, group_by_itemID.
  fold (selected_rows db conds). set (rows := selected_rows db conds).
  rewrite in_flat_map. split.
  - intros ([x g] & Hg & Hrow). apply in_map_iff in Hg as (x' & [= <- <-] & Hx).
    cbn [snd] in Hrow.
    destruct (filter (fun r => itemID (r_i r) =? x') rows) as [|r0 l] eqn:Hf;
      [destruct Hrow|].
    destruct Hrow as [<-|[]].
    assert (Hh : group_head rows x' = Some r0)
      by (unfold group_head; now rewrite Hf).
    destruct (group_head_In _ _ _ Hh) as [_ Hid].
    exists r0. rewrite Hid. split; [exact Hh|].
    unfold group_of. now rewrite Hf.
  - intros (r0 & Hh & ->).
    exists (itemID (r_i r0), group_of rows (itemID (r_i r0))). split.
    + apply in_map_iff. exists (itemID (r_i r0)). split; [reflexivity|].
      apply In_distinct_Z. apply in_map_iff. exists r0.
      split; [reflexivity|]. now apply group_head_In in Hh.
    + cbn [snd]. unfold group_head in Hh. unfold group_of.
      destruct (filter (fun r => itemID (r_i r) =? itemID (r_i r0)) rows)
        as [|r l]; [discriminate|].
      injection Hh as ->. now left.
Qed.

Lemma run_select_has_key (db : Database) (conds : list (Cond * string))
  (row : ResultRow) :
  In row (run_select db conds) -> c_key row <> None.
Proof.
  intros Hrow. apply In_run_select in Hrow as (r0 & _ & ->). discriminate.
Qed.

End SqliteFacts.

(* ================================================================== *)
(** * Properties: what a listing returns *)
(* ================================================================== *)

Section ListingFacts.
Import Sqlite SqliteFacts.

(** The statement of a listing is one the database has a meaning for:
    [baseQuery] with the conditions of the filters. *)
Lemma list_query_prepared (f g : string) :
  prepare (fst (list_query f g)) = Some (map fst (list_conds f g))
  /\ snd (list_query f g) = map snd (list_conds f g).
Proof.
  destruct f as [|a f], g as [|b g]; split;
    solve [vm_compute; reflexivity | reflexivity].
Qed.

Lemma combine_fst_snd {A B : Type} (l : list (A * B)) :
  combine (map fst l) (map snd l) = l.
Proof.
  induction l as [|[a b] l IH]; [reflexivity|]. cbn. now rewrite IH.
Qed.

Lemma execute_list_query (db : Database) (f g : string) :
  execute db (fst (list_query f g)) (snd (list_query f g))
  = inr (run_select db (list_conds f g)).
Proof.
  unfold execute. destruct (list_query_prepared f g) as [-> ->].
  rewrite !length_map, Nat.eqb_refl, combine_fst_snd. reflexivity.
Qed.

Lemma get_query_prepared : prepare get_query = Some [KeyEq].
Proof. vm_compute; reflexivity. Qed.

Lemma execute_get_query (db : Database) (stableID : string) :
  execute db get_query [stableID] = inr (run_select db [(KeyEq, stableID)]).
Proof. unfold execute. rewrite get_query_prepared. reflexivity. Qed.

(** The statement a listing sends, with its parameters. *)
Lemma list_query_sent (f g : string) :
  exists text,
    list_query f g = (text, map snd (list_conds f g))
    /\ prepare text = Some (map fst (list_conds f g)).
Proof.
  destruct (list_query_prepared f g) as [Hp Ha].
  destruct (list_query f g) as [text args]. cbn [fst snd] in *.
  exists text. now rewrite Ha.
Qed.

Lemma too_complex_list_query (f g : string) :
  too_complex (fst (list_query f g)) (snd (list_query f g))
  = existsb over_limit (list_conds f g).
Proof.
  unfold too_complex. destruct (list_query_prepared f g) as [-> ->].
  now rewrite combine_fst_snd.
Qed.

Lemma too_complex_get_query (stableID : string) :
  too_complex get_query [stableID] = false.
Proof. unfold too_complex. rewrite get_query_prepared. reflexivity. Qed.

(** The outcome of the statement of [GetByStableID]. *)
Lemma query_outcome_get (env : Env) (db : Database) (stableID : string) :
  query_outcome env db get_query [stableID]
  = match fault env with
    | QueryFault e => inl e
    | RowsFault k e =>
        inr (mkRows (firstn k (run_select db [(KeyEq, stableID)])) (Some e))
    | NoFault => inr (mkRows (run_select db [(KeyEq, stableID)]) None)
    end.
Proof.
  unfold query_outcome.
  rewrite execute_get_query, too_complex_get_query.
  destruct (fault env); reflexivity.
Qed.

(** The outcome of the statement of a listing. *)
Lemma query_outcome_list (env : Env) (db : Database) (f g : string) :
  query_outcome env db (fst (list_query f g)) (snd (list_query f g))
  = match fault env with
    | QueryFault e => inl e
    | flt =>
        if existsb over_limit (list_conds f g)
        then inr (mkRows [] (Some like_too_complex))
        else
          match flt with
          | RowsFault k e =>
              inr (mkRows (firstn k (run_select db (list_conds f g))) (Some e))
          | _ => inr (mkRows (run_select db (list_conds f g)) None)
          end
    end.
Proof.
  unfold query_outcome.
  rewrite execute_list_query, too_complex_list_query.
  destruct (fault env); reflexivity.
Qed.

Lemma length_append (a b : string) :
  String.length (a ++ b) = (String.length a + String.length b)%nat.
Proof.
  induction a as [|c a IH]; [reflexivity|]. cbn. now rewrite IH.
Qed.

(** Filters within the limit make patterns within the limit. *)
Lemma within_limit_conds (f g : string) :
  within_like_limit f -> within_like_limit g ->
  existsb over_limit (list_conds f g) = false.
Proof.
  unfold within_like_limit. intros Hf Hg.
  assert (Hp : forall c x, Z.of_nat (String.length x) + 2 <= like_pattern_limit ->
                           over_limit (c, "%" ++ x ++ "%") = false).
  { intros c x Hx. unfold over_limit. cbn [fst snd].
    assert (Hl : Z.of_nat (String.length ("%" ++ x ++ "%"))
                 = Z.of_nat (String.length x) + 2).
    { change ("%" ++ x ++ "%") with (String "%" (x ++ "%")).
      cbn [String.length]. rewrite length_append. cbn [String.length]. lia. }
    rewrite Hl. destruct c; [| |reflexivity]; apply Z.ltb_ge; exact Hx. }
  unfold list_conds.
  destruct (is_empty f), (is_empty g); cbn [List.app existsb];
    rewrite ?Hp by assumption; reflexivity.
Qed.

Lemma Scan_key (r : ResultRow) (item : Item) :
  Scan r = inr item -> c_key r = Some (StableID item).
Proof.
  unfold Scan. destruct (c_key r) as [k|]; [|discriminate].
  destruct (c_title r); [|discriminate]. now intros [= <-].
Qed.

Lemma Scan_NullString (r : ResultRow) (item : Item) :
  Scan r = inr item ->
  Tags item = scan_NullString (c_tags r)
  /\ Attachments item = scan_NullString (c_attachments r).
Proof.
  unfold Scan. destruct (c_key r) as [k|]; [|discriminate].
  destruct (c_title r); [|discriminate]. now intros [= <-].
Qed.

(** The items scanned are the rows, in order. *)
Lemma scan_all_rows (rows : list ResultRow) (acc items : list Item) :
  scan_all rows acc = inr items ->
  exists scanned,
    items = List.app acc scanned
    /\ Forall2 (fun r item => Scan r = inr item) rows scanned.
Proof.
  revert acc. induction rows as [|r rows IH]; intros acc; cbn [scan_all].
  - intros [= <-]. exists []. now rewrite List.app_nil_r.
  - destruct (Scan r) as [e|item] eqn:Hs; [discriminate|].
    intros H. apply IH in H as (scanned & -> & Hall).
    exists (item :: scanned). unfold slice_append.
    rewrite <- List.app_assoc. split; [reflexivity|].
    now constructor.
Qed.

Lemma scanned_keys (rows : list ResultRow) (items : list Item) :
  Forall2 (fun r item => Scan r = inr item) rows items ->
  map c_key rows = map (fun item => Some (StableID item)) items.
Proof.
  induction 1 as [|r item rows items Hs _ IH]; [reflexivity|].
  cbn [map]. now rewrite IH, (Scan_key _ _ Hs).
Qed.

(** A listing that succeeds returns the scan of all the rows of its
    statement. *)
Lemma ListItems_success (env : Env) (f g : string) (w : World)
  (items : list Item) :
  fst (ListItems env f g w) = Some (items, None) ->
  Forall2 (fun r item => Scan r = inr item)
          (run_select (w_db w) (list_conds f g)) items.
Proof.
  rewrite ListItems_run. cbn [fst]. rewrite query_outcome_list.
  destruct (fault env) as [|e|k e]; [| discriminate |];
    (destruct (existsb over_limit (list_conds f g)); [discriminate|]);
    cbn [rows_delivered rows_Err].
  - destruct (scan_all (run_select (w_db w) (list_conds f g)) [])
      as [e|l] eqn:Hs; [discriminate|].
    intros [= <-]. apply scan_all_rows in Hs as (scanned & -> & H). exact H.
  - destruct (scan_all _ []); discriminate.
Qed.

End ListingFacts.

(* ================================================================== *)
(** * Properties: the LIKE operator and substrings *)
(* ================================================================== *)

Module LikeFacts.
Import Sqlite Listing.

(** A percent sign at the head of a pattern: the rest matches here or
    further on. *)
Lemma like_chars_percent (p s : list Z) :
  like_chars (matchAll :: p) s
  = like_chars p s
    || match s with
       | [] => false
       | _ :: s' => like_chars (matchAll :: p) s'
       end.
Proof. destruct s; reflexivity. Qed.

Lemma like_chars_only_percent (s : list Z) : like_chars [matchAll] s = true.
Proof.
  induction s as [|d s IH]; [reflexivity|].
  rewrite like_chars_percent. cbn [like_chars]. exact IH.
Qed.

(** An ordinary pattern closed by a percent sign matches the texts it is
    a prefix of, up to ASCII case. *)
Lemma like_chars_prefix (f s : list Z) :
  Forall ordinary f -> like_chars (List.app f [matchAll]) s = prefix_ci f s.
Proof.
  intros Hf. revert s. induction Hf as [|c f [Hc1 Hc2] _ IH]; intros s.
  - apply like_chars_only_percent.
  - cbn [List.app like_chars prefix_ci].
    destruct (Z.eqb_spec c matchAll); [contradiction|].
    destruct s as [|d s]; [reflexivity|].
    destruct (Z.eqb_spec c matchOne); [contradiction|].
    cbn [orb]. now rewrite IH.
Qed.

(** Between two percent signs it matches the texts it occurs in. *)
Lemma like_chars_contains (f s : list Z) :
  Forall ordinary f ->
  like_chars (matchAll :: List.app f [matchAll]) s = contains_ci f s.
Proof.
  intros Hf. induction s as [|d s IH].
  - rewrite like_chars_percent, like_chars_prefix by exact Hf.
    cbn [contains_ci]. reflexivity.
  - rewrite like_chars_percent, like_chars_prefix, IH by exact Hf.
    reflexivity.
Qed.

Lemma utf8Fix_ordinary (c : Z) : ordinary (utf8Fix c).
Proof.
  unfold utf8Fix, ordinary, matchAll, matchOne.
  destruct (c <? 0x80) eqn:E; cbn [orb]; [lia|].
  apply Z.ltb_ge in E.
  destruct (_ || _); lia.
Qed.

Lemma plain_filter_bytes (f : string) :
  plain_filter f = true -> Forall plain_byte (bytes f).
Proof.
  unfold plain_filter. intros H. apply Forall_forall. intros b Hb.
  rewrite forallb_forall in H. specialize (H b Hb).
  apply negb_true_iff in H. apply orb_false_iff in H as [H H3].
  apply orb_false_iff in H as [H1 H2].
  unfold plain_byte. repeat split; intros ->; cbn in *; discriminate.
Qed.

(** The characters read from plain bytes are ordinary, and a percent
    sign after them is read as itself. *)
Lemma read_chars_plain (bs : list Z) (acc : option Z) :
  Forall plain_byte bs ->
  Forall ordinary (read_chars acc bs)
  /\ read_chars acc (List.app bs [matchAll])
     = List.app (read_chars acc bs) [matchAll].
Proof.
  intros H. revert acc. induction H as [|b bs (Hb0 & Hb1 & Hb2) _ IH];
    intros acc.
  - destruct acc as [c|]; split; try reflexivity.
    + repeat constructor; apply utf8Fix_ordinary.
    + constructor.
  - cbn [List.app read_chars].
    destruct (Z.eqb_spec b 0) as [|_]; [contradiction|].
    destruct acc as [c|].
    + destruct (is_cont b); [apply IH|].
      destruct (b <? 0xC0).
      * destruct (IH None) as [H1 H2]. rewrite H2. split; [|reflexivity].
        constructor; [apply utf8Fix_ordinary|].
        constructor; [now split | exact H1].
      * destruct (IH (Some (utf8Trans1 b))) as [H1 H2]. rewrite H2.
        split; [|reflexivity].
        constructor; [apply utf8Fix_ordinary | exact H1].
    + destruct (b <? 0xC0).
      * destruct (IH None) as [H1 H2]. rewrite H2. split; [|reflexivity].
        constructor; [now split | exact H1].
      * apply IH.
Qed.

(** The pattern the program builds from a plain filter. *)
Lemma chars_pattern (f : string) :
  plain_filter f = true ->
  chars ("%" ++ f ++ "%") = matchAll :: List.app (chars f) [matchAll]
  /\ Forall ordinary (chars f).
Proof.
  intros H. apply plain_filter_bytes in H.
  destruct (read_chars_plain (bytes f) None H) as [H1 H2].
  split; [|exact H1].
  unfold chars. cbn [String.append bytes].
  rewrite bytes_app. cbn [bytes].
  change (byte_val "%") with matchAll.
  change (read_chars None (matchAll :: List.app (bytes f) [matchAll]))
    with (matchAll :: read_chars None (List.app (bytes f) [matchAll])).
  now rewrite H2.
Qed.

(** For a plain filter the test the database makes is the substring
    test on the characters it reads. *)
Lemma like_filter_contains (f text : string) :
  plain_filter f = true -> like_filter f text = contains_chars f text.
Proof.
  intros H. unfold like_filter, like, contains_chars.
  destruct (chars_pattern f H) as [-> Hf].
  now apply like_chars_contains.
Qed.

End LikeFacts.

(* ================================================================== *)
(** * Properties: the LIKE operator on well-formed UTF-8 *)
(* ================================================================== *)

Module LikeUtf8.
Import Utf8 Utf8Facts Sqlite Listing.

Lemma like_rune_spec (r : Z) :
  like_rune r = true ->
  0 < r <= 0x10FFFF /\ ~ (0xD800 <= r <= 0xDFFF) /\ r <> 0xFFFE /\ r <> 0xFFFF.
Proof.
  unfold like_rune, between, MaxRune, surrogateMin, surrogateMax.
  intros H. bool_to_prop H. lia.
Qed.

(** The bytes of a rune, by its size. *)
Lemma encode_forms (r : Z) :
  like_rune r = true ->
  (r < 0x80 /\ EncodeRune r = [r])
  \/ (0x80 <= r < 0x800
      /\ EncodeRune r = [0xC0 + r / 64; 0x80 + r mod 64])
  \/ (0x800 <= r < 0x10000
      /\ EncodeRune r
         = [0xE0 + r / 4096; 0x80 + (r / 64) mod 64; 0x80 + r mod 64])
  \/ (0x10000 <= r
      /\ EncodeRune r
         = [0xF0 + r / 262144; 0x80 + (r / 4096) mod 64;
            0x80 + (r / 64) mod 64; 0x80 + r mod 64]).
Proof.
  intros H. apply like_rune_spec in H as (Hr & Hs & _).
  unfold EncodeRune, MaxRune, surrogateMin, surrogateMax, between.
  destruct (Z.ltb_spec r 0x80); [left|right];
    [|destruct (Z.ltb_spec r 0x800); [left|right];
      [|destruct (Z.ltb_spec r 0x10000); [left|right]]];
    (split; [lia|]);
    repeat match goal with
           | |- context [Z.leb ?a ?b] => destruct (Z.leb_spec a b); try lia
           | |- context [Z.ltb ?a ?b] => destruct (Z.ltb_spec a b); try lia
           end;
    cbn [andb orb negb]; encode_arith;
    rewrite ?lead2, ?lead3, ?lead4 by (Z.div_mod_to_equations; lia);
    reflexivity.
Qed.

(** Clearing the low [k] bits of a [w]-bit value. *)
Lemma land_clear_low (w k c : Z) :
  0 <= k <= w -> 0 <= c < 2 ^ w ->
  Z.land c (Z.shiftl (Z.ones (w - k)) k) = (c / 2 ^ k) * 2 ^ k.
Proof.
  intros Hk Hc.
  rewrite <- Z.shiftr_div_pow2, <- Z.shiftl_mul_pow2 by lia.
  apply Z.bits_inj'. intros n Hn.
  rewrite Z.land_spec, !Z.shiftl_spec by lia.
  destruct (Z.ltb_spec n k) as [Hlt|Hge].
  - rewrite (Z.testbit_neg_r (Z.ones (w - k)) (n - k)) by lia.
    rewrite (Z.testbit_neg_r (Z.shiftr c k) (n - k)) by lia.
    apply andb_false_r.
  - rewrite Z.shiftr_spec by lia. replace (n - k + k) with n by lia.
    destruct (Z.ltb_spec n w) as [Hw|Hw].
    + rewrite Z.ones_spec_low by lia. apply andb_true_r.
    + assert (Z.testbit c n = false) as ->; [|reflexivity].
      destruct (Z.eq_dec c 0) as [->|Hne]; [apply Z.bits_0|].
      apply Z.bits_above_log2; [lia|].
      apply Z.lt_le_trans with w; [|lia].
      apply Z.log2_lt_pow2; lia.
Qed.

Lemma is_cont_spec (b : Z) :
  0 <= b < 256 -> is_cont b = (0x80 <=? b) && (b <? 0xC0).
Proof.
  intros Hb. unfold is_cont.
  change 0xC0 with (Z.shiftl (Z.ones (8 - 6)) 6) at 1.
  rewrite (land_clear_low 8 6 b) by (cbn; lia).
  change (2 ^ 6) with 64.
  destruct (Z.eqb_spec (b / 64 * 64) 0x80);
    destruct (Z.leb_spec 0x80 b); destruct (Z.ltb_spec b 0xC0);
    cbn [andb]; try reflexivity; exfalso; Z.div_mod_to_equations; lia.
Qed.

Lemma utf8Fix_id (c : Z) :
  0x80 <= c <= 0x10FFFF -> ~ (0xD800 <= c <= 0xDFFF) ->
  c <> 0xFFFE -> c <> 0xFFFF -> utf8Fix c = c.
Proof.
  intros Hc Hs H1 H2. unfold utf8Fix.
  change 0xFFFFF800 with (Z.shiftl (Z.ones (32 - 11)) 11).
  change 0xFFFFFFFE with (Z.shiftl (Z.ones (32 - 1)) 1).
  rewrite (land_clear_low 32 11 c), (land_clear_low 32 1 c) by (cbn; lia).
  change (2 ^ 11) with 2048. change (2 ^ 1) with 2.
  destruct (Z.ltb_spec c 0x80); [lia|].
  destruct (Z.eqb_spec (c / 2048 * 2048) 0xD800);
    [exfalso; Z.div_mod_to_equations; lia|].
  destruct (Z.eqb_spec (c / 2 * 2) 0xFFFE);
    [exfalso; Z.div_mod_to_equations; lia|].
  reflexivity.
Qed.

(** ** Reading the bytes of runes *)

Lemma read_ascii (b : Z) (rest : list Z) :
  0 < b < 0xC0 -> read_chars None (b :: rest) = b :: read_chars None rest.
Proof.
  intros H. cbn [read_chars].
  destruct (Z.eqb_spec b 0); [lia|]. destruct (Z.ltb_spec b 0xC0); [|lia].
  reflexivity.
Qed.

Lemma read_lead (b : Z) (rest : list Z) :
  0xC0 <= b ->
  read_chars None (b :: rest) = read_chars (Some (utf8Trans1 b)) rest.
Proof.
  intros H. cbn [read_chars].
  destruct (Z.eqb_spec b 0); [lia|]. destruct (Z.ltb_spec b 0xC0); [lia|].
  reflexivity.
Qed.

Lemma read_cont (a m : Z) (rest : list Z) :
  0 <= m < 64 -> 0 <= a * 64 + m < 4294967296 ->
  read_chars (Some a) ((0x80 + m) :: rest)
  = read_chars (Some (a * 64 + m)) rest.
Proof.
  intros Hm Ha. cbn [read_chars].
  rewrite is_cont_spec by lia.
  destruct (Z.leb_spec 0x80 (0x80 + m)); [|lia].
  destruct (Z.ltb_spec (0x80 + m) 0xC0); [|lia]. cbn [andb].
  rewrite land_3F.
  replace ((0x80 + m) mod 64) with m by (Z.div_mod_to_equations; lia).
  change (2 ^ 32) with 4294967296. now rewrite Z.mod_small by lia.
Qed.

Lemma read_flush (a : Z) (rest : list Z) :
  lead_head rest ->
  read_chars (Some a) rest = utf8Fix a :: read_chars None rest.
Proof.
  destruct rest as [|b r]; cbn [lead_head read_chars]; [reflexivity|].
  intros Hb. rewrite is_cont_spec by lia.
  destruct (Z.leb_spec 0x80 b); destruct (Z.ltb_spec b 0xC0);
    cbn [andb]; try reflexivity; lia.
Qed.

Lemma utf8Trans1_lead2 (x : Z) : 0 <= x < 32 -> utf8Trans1 (0xC0 + x) = x.
Proof.
  intros H. unfold utf8Trans1. destruct (Z.ltb_spec (0xC0 + x) 0xE0); lia.
Qed.

Lemma utf8Trans1_lead3 (x : Z) : 0 <= x < 16 -> utf8Trans1 (0xE0 + x) = x.
Proof.
  intros H. unfold utf8Trans1.
  destruct (Z.ltb_spec (0xE0 + x) 0xE0); [lia|].
  destruct (Z.ltb_spec (0xE0 + x) 0xF0); lia.
Qed.

Lemma utf8Trans1_lead4 (x : Z) : 0 <= x < 8 -> utf8Trans1 (0xF0 + x) = x.
Proof.
  intros H. unfold utf8Trans1.
  destruct (Z.ltb_spec (0xF0 + x) 0xE0); [lia|].
  destruct (Z.ltb_spec (0xF0 + x) 0xF0); [lia|].
  destruct (Z.ltb_spec (0xF0 + x) 0xF8); lia.
Qed.

(** The LIKE operator reads the bytes of a rune as that rune. *)
Lemma read_encode (r : Z) (rest : list Z) :
  like_rune r = true -> lead_head rest ->
  read_chars None (List.app (EncodeRune r) rest) = r :: read_chars None rest.
Proof.
  intros Hr Hrest. pose proof (like_rune_spec r Hr) as (Hp & Hs & H1 & H2).
  destruct (encode_forms r Hr)
    as [[Hc ->]|[[Hc ->]|[[Hc ->]|[Hc ->]]]]; cbn [List.app].
  - apply read_ascii. lia.
  - rewrite read_lead by (Z.div_mod_to_equations; lia).
    rewrite utf8Trans1_lead2 by (Z.div_mod_to_equations; lia).
    rewrite read_cont by (Z.div_mod_to_equations; lia).
    rewrite read_flush by exact Hrest.
    replace (r / 64 * 64 + r mod 64) with r by (Z.div_mod_to_equations; lia).
    now rewrite utf8Fix_id by lia.
  - rewrite read_lead by (Z.div_mod_to_equations; lia).
    rewrite utf8Trans1_lead3 by (Z.div_mod_to_equations; lia).
    rewrite read_cont by (Z.div_mod_to_equations; lia).
    rewrite read_cont by (Z.div_mod_to_equations; lia).
    rewrite read_flush by exact Hrest.
    replace ((r / 4096 * 64 + (r / 64) mod 64) * 64 + r mod 64) with r
      by (Z.div_mod_to_equations; lia).
    now rewrite utf8Fix_id by lia.
  - rewrite read_lead by (Z.div_mod_to_equations; lia).
    rewrite utf8Trans1_lead4 by (Z.div_mod_to_equations; lia).
    rewrite read_cont by (Z.div_mod_to_equations; lia).
    rewrite read_cont by (Z.div_mod_to_equations; lia).
    rewrite read_cont by (Z.div_mod_to_equations; lia).
    rewrite read_flush by exact Hrest.
    replace (((r / 262144 * 64 + (r / 4096) mod 64) * 64 + (r / 64) mod 64)
             * 64 + r mod 64) with r by (Z.div_mod_to_equations; lia).
    now rewrite utf8Fix_id by lia.
Qed.

Lemma encode_lead_head (r : Z) (rest : list Z) :
  like_rune r = true -> lead_head (List.app (EncodeRune r) rest).
Proof.
  intros Hr. pose proof (like_rune_spec r Hr) as (Hp & _).
  destruct (encode_forms r Hr)
    as [[Hc ->]|[[Hc ->]|[[Hc ->]|[Hc ->]]]]; cbn [List.app lead_head];
    Z.div_mod_to_equations; lia.
Qed.

Lemma encode_all_lead_head (rs : list Z) :
  forallb like_rune rs = true -> lead_head (encode_all rs).
Proof.
  destruct rs as [|r rs]; [constructor|].
  cbn [forallb]. intros H. apply andb_true_iff in H as [Hr _].
  unfold encode_all. cbn [map List.concat]. now apply encode_lead_head.
Qed.

Lemma read_encode_all (rs : list Z) :
  forallb like_rune rs = true -> read_chars None (encode_all rs) = rs.
Proof.
  induction rs as [|r rs IH]; [reflexivity|].
  cbn [forallb]. intros H. apply andb_true_iff in H as [Hr Hrs].
  unfold encode_all. cbn [map List.concat]. fold (encode_all rs).
  rewrite read_encode by (try exact Hr; now apply encode_all_lead_head).
  now rewrite IH.
Qed.

(** ** Containment on runes and on bytes *)

Lemma like_eq_high (a b : Z) :
  0x80 <= a \/ 0x80 <= b -> like_eq a b = (a =? b).
Proof.
  intros H. unfold like_eq.
  destruct (Z.ltb_spec a 0x80), (Z.ltb_spec b 0x80); cbn [andb];
    try (exfalso; lia); now rewrite orb_false_r.
Qed.

(** Bytes of which one is not ASCII are compared as they are; the bytes
    of two runes are equal exactly when the runes are. *)
Ltac bytes_eq :=
  rewrite !like_eq_high by (Z.div_mod_to_equations; lia);
  match goal with
  | |- context [?d =? ?c] =>
      match goal with
      | |- _ = (d =? c) && _ =>
          destruct (Z.eqb_spec d c) as [->|?];
          [ rewrite ?Z.eqb_refl; cbn [andb]; try reflexivity; exfalso; lia
          | cbn [andb];
            repeat match goal with
                   | |- context [Z.eqb ?a ?b] => destruct (Z.eqb_spec a b)
                   end;
            cbn [andb]; try reflexivity; exfalso;
            Z.div_mod_to_equations; lia ]
      end
  end.

(** A rune is a prefix of bytes as its bytes are. *)
Lemma prefix_encode (d c : Z) (X Y : list Z) :
  like_rune d = true -> like_rune c = true ->
  prefix_ci (List.app (EncodeRune d) X) (List.app (EncodeRune c) Y)
  = like_eq d c && prefix_ci X Y.
Proof.
  intros Hd Hc.
  pose proof (like_rune_spec d Hd) as (Hdp & _).
  pose proof (like_rune_spec c Hc) as (Hcp & _).
  destruct (encode_forms d Hd) as [[Rd ->]|[[Rd ->]|[[Rd ->]|[Rd ->]]]];
    destruct (encode_forms c Hc) as [[Rc ->]|[[Rc ->]|[[Rc ->]|[Rc ->]]]];
    cbn [List.app prefix_ci]; try reflexivity; bytes_eq.
Qed.

Lemma prefix_encode_nil (d : Z) (X : list Z) :
  like_rune d = true -> prefix_ci (List.app (EncodeRune d) X) [] = false.
Proof.
  intros Hd.
  destruct (encode_forms d Hd) as [[Rd ->]|[[Rd ->]|[[Rd ->]|[Rd ->]]]];
    reflexivity.
Qed.

Lemma prefix_encode_all (ds cs : list Z) :
  forallb like_rune ds = true -> forallb like_rune cs = true ->
  prefix_ci (encode_all ds) (encode_all cs) = prefix_ci ds cs.
Proof.
  revert cs. induction ds as [|d ds IH]; intros cs Hds Hcs; [reflexivity|].
  cbn [forallb] in Hds. apply andb_true_iff in Hds as [Hd Hds].
  unfold encode_all. cbn [map List.concat]. fold (encode_all ds).
  destruct cs as [|c cs].
  - cbn [map List.concat prefix_ci]. now apply prefix_encode_nil.
  - cbn [forallb] in Hcs. apply andb_true_iff in Hcs as [Hc Hcs].
    cbn [map List.concat prefix_ci]. fold (encode_all cs).
    rewrite prefix_encode by assumption. now rewrite IH.
Qed.

Lemma contains_ci_nil (hay : list Z) : contains_ci [] hay = true.
Proof. destruct hay; reflexivity. Qed.

(** Nothing that starts with the first byte of a character is found at a
    continuation byte. *)
Lemma contains_skip (N : list Z) (m : Z) (Y : list Z) :
  lead_head N -> 0 <= m < 64 ->
  contains_ci N ((0x80 + m) :: Y) = contains_ci N Y.
Proof.
  intros HN Hm. destruct N as [|h N]; [now rewrite !contains_ci_nil|].
  cbn [contains_ci prefix_ci lead_head] in *.
  rewrite like_eq_high by lia.
  destruct (Z.eqb_spec h (0x80 + m)); [lia|]. reflexivity.
Qed.

Lemma contains_ci_cons (N : list Z) (b : Z) (Y : list Z) :
  contains_ci N (b :: Y) = prefix_ci N (b :: Y) || contains_ci N Y.
Proof. reflexivity. Qed.

Lemma contains_encode (N : list Z) (c : Z) (Y : list Z) :
  lead_head N -> like_rune c = true ->
  contains_ci N (List.app (EncodeRune c) Y)
  = prefix_ci N (List.app (EncodeRune c) Y) || contains_ci N Y.
Proof.
  intros HN Hc.
  destruct (encode_forms c Hc) as [[Rc ->]|[[Rc ->]|[[Rc ->]|[Rc ->]]]];
    cbn [List.app]; rewrite contains_ci_cons;
    rewrite ?contains_skip by (try exact HN; Z.div_mod_to_equations; lia);
    reflexivity.
Qed.

Lemma contains_encode_all (ds cs : list Z) :
  forallb like_rune ds = true -> forallb like_rune cs = true ->
  contains_ci (encode_all ds) (encode_all cs) = contains_ci ds cs.
Proof.
  intros Hds. induction cs as [|c cs IH]; intros Hcs.
  - cbn [encode_all map List.concat contains_ci].
    change [] with (encode_all []) at 1.
    now rewrite prefix_encode_all.
  - pose proof Hcs as Hcs'. cbn [forallb] in Hcs.
    apply andb_true_iff in Hcs as [Hc Hcs].
    cbn [contains_ci]. rewrite <- IH by exact Hcs.
    rewrite <- (prefix_encode_all ds (c :: cs)) by assumption.
    unfold encode_all at 1 3. cbn [map List.concat]. fold (encode_all cs).
    apply contains_encode; [now apply encode_all_lead_head | exact Hc].
Qed.

(** ** Plain texts *)

Lemma plain_text_bytes (s : string) :
  plain_text s = true ->
  forallb like_rune (runes s) = true /\ bytes s = encode_all (runes s).
Proof.
  unfold plain_text. intros H. apply andb_true_iff in H as [Hr He].
  split; [exact Hr|]. apply String.eqb_eq in He.
  rewrite <- He at 1. unfold string_of_runes.
  apply bytes_of_bytes, encode_all_bytes.
Qed.

(** The LIKE operator reads a plain text as Go does. *)
Lemma chars_plain_text (s : string) :
  plain_text s = true -> chars s = runes s.
Proof.
  intros H. apply plain_text_bytes in H as [Hr Hb].
  unfold chars. rewrite Hb. now apply read_encode_all.
Qed.

Lemma like_filter_substring (f text : string) :
  plain_filter f = true -> plain_text f = true -> plain_text text = true ->
  like_filter f text = contains_fold f text.
Proof.
  intros Hp Hf Ht. rewrite LikeFacts.like_filter_contains by exact Hp.
  unfold contains_chars, contains_fold.
  rewrite (chars_plain_text f Hf), (chars_plain_text text Ht).
  apply plain_text_bytes in Hf as [Hfr ->].
  apply plain_text_bytes in Ht as [Htr ->].
  symmetry. now apply contains_encode_all.
Qed.

End LikeUtf8.

(* ================================================================== *)
(** * Properties: listings (C2, C7) *)
(* ================================================================== *)

Section Listings.
Import Sqlite SqliteFacts Listing.

Lemma NoDup_map_In_inj {A B : Type} (f : A -> B) (l : list A) (a b : A) :
  NoDup (map f l) -> In a l -> In b l -> f a = f b -> a = b.
Proof.
  induction l as [|x l IH]; cbn [map In]; [tauto|].
  intros Hnd Ha Hb Hab. inversion Hnd as [|y m Hx Hl]; subst.
  destruct Ha as [->|Ha], Hb as [->|Hb]; try reflexivity.
  - exfalso. apply Hx. rewrite Hab. now apply in_map.
  - exfalso. apply Hx. rewrite <- Hab. now apply in_map.
  - now apply IH.
Qed.

(** A key is returned exactly when it is the key of the first row of the
    group of some item id among the selected rows. *)
Lemma In_result_keys (db : Database) (conds : list (Cond * string))
  (k : string) :
  In (Some k) (map c_key (run_select db conds))
  <-> exists r0, group_head (selected_rows db conds) (itemID (r_i r0)) = Some r0
                 /\ key (r_i r0) = k.
Proof.
  rewrite run_select_keys, in_map_iff. split.
  - intros (x & Hk & Hx).
    destruct (group_head (selected_rows db conds) x) as [r0|] eqn:Hh;
      [|discriminate].
    injection Hk as Hk. exists r0.
    destruct (group_head_In _ _ _ Hh) as [_ Hid]. now rewrite Hid.
  - intros (r0 & Hh & Hk). exists (itemID (r_i r0)). rewrite Hh.
    split; [now rewrite Hk|].
    apply In_distinct_Z. apply in_map_iff. exists r0. split; [reflexivity|].
    now apply group_head_In in Hh.
Qed.

(** The keys of a listing, under the primary key of [items]. *)
Lemma listed_keys (db : Database) (f g k : string) :
  NoDup (map itemID (items db)) ->
  In (Some k) (map c_key (run_select db (list_conds f g)))
  <-> exists i, In i (items db) /\ key i = k
                /\ passes like_filter db f g i = true.
Proof.
  intros Hpk. rewrite In_result_keys. split.
  - intros (r0 & Hh & Hk). exists (r_i r0).
    apply group_head_In in Hh as [Hin _].
    destruct (proj1 (selected_row_of_item db f g (r_i r0))) as [Hi Hp];
      [now exists r0|].
    now repeat split.
  - intros (i & Hi & Hk & Hp).
    destruct (proj2 (selected_row_of_item db f g i)) as (r & Hr & Hri);
      [now split|].
    destruct (group_head_Some (selected_rows db (list_conds f g)) (itemID i))
      as [r0 Hh].
    { apply in_map_iff. exists r. now rewrite Hri. }
    destruct (group_head_In _ _ _ Hh) as [Hin Hid].
    assert (Hi0 : In (r_i r0) (items db)).
    { apply In_selected_rows in Hin as [Hj _]. now apply In_joined in Hj. }
    assert (H : r_i r0 = i)
      by (apply (NoDup_map_In_inj itemID (items db)); assumption).
    exists r0. rewrite H. split; [exact Hh | exact Hk].
Qed.

(** The identifiers of a listing are pairwise distinct when the keys of
    the items are. *)
Lemma result_keys_NoDup (db : Database) (conds : list (Cond * string)) :
  NoDup (map key (items db)) -> NoDup (map c_key (run_select db conds)).
Proof.
  intros Hk. rewrite run_select_keys.
  apply NoDup_map_NoDup_ForallPairs; [|apply NoDup_distinct_Z].
  intros x y Hx Hy Heq.
  apply In_distinct_Z, group_head_Some in Hx as [rx Hrx].
  apply In_distinct_Z, group_head_Some in Hy as [ry Hry].
  rewrite Hrx, Hry in Heq. injection Heq as Heq.
  destruct (group_head_In _ _ _ Hrx) as [Hinx <-].
  destruct (group_head_In _ _ _ Hry) as [Hiny <-].
  apply In_selected_rows in Hinx as [Hjx _]. apply In_joined in Hjx as [Hix _].
  apply In_selected_rows in Hiny as [Hjy _]. apply In_joined in Hjy as [Hiy _].
  f_equal. apply (NoDup_map_In_inj key (items db)); assumption.
Qed.

End Listings.

Section ListingTheorems.
Import Sqlite SqliteFacts Listing.

Lemma In_map_Some {A B : Type} (f : A -> B) (l : list A) (b : B) :
  In (Some b) (map (fun a => Some (f a)) l) <-> In b (map f l).
Proof.
  rewrite !in_map_iff. split; intros (a & H & Ha); exists a.
  - split; [congruence | exact Ha].
  - split; [congruence | exact Ha].
Qed.

Lemma Forall2_In_r {A B : Type} (R : A -> B -> Prop) (l : list A)
  (l' : list B) (b : B) :
  Forall2 R l l' -> In b l' -> exists a, In a l /\ R a b.
Proof.
  induction 1 as [|a b' l l' Hab _ IH]; cbn [In]; [tauto|].
  intros [<-|Hb].
  - exists a. auto.
  - destruct (IH Hb) as (a' & Ha' & HR). exists a'. auto.
Qed.

Lemma existsb_pointwise {A : Type} (p q : A -> bool) (l : list A) :
  (forall a, p a = q a) -> existsb p l = existsb q l.
Proof.
  intros H. induction l as [|a l IH]; [reflexivity|].
  cbn [existsb]. now rewrite H, IH.
Qed.

Lemma existsb_pointwise_in {A : Type} (p q : A -> bool) (l : list A) :
  (forall a, In a l -> p a = q a) -> existsb p l = existsb q l.
Proof.
  intros H. induction l as [|a l IH]; [reflexivity|].
  cbn [existsb]. rewrite (H a) by now left.
  rewrite IH by (intros b Hb; apply H; now right). reflexivity.
Qed.

Lemma In_item_titles_value (db : Database) (i : items_row) (s : string) :
  In s (item_titles db i) ->
  exists v, In v (itemDataValues db) /\ idv_value v = s.
Proof.
  unfold item_titles. intros H. apply in_flat_map in H as (d & _ & H).
  destruct (_ && _); [|destruct H].
  apply in_map_iff in H as (v & Hv & Hin). apply filter_In in Hin as [Hin _].
  now exists v.
Qed.

Lemma In_item_tags_name (db : Database) (i : items_row) (s : string) :
  In s (item_tags db i) -> exists t, In t (tags db) /\ t_name t = s.
Proof.
  unfold item_tags. intros H. apply in_flat_map in H as (x & _ & H).
  destruct (_ =? _); [|destruct H].
  apply in_map_iff in H as (t & Ht & Hin). apply filter_In in Hin as [Hin _].
  now exists t.
Qed.

(** With plain filters over a library of plain texts the two readings of
    the filter test agree on every item. *)
Lemma passes_plain (db : Database) (f g : string) (i : items_row) :
  plain_filter f = true -> plain_text f = true ->
  plain_filter g = true -> plain_text g = true ->
  (forall v, In v (itemDataValues db) -> plain_text (idv_value v) = true) ->
  (forall t, In t (tags db) -> plain_text (t_name t) = true) ->
  passes like_filter db f g i = passes contains_fold db f g i.
Proof.
  intros Hf Hf' Hg Hg' Hval Htag. unfold passes. f_equal; [f_equal|]; f_equal.
  - apply existsb_pointwise_in. intros s Hs.
    apply In_item_titles_value in Hs as (v & Hv & <-).
    apply LikeUtf8.like_filter_substring; auto.
  - apply existsb_pointwise_in. intros s Hs.
    apply In_item_tags_name in Hs as (t & Ht & <-).
    apply LikeUtf8.like_filter_substring; auto.
Qed.

(** Claim C2, as the code has it.  When the item ids are a primary key, a
    listing that succeeds returns exactly the keys of the listable items
    that pass every non-empty filter, the two conditions joined by AND
    and an empty filter imposing none, where a filter passes a text when
    the text matches the LIKE pattern [%filter%]: a percent sign or an
    underscore in the filter is a wildcard.  When the filter holds no
    percent sign and no underscore, and filter and text are well-formed
    UTF-8 without NUL, U+FFFE and U+FFFF, this is the test that the
    bytes of the filter occur in the text as a substring, up to the case
    of ASCII letters; so for such filters over a library whose titles
    and tag names are such texts the listing is the one of the claim.
    A text with a NUL byte is outside: LIKE reads it up to that byte. *)
Theorem ListItems_filters_by_like (env : Env) (w : World) (f g : string)
  (listed : list Item) :
  NoDup (map itemID (items (w_db w))) ->
  fst (ListItems env f g w) = Some (listed, None) ->
  lists_exactly like_filter (w_db w) f g listed
  /\ (forall flt text,
        plain_filter flt = true -> plain_text flt = true ->
        plain_text text = true ->
        like_filter flt text = contains_fold flt text)
  /\ (plain_filter f = true -> plain_text f = true ->
      plain_filter g = true -> plain_text g = true ->
      (forall v, In v (itemDataValues (w_db w)) ->
                 plain_text (idv_value v) = true) ->
      (forall t, In t (tags (w_db w)) -> plain_text (t_name t) = true) ->
      lists_exactly contains_fold (w_db w) f g listed)
  /\ (forall matches i,
        passes matches (w_db w) f g i = true
        <-> listable (w_db w) i = true
            /\ (f <> "" -> existsb (matches f) (item_titles (w_db w) i) = true)
            /\ (g <> "" -> existsb (matches g) (item_tags (w_db w) i) = true))
  /\ (let text := "ab" ++ String (ascii_of_nat 0) "cd" in
      plain_filter "cd" = true /\ plain_text "cd" = true
      /\ like_filter "cd" text = false /\ contains_fold "cd" text = true).
Proof.
  intros Hpk Hok.
  assert (Hlike : lists_exactly like_filter (w_db w) f g listed).
  { intros k. apply ListItems_success, scanned_keys in Hok.
    rewrite <- (In_map_Some StableID), <- Hok. now apply listed_keys. }
  split; [exact Hlike|]. split; [|split; [|split]].
  - intros flt text. apply LikeUtf8.like_filter_substring.
  - intros Hf Hf' Hg Hg' Hval Htag k. rewrite (Hlike k).
    split; intros (i & Hi & Hk & Hp); exists i; repeat split; try assumption.
    + now rewrite <- passes_plain.
    + now rewrite passes_plain.
  - intros matches i. unfold passes.
    rewrite !andb_true_iff, !orb_true_iff, !is_empty_true.
    split.
    + intros [[Hl Ht] Hg]. repeat split; try assumption.
      * intros Hne. destruct Ht; [contradiction | assumption].
      * intros Hne. destruct Hg; [contradiction | assumption].
    + intros (Hl & Ht & Hg). repeat split; try assumption.
      * destruct f; [now left | right; apply Ht; discriminate].
      * destruct g; [now left | right; apply Hg; discriminate].
  - vm_compute. repeat split.
Qed.

(** On the sample library, whose texts are plain, the filters [ATT] and
    [L] list the first paper under both readings. *)
Lemma ListItems_filters_by_like_witness :
  lists_exactly like_filter Sample.db "ATT" "L" [Sample.item1]
  /\ lists_exactly contains_fold Sample.db "ATT" "L" [Sample.item1].
Proof.
  destruct (ListItems_filters_by_like Sample.env Sample.world "ATT" "L"
              [Sample.item1]) as (Hlike & _ & Hfold & _).
  - cbn. repeat constructor; cbn; intuition discriminate.
  - vm_compute. reflexivity.
  - split; [exact Hlike|].
    apply Hfold; [reflexivity | reflexivity | reflexivity | reflexivity | |].
    + intros v Hv. cbn in Hv.
      destruct Hv as [<-|[<-|[<-|[<-|[]]]]]; vm_compute; reflexivity.
    + intros t Ht. cbn in Ht.
      destruct Ht as [<-|[<-|[]]]; vm_compute; reflexivity.
Defined.

(** Claim C2 as stated fails: with the title filter [_] the listing
    returns both papers of the sample library, and neither title contains
    an underscore. *)
Lemma ListItems_underscore_is_wildcard :
  NoDup (map itemID (items Sample.db))
  /\ fst (ListItems Sample.env "_" "" Sample.world)
     = Some ([Sample.item1; Sample.item2], None)
  /\ ~ lists_exactly contains_fold Sample.db "_" ""
                     [Sample.item1; Sample.item2].
Proof.
  split; [cbn; repeat constructor; cbn; intuition discriminate|].
  split; [vm_compute; reflexivity|].
  intros H. destruct (proj1 (H "BBBB2222")) as (i & Hi & Hk & Hp).
  - cbn. auto.
  - cbn in Hi. destruct Hi as [<-|[<-|[<-|[]]]]; vm_compute in Hp, Hk;
      discriminate.
Qed.

(** Claim C7.  When the keys of the items are unique, a listing that
    succeeds returns pairwise distinct stable identifiers, each the key
    of an item of the database (one row per item); the tags and the
    attachments of a returned item may be absent, in which case the field
    is invalid and empty, and items with both fields absent do occur. *)
Theorem ListItems_distinct_identifiers (env : Env) (w : World) (f g : string)
  (listed : list Item) :
  NoDup (map key (items (w_db w))) ->
  fst (ListItems env f g w) = Some (listed, None) ->
  NoDup (map StableID listed)
  /\ (forall item, In item listed ->
        (exists i, In i (items (w_db w)) /\ key i = StableID item)
        /\ (Valid (Tags item) = false -> NString (Tags item) = "")
        /\ (Valid (Attachments item) = false ->
            NString (Attachments item) = ""))
  /\ (exists item,
        NoDup (map key (items Sample.db))
        /\ fst (ListItems Sample.env "" "" Sample.world)
           = Some ([Sample.item1; item], None)
        /\ Valid (Tags item) = false /\ Valid (Attachments item) = false).
Proof.
  intros Hk Hok. apply ListItems_success in Hok. split; [|split].
  - apply (NoDup_map_inv (@Some string)). rewrite map_map.
    rewrite <- (scanned_keys _ _ Hok). now apply result_keys_NoDup.
  - intros item Hin.
    destruct (Forall2_In_r _ _ _ _ Hok Hin) as (r & Hr & Hs).
    split; [|split].
    + assert (Hkey : In (Some (StableID item))
                        (map c_key (run_select (w_db w) (list_conds f g)))).
      { rewrite <- (Scan_key _ _ Hs). now apply in_map. }
      apply In_result_keys in Hkey as (r0 & Hh & Hk0).
      apply group_head_In in Hh as [Hh _].
      apply In_selected_rows in Hh as [Hj _]. apply In_joined in Hj as [Hi _].
      now exists (r_i r0).
    + destruct (Scan_NullString _ _ Hs) as [-> _].
      destruct (c_tags r); cbn; [discriminate | reflexivity].
    + destruct (Scan_NullString _ _ Hs) as [_ ->].
      destruct (c_attachments r); cbn; [discriminate | reflexivity].
  - exists Sample.item2. split; [|split; [|split]].
    + cbn. repeat constructor; cbn; intuition discriminate.
    + vm_compute. reflexivity.
    + reflexivity.
    + reflexivity.
Qed.

Lemma ListItems_distinct_identifiers_witness :
  NoDup (map StableID [Sample.item1; Sample.item2]).
Proof.
  apply (ListItems_distinct_identifiers Sample.env Sample.world "" ""
           [Sample.item1; Sample.item2]).
  - cbn. repeat constructor; cbn; intuition discriminate.
  - vm_compute. reflexivity.
Defined.

End ListingTheorems.

(* ================================================================== *)
(** * Properties: fetching one item *)
(* ================================================================== *)

Section Fetching.
Import Sqlite SqliteFacts.

Lemma In_firstn {A : Type} (k : nat) (l : list A) (a : A) :
  In a (firstn k l) -> In a l.
Proof.
  revert l. induction k as [|k IH]; intros [|x l]; cbn; try tauto.
  intros [H|H]; [now left | right; now apply IH].
Qed.

(** Every row of the statement of [GetByStableID] carries the key asked
    for. *)
Lemma get_query_keys (db : Database) (stableID : string) (r : ResultRow) :
  In r (run_select db [(KeyEq, stableID)]) -> c_key r = Some stableID.
Proof.
  intros Hr.
  assert (Hk : In (c_key r) (map c_key (run_select db [(KeyEq, stableID)])))
    by now apply in_map.
  rewrite run_select_keys in Hk. apply in_map_iff in Hk as (x & Hx & Hin).
  apply In_distinct_Z, group_head_Some in Hin as [r0 Hh].
  rewrite Hh in Hx. rewrite <- Hx. f_equal.
  apply group_head_In in Hh as [Hsel _].
  apply In_selected_rows in Hsel as [_ Hw].
  unfold where_all in Hw. apply andb_true_iff in Hw as [_ Hw].
  cbn [forallb fst snd eval_cond] in Hw. rewrite andb_true_r in Hw.
  now apply String.eqb_eq.
Qed.

(** The item fetched has the stable ID that was asked for. *)
Lemma fetch_StableID (env : Env) (db : Database) (stableID : string)
  (item : Item) :
  fetch env db stableID = inr item -> StableID item = stableID.
Proof.
  unfold fetch. rewrite query_outcome_get.
  assert (Hfirst : forall r rest,
             (forall r', In r' (r :: rest) ->
                         In r' (run_select db [(KeyEq, stableID)])) ->
             Scan r = inr item -> StableID item = stableID).
  { intros r rest Hsub Hs. apply Scan_key in Hs.
    rewrite (get_query_keys db stableID r) in Hs by (apply Hsub; now left).
    congruence. }
  destruct (fault env) as [|e|k e]; cbn [Row_Scan rows_delivered rows_Err].
  - destruct (run_select db [(KeyEq, stableID)]) as [|r rest] eqn:Hrows;
      [discriminate|].
    apply (Hfirst r rest). auto.
  - discriminate.
  - destruct (firstn k (run_select db [(KeyEq, stableID)])) as [|r rest]
      eqn:Hrows; [discriminate|].
    apply (Hfirst r rest). intros r' Hr'. rewrite <- Hrows in Hr'.
    now apply In_firstn in Hr'.
Qed.

End Fetching.

(* ================================================================== *)
(** * Properties: the entry point *)
(* ================================================================== *)

Section EntryPoint.

Variable env : Env.

(** What the three operations leave untouched. *)
Lemma CLI_Open_frame (cfg : Config) (stableID : string) (w : World) :
  let w' := snd (CLI_Open env cfg stableID w) in
  w_db w' = w_db w /\ w_stdout w' = w_stdout w /\ w_log w' = w_log w
  /\ w_sent w' = List.app (w_sent w) [(get_query, [stableID])].
Proof.
  rewrite CLI_Open_run.
  destruct (fetch env (w_db w) stableID) as [e|item]; [now cbn|].
  destruct (is_empty (getStoragePath cfg item)); now cbn.
Qed.

Lemma CLI_Reference_frame (cfg : Config) (stableID : string) (w : World) :
  let w' := snd (CLI_Reference env cfg stableID w) in
  w_db w' = w_db w /\ w_launched w' = w_launched w /\ w_log w' = w_log w
  /\ w_sent w' = List.app (w_sent w) [(get_query, [stableID])].
Proof.
  rewrite CLI_Reference_run.
  destruct (fetch env (w_db w) stableID) as [e|item]; [now cbn|].
  destruct (is_empty (getStoragePath cfg item)); now cbn.
Qed.

Lemma CLI_List_frame (cfg : Config) (f g : string) (verbose : bool)
  (w : World) :
  let w' := snd (CLI_List env cfg f g verbose w) in
  w_db w' = w_db w /\ w_launched w' = w_launched w /\ w_log w' = w_log w
  /\ w_sent w' = List.app (w_sent w) [list_query f g].
Proof.
  destruct (CLI_List_run env cfg f g verbose w)
    as (items & oe & out & _ & -> & _).
  now cbn.
Qed.

Variable fl : Flags.
Variable w : World.

Lemma main_without_database (e : error) :
  open_db_error env = Some e ->
  main env fl w = log_Fatal ("Error opening database: " ++ Error e) w.
Proof. intros H. unfold main. now rewrite H. Qed.

Lemma main_list :
  open_db_error env = None -> flag_Args fl = [] ->
  main env fl w
  = match CLI_List env cfg0 (titleFlag fl) (tagFlag fl) (verboseFlag fl) w with
    | (Some (Some err), w') =>
        log_Fatal ("Error listing items: " ++ Error err) w'
    | (Some None, w') => (Some 0, w')
    | (None, w') => (None, w')
    end.
Proof.
  intros Ho Ha. unfold main. rewrite Ho, Ha. unfold bind.
  destruct (CLI_List env cfg0 _ _ _ w) as [[[err|]|] w']; reflexivity.
Qed.

Lemma main_open (stableID : string) :
  open_db_error env = None -> flag_Args fl = ["open"; stableID] ->
  main env fl w
  = match CLI_Open env cfg0 stableID w with
    | (Some (Some err), w') =>
        log_Fatal ("Error opening item: " ++ Error err) w'
    | (Some None, w') => (Some 0, w')
    | (None, w') => (None, w')
    end.
Proof.
  intros Ho Ha. unfold main. rewrite Ho, Ha.
  cbn [String.eqb Ascii.eqb Bool.eqb List.length Nat.eqb negb nth].
  unfold bind.
  destruct (CLI_Open env cfg0 stableID w) as [[[err|]|] w']; reflexivity.
Qed.

Lemma main_reference (stableID : string) :
  open_db_error env = None -> flag_Args fl = ["reference"; stableID] ->
  main env fl w
  = match CLI_Reference env cfg0 stableID w with
    | (Some (Some err), w') =>
        log_Fatal ("Error generating reference: " ++ Error err) w'
    | (Some None, w') => (Some 0, w')
    | (None, w') => (None, w')
    end.
Proof.
  intros Ho Ha. unfold main. rewrite Ho, Ha.
  cbn [String.eqb Ascii.eqb Bool.eqb List.length Nat.eqb negb nth].
  unfold bind.
  destruct (CLI_Reference env cfg0 stableID w) as [[[err|]|] w']; reflexivity.
Qed.

Lemma main_usage (command : string) (rest : list string) :
  open_db_error env = None -> flag_Args fl = command :: rest ->
  command = "open" \/ command = "reference" ->
  List.length rest <> 1%nat ->
  main env fl w
  = log_Fatal ("Usage: store-zotero " ++ command ++ " <stableid>") w.
Proof.
  intros Ho Ha Hc Hlen. unfold main. rewrite Ho, Ha.
  assert (Hn : (List.length (command :: rest) =? 2)%nat = false).
  { apply Nat.eqb_neq. cbn. lia. }
  rewrite Hn. destruct Hc as [-> | ->]; reflexivity.
Qed.

Lemma main_unknown (command : string) (rest : list string) :
  open_db_error env = None -> flag_Args fl = command :: rest ->
  command <> "open" -> command <> "reference" ->
  main env fl w = log_Fatal ("Unknown command: " ++ command) w.
Proof.
  intros Ho Ha H1 H2. unfold main. rewrite Ho, Ha.
  apply String.eqb_neq in H1, H2. now rewrite H1, H2.
Qed.

Lemma log_Fatal_fatal (msg : string) (w0 w' : World) :
  w_log w' = w_log w0 -> w_stdout w' = w_stdout w0 ->
  fatal msg w0 (log_Fatal msg w').
Proof.
  intros Hl Hs. unfold fatal. cbn. now rewrite Hl, Hs.
Qed.

End EntryPoint.

(* ================================================================== *)
(** * Properties: errors, dispatch, reads only, the open command *)
(* ================================================================== *)

Section Failures.
Import Sqlite SqliteFacts.

Variable env : Env.

(** The scan of rows that have a key: the items when every row has a
    title, the error of the first row without one otherwise. *)
Lemma scan_all_outcome (rows : list ResultRow) (acc : list Item) :
  (forall r, In r rows -> c_key r <> None) ->
  if forallb has_title rows
  then exists scanned,
         scan_all rows acc = inr (List.app acc scanned)
         /\ Forall2 (fun r item => Scan r = inr item) rows scanned
  else scan_all rows acc = inl (scan_null_error "1" "title").
Proof.
  revert acc. induction rows as [|r rows IH]; intros acc Hkey.
  - cbn. exists []. split; [now rewrite List.app_nil_r | constructor].
  - cbn [forallb scan_all]. unfold has_title at 1, Scan.
    destruct (c_key r) as [k|] eqn:Ek;
      [|now destruct (Hkey r (or_introl eq_refl))].
    destruct (c_title r) as [t|] eqn:Et; cbn [andb]; [|reflexivity].
    specialize (IH (slice_append acc (mkItem k t (scan_NullString (c_tags r))
                                             (scan_NullString (c_attachments r))))
                   (fun r' Hr' => Hkey r' (or_intror Hr'))).
    destruct (forallb has_title rows); [|exact IH].
    destruct IH as (scanned & -> & Hall).
    eexists (_ :: scanned). unfold slice_append.
    rewrite <- List.app_assoc. split; [reflexivity|].
    constructor; [|exact Hall]. unfold Scan. now rewrite Ek, Et.
Qed.

Lemma delivered_rows (db : Database) (conds : list (Cond * string))
  (r : ResultRow) :
  In r (delivered env (run_select db conds)) -> In r (run_select db conds).
Proof.
  unfold delivered. destruct (fault env) as [| |k e]; try tauto.
  apply In_firstn.
Qed.

(** The outcome of [ListItems] for filters within the limit, by the
    fault of the environment and the rows delivered. *)
Lemma ListItems_outcome (f g : string) (w : World) :
  within_like_limit f -> within_like_limit g ->
  fst (ListItems env f g w)
  = Some
      match fault env with
      | QueryFault e => ([], Some (Errorf_w "executing query" e))
      | flt =>
          match scan_all (delivered env (run_select (w_db w) (list_conds f g)))
                         [] with
          | inl e => ([], Some (Errorf_w "scanning row" e))
          | inr items =>
              match flt with
              | RowsFault _ e => ([], Some (Errorf_w "iterating rows" e))
              | _ => (items, None)
              end
          end
      end.
Proof.
  intros Hf Hg. rewrite ListItems_run. cbn [fst].
  rewrite query_outcome_list, (within_limit_conds f g Hf Hg).
  unfold delivered. destruct (fault env) as [|e|k e]; reflexivity.
Qed.

(** The outcome of a fetch, by the fault of the environment and the rows
    delivered. *)
Lemma fetch_outcome (db : Database) (stableID : string) :
  fetch env db stableID
  = match fault env with
    | QueryFault e => inl e
    | flt =>
        match delivered env (run_select db [(KeyEq, stableID)]) with
        | [] => inl match flt with
                    | RowsFault _ e => e
                    | _ => ErrNoRows
                    end
        | r :: _ =>
            match c_title r with
            | None => inl (scan_null_error "1" "title")
            | Some t =>
                inr (mkItem stableID t (scan_NullString (c_tags r))
                            (scan_NullString (c_attachments r)))
            end
        end
    end.
Proof.
  unfold fetch. rewrite query_outcome_get.
  assert (Hscan : forall r,
             In r (delivered env (run_select db [(KeyEq, stableID)])) ->
             Scan r
             = match c_title r with
               | None => inl (scan_null_error "1" "title")
               | Some t =>
                   inr (mkItem stableID t (scan_NullString (c_tags r))
                               (scan_NullString (c_attachments r)))
               end).
  { intros r Hr. apply delivered_rows in Hr. unfold Scan.
    now rewrite (get_query_keys db stableID r Hr). }
  unfold delivered in *.
  destruct (fault env) as [|e|k e]; cbn [Row_Scan rows_delivered rows_Err];
    [|reflexivity|].
  - destruct (run_select db [(KeyEq, stableID)]) as [|r rest];
      [reflexivity|]. apply Hscan. now left.
  - destruct (firstn k (run_select db [(KeyEq, stableID)])) as [|r rest];
      [reflexivity|]. apply Hscan. now left.
Qed.

End Failures.

(** Claim C4.  Every failure yields an error that carries the message of
    its cause behind a context, and nothing beside it:
    - fetching fails when the database refuses the statement, when the
      cursor stops or ends before a first row ([sql.ErrNoRows]), and when
      the first row has no title; [GetByStableID] then returns a nil item
      and the error with the context [fetching item];
    - for filters within the limit on patterns, [ListItems] fails when
      the database refuses the statement ([executing query]), when a row
      delivered has no title ([scanning row]) and when the cursor stops
      ([iterating rows]), each time with an empty list, and succeeds
      otherwise;
    - [List], [Open] and [Reference] put their own context before the
      error of the repository; [Open] and [Reference] fail for an item
      without attachment path, [Open] when the OS command fails; a
      failing operation prints nothing;
    - at the entry point each of these errors, and that of opening the
      database, ends the process with status 1 and one logged message,
      the chain of contexts and the message of the cause. *)
Theorem failures_are_wrapped_and_fatal (env : Env) (w : World) :
  (* fetching *)
  (forall stableID,
      let rows := delivered env (Sqlite.run_select (w_db w)
                                   [(Sqlite.KeyEq, stableID)]) in
      (forall e, fault env = QueryFault e ->
                 fetch env (w_db w) stableID = inl e)
      /\ ((forall e, fault env <> QueryFault e) ->
          (rows = [] ->
           fetch env (w_db w) stableID
           = inl match fault env with
                 | RowsFault _ e => e
                 | _ => ErrNoRows
                 end)
          /\ (forall r rest, rows = r :: rest ->
                (Sqlite.c_title r = None ->
                 fetch env (w_db w) stableID
                 = inl (scan_null_error "1" "title"))
                /\ (forall t, Sqlite.c_title r = Some t ->
                      exists item,
                        fetch env (w_db w) stableID = inr item
                        /\ StableID item = stableID /\ Title item = t)))
      /\ (forall e, fetch env (w_db w) stableID = inl e ->
            fst (GetByStableID env stableID w)
            = Some (None, Some (wrapError ("fetching item: " ++ Error e) e)))
      /\ (forall item, fetch env (w_db w) stableID = inr item ->
            fst (GetByStableID env stableID w) = Some (Some item, None)))
  (* listing *)
  /\ (forall f g,
        let rows := delivered env (Sqlite.run_select (w_db w)
                                     (list_conds f g)) in
        (forall e, fault env = QueryFault e ->
           fst (ListItems env f g w)
           = Some ([], Some (wrapError ("executing query: " ++ Error e) e)))
        /\ ((forall e, fault env <> QueryFault e) ->
            within_like_limit f -> within_like_limit g ->
            (forallb has_title rows = false ->
             fst (ListItems env f g w)
             = Some ([], Some (wrapError
                                 ("scanning row: "
                                  ++ Error (scan_null_error "1" "title"))
                                 (scan_null_error "1" "title"))))
            /\ (forallb has_title rows = true ->
                (forall k e, fault env = RowsFault k e ->
                   fst (ListItems env f g w)
                   = Some ([], Some (wrapError ("iterating rows: " ++ Error e)
                                               e)))
                /\ (fault env = NoFault ->
                    exists items,
                      fst (ListItems env f g w) = Some (items, None)
                      /\ Forall2 (fun r item => Scan r = inr item)
                                 rows items))))
  (* List *)
  /\ (forall cfg f g verbose,
        (forall items err,
            fst (ListItems env f g w) = Some (items, Some err) ->
            fst (CLI_List env cfg f g verbose w)
            = Some (Some (wrapError ("listing items: " ++ Error err) err))
            /\ w_stdout (snd (CLI_List env cfg f g verbose w)) = w_stdout w)
        /\ (forall items,
              fst (ListItems env f g w) = Some (items, None) ->
              fst (CLI_List env cfg f g verbose w) = Some None))
  (* Open *)
  /\ (forall cfg stableID,
        (forall e, fetch env (w_db w) stableID = inl e ->
           fst (CLI_Open env cfg stableID w)
           = Some (Some (wrapError
                           ("getting item: fetching item: " ++ Error e)
                           (wrapError ("fetching item: " ++ Error e) e)))
           /\ w_launched (snd (CLI_Open env cfg stableID w)) = w_launched w)
        /\ (forall item, fetch env (w_db w) stableID = inr item ->
              (getStoragePath cfg item = "" ->
               fst (CLI_Open env cfg stableID w)
               = Some (Some (errorString
                               ("no attachment found for item: "
                                ++ stableID)))
               /\ w_launched (snd (CLI_Open env cfg stableID w))
                  = w_launched w)
              /\ (getStoragePath cfg item <> "" ->
                  (forall e,
                      run_command env ["open"; getStoragePath cfg item]
                      = Some e ->
                      fst (CLI_Open env cfg stableID w)
                      = Some (Some (wrapError ("opening file: " ++ Error e)
                                              e)))
                  /\ (run_command env ["open"; getStoragePath cfg item]
                      = None ->
                      fst (CLI_Open env cfg stableID w) = Some None))))
  (* Reference *)
  /\ (forall cfg stableID,
        (forall e, fetch env (w_db w) stableID = inl e ->
           fst (CLI_Reference env cfg stableID w)
           = Some (Some (wrapError
                           ("getting item: fetching item: " ++ Error e)
                           (wrapError ("fetching item: " ++ Error e) e)))
           /\ w_stdout (snd (CLI_Reference env cfg stableID w)) = w_stdout w)
        /\ (forall item, fetch env (w_db w) stableID = inr item ->
              (getStoragePath cfg item = "" ->
               fst (CLI_Reference env cfg stableID w)
               = Some (Some (errorString
                               ("no attachment found for item: "
                                ++ stableID)))
               /\ w_stdout (snd (CLI_Reference env cfg stableID w))
                  = w_stdout w)
              /\ (getStoragePath cfg item <> "" ->
                  fst (CLI_Reference env cfg stableID w) = Some None)))
  (* the entry point *)
  /\ (forall fl,
        (forall e, open_db_error env = Some e ->
                   fatal ("Error opening database: " ++ Error e) w
                         (main env fl w))
        /\ (open_db_error env = None ->
            (forall items err,
                flag_Args fl = [] ->
                fst (ListItems env (titleFlag fl) (tagFlag fl) w)
                = Some (items, Some err) ->
                fatal ("Error listing items: listing items: " ++ Error err) w
                      (main env fl w))
            /\ (forall stableID,
                  flag_Args fl = ["open"; stableID] ->
                  (forall e, fetch env (w_db w) stableID = inl e ->
                     fatal ("Error opening item: getting item: fetching item: "
                            ++ Error e) w
                           (main env fl w))
                  /\ (forall item,
                        fetch env (w_db w) stableID = inr item ->
                        (getStoragePath cfg0 item = "" ->
                         fatal ("Error opening item: no attachment found for item: "
                                ++ stableID) w (main env fl w))
                        /\ (forall e,
                              getStoragePath cfg0 item <> "" ->
                              run_command env
                                ["open"; getStoragePath cfg0 item] = Some e ->
                              fatal ("Error opening item: opening file: "
                                     ++ Error e) w (main env fl w))))
            /\ (forall stableID,
                  flag_Args fl = ["reference"; stableID] ->
                  (forall e, fetch env (w_db w) stableID = inl e ->
                     fatal ("Error generating reference: getting item: fetching item: "
                            ++ Error e) w
                           (main env fl w))
                  /\ (forall item,
                        fetch env (w_db w) stableID = inr item ->
                        getStoragePath cfg0 item = "" ->
                        fatal ("Error generating reference: no attachment found for item: "
                               ++ stableID) w (main env fl w))))).
Proof.
  split; [|split; [|split; [|split; [|split]]]].
  - (* fetching *)
    intros stableID rows. split; [|split; [|split]].
    + intros e He. rewrite fetch_outcome. now rewrite He.
    + intros Hnq. rewrite fetch_outcome. fold rows.
      destruct (fault env) as [|e|k e]; [| now destruct (Hnq e) |].
      * split; [now intros ->|]. intros r rest ->. split.
        -- now intros ->.
        -- intros t ->. eexists. split; [reflexivity|]. now split.
      * split; [now intros ->|]. intros r rest ->. split.
        -- now intros ->.
        -- intros t ->. eexists. split; [reflexivity|]. now split.
    + intros e He. rewrite GetByStableID_run, He. reflexivity.
    + intros item He. rewrite GetByStableID_run, He. reflexivity.
  - (* listing *)
    intros f g rows. split.
    + intros e He. rewrite ListItems_run. cbn [fst].
      rewrite query_outcome_list, He. reflexivity.
    + intros Hnq Hf Hg. rewrite (ListItems_outcome env f g w Hf Hg).
      fold rows.
      pose proof (scan_all_outcome rows []) as Hscan.
      assert (Hkey : forall r, In r rows -> Sqlite.c_key r <> None).
      { intros r Hr. apply delivered_rows in Hr.
        now apply SqliteFacts.run_select_has_key in Hr. }
      specialize (Hscan Hkey).
      split.
      * intros Hall. rewrite Hall in Hscan. rewrite Hscan.
        destruct (fault env) as [|e|k e]; [| now destruct (Hnq e) |];
          reflexivity.
      * intros Hall. rewrite Hall in Hscan.
        destruct Hscan as (scanned & -> & Hforall). split.
        -- intros k e He. now rewrite He.
        -- intros He. rewrite He. exists scanned. now split.
  - (* List *)
    intros cfg f g verbose. split.
    + intros items err Hl.
      rewrite (CLI_List_of env cfg f g verbose w items (Some err) Hl).
      cbn [fst snd w_stdout]. now rewrite List.app_nil_r.
    + intros items Hl.
      now rewrite (CLI_List_of env cfg f g verbose w items None Hl).
  - (* Open *)
    intros cfg stableID. split.
    + intros e He. rewrite CLI_Open_run, He. now split.
    + intros item He. rewrite CLI_Open_run, He. split.
      * intros Hp. apply is_empty_true in Hp. rewrite Hp. now split.
      * intros Hp. apply is_empty_false in Hp. rewrite Hp. split.
        -- intros e Hr. now rewrite Hr.
        -- intros Hr. now rewrite Hr.
  - (* Reference *)
    intros cfg stableID. split.
    + intros e He. rewrite CLI_Reference_run, He. now split.
    + intros item He. rewrite CLI_Reference_run, He. split.
      * intros Hp. apply is_empty_true in Hp. rewrite Hp. now split.
      * intros Hp. apply is_empty_false in Hp. now rewrite Hp.
  - (* the entry point *)
    intros fl. split.
    + intros e He. rewrite (main_without_database env fl w e He).
      now apply log_Fatal_fatal.
    + intros Ho. split; [|split].
      * intros items err Ha Hl. rewrite main_list by assumption.
        rewrite (CLI_List_of env cfg0 _ _ (verboseFlag fl) w items
                   (Some err) Hl).
        apply log_Fatal_fatal; cbn; [reflexivity | apply List.app_nil_r].
      * intros stableID Ha. rewrite (main_open env fl w stableID Ho Ha).
        rewrite CLI_Open_run. split.
        -- intros e He. rewrite He. now apply log_Fatal_fatal.
        -- intros item He. rewrite He. split.
           ++ intros Hp. apply is_empty_true in Hp. rewrite Hp.
              now apply log_Fatal_fatal.
           ++ intros e Hp Hr. apply is_empty_false in Hp. rewrite Hp, Hr.
              now apply log_Fatal_fatal.
      * intros stableID Ha.
        rewrite (main_reference env fl w stableID Ho Ha).
        rewrite CLI_Reference_run. split.
        -- intros e He. rewrite He. now apply log_Fatal_fatal.
        -- intros item He Hp. rewrite He.
           apply is_empty_true in Hp. rewrite Hp.
           now apply log_Fatal_fatal.
Qed.

(** In the sample library no item has the key [ZZZZ9999]: opening it
    ends the process with status 1 and the message of [sql.ErrNoRows]
    behind three contexts. *)
Lemma failures_are_wrapped_and_fatal_witness :
  fatal ("Error opening item: getting item: fetching item: "
         ++ "sql: no rows in result set")
        Sample.world
        (main Sample.env (mkFlags "" "" false ["open"; "ZZZZ9999"])
              Sample.world).
Proof.
  destruct (failures_are_wrapped_and_fatal Sample.env Sample.world)
    as (_ & _ & _ & _ & _ & H).
  destruct (H (mkFlags "" "" false ["open"; "ZZZZ9999"])) as (_ & Hm).
  destruct (Hm eq_refl) as (_ & Ho & _).
  destruct (Ho "ZZZZ9999" eq_refl) as (He & _).
  apply (He ErrNoRows). vm_compute. reflexivity.
Defined.

Section Dispatch.

Variable env : Env.
Variable fl : Flags.
Variable w : World.
Hypothesis database_opens : open_db_error env = None.

(** The four ways a run goes, by the positional arguments. *)
Lemma main_cases :
  (flag_Args fl = []
   /\ exists r w',
       CLI_List env cfg0 (titleFlag fl) (tagFlag fl) (verboseFlag fl) w
       = (Some r, w')
       /\ main env fl w
          = match r with
            | Some err => log_Fatal ("Error listing items: " ++ Error err) w'
            | None => (Some 0, w')
            end)
  \/ (exists stableID,
         flag_Args fl = ["open"; stableID]
         /\ exists r w',
             CLI_Open env cfg0 stableID w = (Some r, w')
             /\ main env fl w
                = match r with
                  | Some err =>
                      log_Fatal ("Error opening item: " ++ Error err) w'
                  | None => (Some 0, w')
                  end)
  \/ (exists stableID,
         flag_Args fl = ["reference"; stableID]
         /\ exists r w',
             CLI_Reference env cfg0 stableID w = (Some r, w')
             /\ main env fl w
                = match r with
                  | Some err =>
                      log_Fatal ("Error generating reference: " ++ Error err) w'
                  | None => (Some 0, w')
                  end)
  \/ (flag_Args fl <> []
      /\ (forall stableID, flag_Args fl <> ["open"; stableID])
      /\ (forall stableID, flag_Args fl <> ["reference"; stableID])
      /\ exists msg, main env fl w = log_Fatal msg w).
Proof.
  destruct (flag_Args fl) as [|command rest] eqn:Ha.
  { left. split; [reflexivity|].
    destruct (CLI_List_total env cfg0 (titleFlag fl) (tagFlag fl)
                (verboseFlag fl) w) as (r & Hr).
    rewrite main_list by assumption.
    destruct (CLI_List env cfg0 _ _ _ w) as [o w']. cbn [fst] in Hr. subst o.
    exists r, w'. split; [reflexivity|]. now destruct r. }
  right.
  destruct (string_dec command "open") as [->|Hno].
  { destruct rest as [|stableID [|x rest]].
    - right. right. repeat split; try discriminate.
      eexists. apply (main_usage env fl w "open" []); auto.
    - left. exists stableID. split; [reflexivity|].
      destruct (CLI_Open_total env cfg0 stableID w) as (r & Hr).
      rewrite (main_open env fl w stableID) by assumption.
      destruct (CLI_Open env cfg0 stableID w) as [o w']. cbn [fst] in Hr.
      subst o. exists r, w'. split; [reflexivity|]. now destruct r.
    - right. right. repeat split; try discriminate.
      eexists. apply (main_usage env fl w "open" (stableID :: x :: rest));
        auto. cbn. lia. }
  destruct (string_dec command "reference") as [->|Hnr].
  { destruct rest as [|stableID [|x rest]].
    - right. right. repeat split; try discriminate.
      eexists. apply (main_usage env fl w "reference" []); auto.
    - right. left. exists stableID. split; [reflexivity|].
      destruct (CLI_Reference_total env cfg0 stableID w) as (r & Hr).
      rewrite (main_reference env fl w stableID) by assumption.
      destruct (CLI_Reference env cfg0 stableID w) as [o w']. cbn [fst] in Hr.
      subst o. exists r, w'. split; [reflexivity|]. now destruct r.
    - right. right. repeat split; try discriminate.
      eexists.
      apply (main_usage env fl w "reference" (stableID :: x :: rest)); auto.
      cbn. lia. }
  right. right. repeat split; try congruence.
  eexists. apply (main_unknown env fl w command rest); assumption.
Qed.

End Dispatch.

(** Claim C5.  What a run does, by its positional arguments.
    - Without arguments it lists: it sends the statement of the listing
      with the two filter flags as parameters, and when [ListItems]
      returns items it prints each of them as the verbosity flag says
      and ends with status 0.
    - [open <id>] and [reference <id>] send the statement that fetches
      the item with that key; the item fetched has the identifier asked
      for.  [open] starts the OS command [open] on the attachment path
      of that item and ends with status 0 when the command succeeds;
      [reference] prints the link of that item and ends with status 0.
    - Every error (the database cannot be opened, the listing or the
      fetch fails, the item has no attachment path, the command fails),
      a wrong number of arguments and an unknown subcommand end the run
      with status 1 and one logged message, and nothing printed.
    - Only [open] with a resolved path starts a command. *)
Theorem main_dispatch (env : Env) (fl : Flags) (w : World) :
  let r := main env fl w in
  (forall e, open_db_error env = Some e ->
     fatal ("Error opening database: " ++ Error e) w r
     /\ w_sent (snd r) = w_sent w /\ w_launched (snd r) = w_launched w)
  /\
  (open_db_error env = None ->
   (* the listing *)
   (flag_Args fl = [] ->
    (exists text,
        w_sent (snd r)
        = List.app (w_sent w)
                   [(text, map snd (list_conds (titleFlag fl) (tagFlag fl)))]
        /\ prepare text
           = Some (map fst (list_conds (titleFlag fl) (tagFlag fl))))
    /\ w_launched (snd r) = w_launched w
    /\ (forall listed,
          fst (ListItems env (titleFlag fl) (tagFlag fl) w)
          = Some (listed, None) ->
          fst r = Some 0
          /\ w_log (snd r) = w_log w
          /\ w_stdout (snd r)
             = List.app (w_stdout w)
                        (flat_map (printed cfg0 (verboseFlag fl)) listed)
          /\ (verboseFlag fl = false ->
              w_stdout (snd r)
              = List.app (w_stdout w)
                         (map (fun item => StableID item ++ NL) listed)))
    /\ (forall listed err,
          fst (ListItems env (titleFlag fl) (tagFlag fl) w)
          = Some (listed, Some err) ->
          fatal ("Error listing items: listing items: " ++ Error err) w r))
   (* open *)
   /\ (forall stableID, flag_Args fl = ["open"; stableID] ->
         w_sent (snd r) = List.app (w_sent w) [(get_query, [stableID])]
         /\ w_stdout (snd r) = w_stdout w
         /\ (forall e, fetch env (w_db w) stableID = inl e ->
               fatal ("Error opening item: getting item: fetching item: "
                      ++ Error e) w r
               /\ w_launched (snd r) = w_launched w)
         /\ (forall item, fetch env (w_db w) stableID = inr item ->
               StableID item = stableID
               /\ (getStoragePath cfg0 item = "" ->
                   fatal ("Error opening item: no attachment found for item: "
                          ++ stableID) w r
                   /\ w_launched (snd r) = w_launched w)
               /\ (getStoragePath cfg0 item <> "" ->
                   w_launched (snd r)
                   = List.app (w_launched w)
                              [["open"; getStoragePath cfg0 item]]
                   /\ (run_command env ["open"; getStoragePath cfg0 item]
                       = None ->
                       fst r = Some 0 /\ w_log (snd r) = w_log w)
                   /\ (forall e,
                         run_command env ["open"; getStoragePath cfg0 item]
                         = Some e ->
                         fatal ("Error opening item: opening file: "
                                ++ Error e) w r))))
   (* reference *)
   /\ (forall stableID, flag_Args fl = ["reference"; stableID] ->
         w_sent (snd r) = List.app (w_sent w) [(get_query, [stableID])]
         /\ w_launched (snd r) = w_launched w
         /\ (forall e, fetch env (w_db w) stableID = inl e ->
               fatal ("Error generating reference: getting item: "
                      ++ "fetching item: " ++ Error e) w r)
         /\ (forall item, fetch env (w_db w) stableID = inr item ->
               StableID item = stableID
               /\ (getStoragePath cfg0 item = "" ->
                   fatal ("Error generating reference: "
                          ++ "no attachment found for item: " ++ stableID)
                         w r)
               /\ (getStoragePath cfg0 item <> "" ->
                   fst r = Some 0
                   /\ w_log (snd r) = w_log w
                   /\ w_stdout (snd r)
                      = List.app (w_stdout w)
                          [ "[zotero: " ++ Title item ++ ", stableid: "
                            ++ stableID ++ ", tags: {"
                            ++ (if Valid (Tags item) then NString (Tags item)
                                else "")
                            ++ "}, version: 1.0]("
                            ++ getStoragePath cfg0 item ++ ")" ++ NL ])))
   (* a wrong number of arguments, an unknown subcommand *)
   /\ (forall command rest,
         flag_Args fl = command :: rest ->
         command = "open" \/ command = "reference" ->
         List.length rest <> 1%nat ->
         fatal ("Usage: store-zotero " ++ command ++ " <stableid>") w r
         /\ w_sent (snd r) = w_sent w /\ w_launched (snd r) = w_launched w)
   /\ (forall command rest,
         flag_Args fl = command :: rest ->
         command <> "open" -> command <> "reference" ->
         fatal ("Unknown command: " ++ command) w r
         /\ w_sent (snd r) = w_sent w /\ w_launched (snd r) = w_launched w)).
Proof.
  intros r. subst r. split.
  { intros e He. rewrite (main_without_database env fl w e He).
    split; [now apply log_Fatal_fatal | now split]. }
  intros Ho. split; [|split; [|split; [|split]]].
  - (* the listing *)
    intros Ha. rewrite main_list by assumption.
    destruct (CLI_List_run env cfg0 (titleFlag fl) (tagFlag fl)
                (verboseFlag fl) w) as (items & oe & out & Hl & Hrun & _).
    rewrite (CLI_List_of env cfg0 _ _ (verboseFlag fl) w items oe Hl).
    destruct (list_query_sent (titleFlag fl) (tagFlag fl))
      as (text & Hq & Hprep).
    split; [|split; [|split]].
    + exists text. rewrite Hq. split; [|exact Hprep]. now destruct oe.
    + now destruct oe.
    + intros listed Hok. rewrite Hok in Hl. injection Hl as <- <-.
      cbn [fst snd w_log w_stdout].
      split; [reflexivity|]. split; [reflexivity|]. split; [reflexivity|].
      intros Hv. rewrite Hv. reflexivity.
    + intros listed err Hok. rewrite Hok in Hl. injection Hl as <- <-.
      apply log_Fatal_fatal; cbn; [reflexivity | apply List.app_nil_r].
  - (* open *)
    intros stableID Ha. rewrite (main_open env fl w stableID Ho Ha).
    rewrite CLI_Open_run.
    destruct (fetch env (w_db w) stableID) as [e|item] eqn:Hf.
    { split; [reflexivity|]. split; [reflexivity|]. split.
      - intros e' [= <-]. split; [now apply log_Fatal_fatal | reflexivity].
      - intros item [=]. }
    pose proof (fetch_StableID env (w_db w) stableID item Hf) as Hid.
    destruct (is_empty (getStoragePath cfg0 item)) eqn:Hp.
    { apply is_empty_true in Hp.
      split; [reflexivity|]. split; [reflexivity|]. split.
      - intros e [=].
      - intros item' [= <-]. split; [exact Hid|]. split.
        + intros _. split; [now apply log_Fatal_fatal | reflexivity].
        + intros Hne. contradiction. }
    apply is_empty_false in Hp.
    destruct (run_command env ["open"; getStoragePath cfg0 item]) as [e|]
      eqn:Hr.
    + split; [reflexivity|]. split; [reflexivity|]. split.
      * intros e' [=].
      * intros item' [= <-]. split; [exact Hid|]. split.
        -- intros He. contradiction.
        -- intros _. split; [reflexivity|]. split.
           ++ rewrite Hr. discriminate.
           ++ rewrite Hr. intros e' [= <-]. now apply log_Fatal_fatal.
    + split; [reflexivity|]. split; [reflexivity|]. split.
      * intros e' [=].
      * intros item' [= <-]. split; [exact Hid|]. split.
        -- intros He. contradiction.
        -- intros _. split; [reflexivity|]. split.
           ++ intros _. split; reflexivity.
           ++ rewrite Hr. intros e' [=].
  - (* reference *)
    intros stableID Ha. rewrite (main_reference env fl w stableID Ho Ha).
    rewrite CLI_Reference_run.
    destruct (fetch env (w_db w) stableID) as [e|item] eqn:Hf.
    { split; [reflexivity|]. split; [reflexivity|]. split.
      - intros e' [= <-]. now apply log_Fatal_fatal.
      - intros item [=]. }
    pose proof (fetch_StableID env (w_db w) stableID item Hf) as Hid.
    destruct (is_empty (getStoragePath cfg0 item)) eqn:Hp.
    { apply is_empty_true in Hp.
      split; [reflexivity|]. split; [reflexivity|]. split.
      - intros e [=].
      - intros item' [= <-]. split; [exact Hid|]. split.
        + intros _. now apply log_Fatal_fatal.
        + intros Hne. contradiction. }
    apply is_empty_false in Hp.
    split; [reflexivity|]. split; [reflexivity|]. split.
    + intros e' [=].
    + intros item' [= <-]. split; [exact Hid|]. split.
      * intros He. contradiction.
      * intros _. rewrite Hid.
        split; [reflexivity|]. split; [reflexivity|].
        cbn [snd fst w_stdout write_stdout send slice_append].
        do 2 f_equal. unfold fmt_reference. cbn [Version cfg0].
        rewrite !string_app_assoc. reflexivity.
  - (* a wrong number of arguments *)
    intros command rest Ha Hc Hlen.
    rewrite (main_usage env fl w command rest Ho Ha Hc Hlen).
    split; [now apply log_Fatal_fatal | now split].
  - (* an unknown subcommand *)
    intros command rest Ha H1 H2.
    rewrite (main_unknown env fl w command rest Ho Ha H1 H2).
    split; [now apply log_Fatal_fatal | now split].
Qed.

(** Two runs on the sample library: [open AAAA1111] starts the command
    [open] on the file of the first paper and ends with status 0; the
    run without arguments and with the title filter [atten] prints the
    identifier of that paper. *)
Lemma main_dispatch_witness :
  (let r := main Sample.env (mkFlags "" "" false ["open"; "AAAA1111"])
                 Sample.world in
   fst r = Some 0
   /\ w_launched (snd r)
      = [["open"; "/Users/vania/data/zotero/storage/CCCC3333/paper.pdf"]])
  /\ (let r := main Sample.env (mkFlags "atten" "" false []) Sample.world in
      fst r = Some 0 /\ w_stdout (snd r) = ["AAAA1111" ++ NL]).
Proof.
  split.
  - destruct (main_dispatch Sample.env
                (mkFlags "" "" false ["open"; "AAAA1111"]) Sample.world)
      as [_ Hd].
    destruct (Hd eq_refl) as (_ & Hopen & _).
    destruct (Hopen "AAAA1111" eq_refl) as (_ & _ & _ & Hitem).
    destruct (Hitem Sample.item1) as (_ & _ & Hrun);
      [vm_compute; reflexivity|].
    destruct Hrun as (Hl & Hok & _); [vm_compute; discriminate|].
    split; [now apply Hok | exact Hl].
  - destruct (main_dispatch Sample.env (mkFlags "atten" "" false [])
                Sample.world) as [_ Hd].
    destruct (Hd eq_refl) as (Hlist & _).
    destruct (Hlist eq_refl) as (_ & _ & Hok & _).
    destruct (Hok [Sample.item1]) as (Hs & _ & _ & Hout);
      [vm_compute; reflexivity|].
    split; [exact Hs | now apply Hout].
Defined.

Lemma list_query_read_only (f g : string) :
  read_only_select (fst (list_query f g)) = true.
Proof.
  destruct f as [|a f], g as [|b g]; vm_compute; reflexivity.
Qed.

Lemma list_query_texts (f g : string) :
  In (fst (list_query f g))
     [ baseQuery ++ " GROUP BY i.itemID";
       baseQuery ++ " AND idv.value LIKE ? GROUP BY i.itemID";
       baseQuery ++ " AND t.name LIKE ? GROUP BY i.itemID";
       baseQuery ++ " AND idv.value LIKE ? AND t.name LIKE ? GROUP BY i.itemID" ].
Proof.
  destruct f as [|a f], g as [|b g].
  - left. vm_compute; reflexivity.
  - right. right. left. vm_compute; reflexivity.
  - right. left. vm_compute; reflexivity.
  - right. right. right. left. vm_compute; reflexivity.
Qed.

(** A whole run leaves the database as it was and gives it read-only
    statements only. *)
Lemma main_only_reads (env : Env) (fl : Flags) (w : World) :
  w_db (snd (main env fl w)) = w_db w
  /\ exists sent,
      w_sent (snd (main env fl w)) = List.app (w_sent w) sent
      /\ Forall (fun q => read_only_select (fst q) = true) sent.
Proof.
  assert (Hget : read_only_select get_query = true) by (vm_compute; reflexivity).
  destruct (open_db_error env) as [e|] eqn:Ho.
  { rewrite (main_without_database env fl w e Ho). cbn.
    split; [reflexivity|]. exists []. now rewrite List.app_nil_r. }
  destruct (main_cases env fl w Ho)
    as [(_ & r & w' & Hr & ->)
       |[(s & _ & r & w' & Hr & ->)
        |[(s & _ & r & w' & Hr & ->)|(_ & _ & _ & msg & ->)]]].
  - destruct (CLI_List_frame env cfg0 (titleFlag fl) (tagFlag fl)
                (verboseFlag fl) w) as (Hdb & _ & _ & Hsent).
    rewrite Hr in Hdb, Hsent. cbn [snd] in Hdb, Hsent.
    assert (Hq : Forall (fun q => read_only_select (fst q) = true)
                        [list_query (titleFlag fl) (tagFlag fl)])
      by (repeat constructor; apply list_query_read_only).
    destruct r; cbn; (split; [exact Hdb|]); eexists; split; eauto.
  - destruct (CLI_Open_frame env cfg0 s w) as (Hdb & _ & _ & Hsent).
    rewrite Hr in Hdb, Hsent. cbn [snd] in Hdb, Hsent.
    assert (Hq : Forall (fun q => read_only_select (fst q) = true)
                        [(get_query, [s])])
      by (repeat constructor; exact Hget).
    destruct r; cbn; (split; [exact Hdb|]); eexists; split; eauto.
  - destruct (CLI_Reference_frame env cfg0 s w) as (Hdb & _ & _ & Hsent).
    rewrite Hr in Hdb, Hsent. cbn [snd] in Hdb, Hsent.
    assert (Hq : Forall (fun q => read_only_select (fst q) = true)
                        [(get_query, [s])])
      by (repeat constructor; exact Hget).
    destruct r; cbn; (split; [exact Hdb|]); eexists; split; eauto.
  - cbn. split; [reflexivity|]. exists []. now rewrite List.app_nil_r.
Qed.

(** Claim C6.  Both repository operations leave the database as it was.
    Each gives the database one statement, which is a single SELECT: it
    starts with the word SELECT and holds no statement separator and no
    keyword of a writing statement.  The text is [baseQuery] followed by
    one of five fixed endings; the identifier and the filters travel as
    parameters and never become part of it.  So a whole run of the
    program, whatever its arguments, leaves the database as it was. *)
Theorem repository_only_reads (env : Env) (w : World) :
  read_only_select baseQuery = true
  /\ (forall fl,
        w_db (snd (main env fl w)) = w_db w
        /\ exists sent,
            w_sent (snd (main env fl w)) = List.app (w_sent w) sent
            /\ Forall (fun q => read_only_select (fst q) = true) sent)
  /\ (forall stableID,
        w_db (snd (GetByStableID env stableID w)) = w_db w
        /\ w_sent (snd (GetByStableID env stableID w))
           = List.app (w_sent w) [(get_query, [stableID])]
        /\ read_only_select get_query = true)
  /\ (forall f g,
        w_db (snd (ListItems env f g w)) = w_db w
        /\ w_sent (snd (ListItems env f g w))
           = List.app (w_sent w) [list_query f g]
        /\ read_only_select (fst (list_query f g)) = true
        /\ In (fst (list_query f g))
              [ baseQuery ++ " GROUP BY i.itemID";
                baseQuery ++ " AND idv.value LIKE ? GROUP BY i.itemID";
                baseQuery ++ " AND t.name LIKE ? GROUP BY i.itemID";
                baseQuery
                ++ " AND idv.value LIKE ? AND t.name LIKE ? GROUP BY i.itemID" ]).
Proof.
  split; [vm_compute; reflexivity|].
  split; [intros fl; apply main_only_reads|]. split.
  - intros stableID. rewrite GetByStableID_run. cbn [snd].
    split; [reflexivity|]. split; [reflexivity|]. vm_compute; reflexivity.
  - intros f g. rewrite ListItems_run. cbn [snd].
    split; [reflexivity|]. split.
    + cbn. now destruct (list_query f g).
    + split; [apply list_query_read_only | apply list_query_texts].
Qed.

(** Claim C10.  [Open] starts at most one command, the OS command [open]
    with the resolved path, and only when the item was fetched and its
    path is not empty: when the fetch fails or the path is empty, no
    command is started. *)
Theorem Open_launches_after_path (env : Env) (cfg : Config)
  (stableID : string) (w : World) :
  exists cmds,
    w_launched (snd (CLI_Open env cfg stableID w))
    = List.app (w_launched w) cmds
    /\ (List.length cmds <= 1)%nat
    /\ (forall e, fetch env (w_db w) stableID = inl e -> cmds = [])
    /\ (forall item, fetch env (w_db w) stableID = inr item ->
                     getStoragePath cfg item = "" -> cmds = [])
    /\ (forall cmd, In cmd cmds ->
          exists item, fetch env (w_db w) stableID = inr item
                       /\ getStoragePath cfg item <> ""
                       /\ cmd = ["open"; getStoragePath cfg item]).
Proof.
  rewrite CLI_Open_run.
  destruct (fetch env (w_db w) stableID) as [e|item] eqn:Hf.
  { exists []. cbn. rewrite List.app_nil_r.
    repeat split; auto. intros cmd []. }
  destruct (is_empty (getStoragePath cfg item)) eqn:Hp.
  { exists []. cbn. rewrite List.app_nil_r.
    repeat split; auto. intros cmd []. }
  apply is_empty_false in Hp.
  exists [["open"; getStoragePath cfg item]]. cbn [snd launch w_launched].
  split; [reflexivity|]. split; [cbn; lia|]. split; [discriminate|]. split.
  - intros item' [= <-] He. contradiction.
  - intros cmd [<-|[]]. now exists item.
Qed.

(* ================================================================== *)
(** * Further properties: truncation *)
(* ================================================================== *)

Section TruncationEdges.
Import Utf8 Utf8Facts.

(** Property X1.
    [truncateString] panics exactly when the width is below 3 and the
    string is longer than the width: the slice bound [n-3] is negative. *)
Theorem truncateString_panics_iff (s : string) (n : Z) :
  - 2 ^ 63 + 3 <= n < 2 ^ 63 ->
  (truncateString s n = None
   <-> n < 3 /\ n < Z.of_nat (RuneCountInString s)).
Proof.
  intros Hn. split.
  - intros Hnone.
    destruct (Z.le_gt_cases (Z.of_nat (RuneCountInString s)) n) as [Hs|Hl].
    { rewrite truncateString_short in Hnone by exact Hs. discriminate. }
    split; [|exact Hl].
    destruct (Z.lt_ge_cases n 3) as [H3|H3]; [exact H3|].
    destruct (truncateString_long s n) as [Ht _]; [lia | lia | congruence].
  - intros [H3 Hl]. unfold truncateString.
    destruct (Z.leb_spec (Z.of_nat (RuneCountInString s)) n); [lia|].
    rewrite int_wrap_small by lia.
    destruct (Z.leb_spec 0 (n - 3)); [lia | reflexivity].
Qed.

Lemma truncateString_panics_iff_witness :
  truncateString "zotero" 2 = None.
Proof.
  apply (truncateString_panics_iff "zotero" 2); [lia|].
  split; [lia | vm_compute; reflexivity].
Defined.

(** Property X2.
    Truncating twice at the same width is truncating once. *)
Theorem truncateString_idempotent (s t : string) (n : Z) :
  3 <= n < 2 ^ 63 ->
  truncateString s n = Some t -> truncateString t n = Some t.
Proof.
  intros Hn Ht.
  destruct (truncateString_width s n Hn) as (t' & Ht' & Hw & _).
  assert (t' = t) as -> by congruence.
  now apply truncateString_short.
Qed.

Lemma truncateString_idempotent_witness :
  truncateString "z..." 4 = Some "z...".
Proof.
  apply (truncateString_idempotent "zotero" "z..." 4); [lia|].
  vm_compute; reflexivity.
Defined.

End TruncationEdges.

(* ================================================================== *)
(** * Further properties: the round trip between runes and bytes *)
(* ================================================================== *)

Module Utf8RoundTrip.
Import Utf8 Utf8Facts.

Lemma bytes_are_bytes (s : string) : Forall is_byte (bytes s).
Proof.
  induction s as [|a s IH]; [constructor|].
  cbn [bytes]. constructor; [|exact IH].
  unfold is_byte, byte_val. pose proof (N_ascii_bounded a). lia.
Qed.

Lemma land_ones_small (x k : Z) (base : Z) :
  0 <= k -> base mod 2 ^ k = 0 -> base <= x < base + 2 ^ k ->
  Z.land x (Z.ones k) = x - base.
Proof.
  intros Hk Hb Hx. rewrite Z.land_ones by exact Hk.
  assert (H2 : 0 < 2 ^ k) by (apply Z.pow_pos_nonneg; lia).
  replace x with ((x - base) + base) at 1 by lia.
  rewrite Z.add_mod, Hb, Z.add_0_r, Z.mod_mod by lia.
  apply Z.mod_small. lia.
Qed.

Lemma payload6 (b : Z) : 0x80 <= b <= 0xBF -> Z.land b 0x3F = b - 0x80.
Proof.
  intros H. change 0x3F with (Z.ones 6).
  apply land_ones_small; [lia | reflexivity | simpl; lia].
Qed.

(** The value of a two, three and four byte sequence. *)
Lemma value2 (b0 b1 : Z) :
  0xC0 <= b0 <= 0xDF -> 0x80 <= b1 <= 0xBF ->
  Z.lor (Z.shiftl (Z.land b0 0x1F) 6) (Z.land b1 0x3F)
  = (b0 - 0xC0) * 64 + (b1 - 0x80).
Proof.
  intros H0 H1. rewrite payload6 by exact H1.
  change 0x1F with (Z.ones 5).
  rewrite (land_ones_small b0 5 0xC0) by (try reflexivity; simpl; lia).
  rewrite Z.shiftl_mul_pow2 by lia.
  apply lor_high_low; simpl; lia.
Qed.

Lemma value3 (b0 b1 b2 : Z) :
  0xE0 <= b0 <= 0xEF -> 0x80 <= b1 <= 0xBF -> 0x80 <= b2 <= 0xBF ->
  Z.lor (Z.lor (Z.shiftl (Z.land b0 0x0F) 12) (Z.shiftl (Z.land b1 0x3F) 6))
        (Z.land b2 0x3F)
  = (b0 - 0xE0) * 4096 + (b1 - 0x80) * 64 + (b2 - 0x80).
Proof.
  intros H0 H1 H2. rewrite !payload6 by assumption.
  change 0x0F with (Z.ones 4).
  rewrite (land_ones_small b0 4 0xE0) by (try reflexivity; simpl; lia).
  rewrite !Z.shiftl_mul_pow2 by lia.
  rewrite (lor_high_low (b0 - 0xE0) 12) by (simpl; lia).
  replace ((b0 - 0xE0) * 2 ^ 12 + (b1 - 0x80) * 2 ^ 6)
    with (((b0 - 0xE0) * 64 + (b1 - 0x80)) * 2 ^ 6) by (simpl; lia).
  rewrite lor_high_low by (simpl; lia). simpl; lia.
Qed.

Lemma value4 (b0 b1 b2 b3 : Z) :
  0xF0 <= b0 <= 0xF7 -> 0x80 <= b1 <= 0xBF -> 0x80 <= b2 <= 0xBF ->
  0x80 <= b3 <= 0xBF ->
  Z.lor (Z.lor (Z.lor (Z.shiftl (Z.land b0 0x07) 18)
                      (Z.shiftl (Z.land b1 0x3F) 12))
               (Z.shiftl (Z.land b2 0x3F) 6))
        (Z.land b3 0x3F)
  = (b0 - 0xF0) * 262144 + (b1 - 0x80) * 4096 + (b2 - 0x80) * 64 + (b3 - 0x80).
Proof.
  intros H0 H1 H2 H3. rewrite !payload6 by assumption.
  change 0x07 with (Z.ones 3).
  rewrite (land_ones_small b0 3 0xF0) by (try reflexivity; simpl; lia).
  rewrite !Z.shiftl_mul_pow2 by lia.
  rewrite (lor_high_low (b0 - 0xF0) 18) by (simpl; lia).
  replace ((b0 - 0xF0) * 2 ^ 18 + (b1 - 0x80) * 2 ^ 12)
    with (((b0 - 0xF0) * 64 + (b1 - 0x80)) * 2 ^ 12) by (simpl; lia).
  rewrite lor_high_low by (simpl; lia).
  replace (((b0 - 0xF0) * 64 + (b1 - 0x80)) * 2 ^ 12 + (b2 - 0x80) * 2 ^ 6)
    with ((((b0 - 0xF0) * 64 + (b1 - 0x80)) * 64 + (b2 - 0x80)) * 2 ^ 6)
    by (simpl; lia).
  rewrite lor_high_low by (simpl; lia). simpl; lia.
Qed.

(** What [DecodeRune] reads from well-formed sequences. *)
Lemma decode1 (b0 : Z) (rest : list Z) :
  0 <= b0 < 0x80 -> DecodeRune (b0 :: rest) = (b0, 1%nat).
Proof.
  intros H. unfold DecodeRune. split_if; [reflexivity | lia].
Qed.

Lemma decode2 (b0 b1 : Z) (rest : list Z) :
  0xC2 <= b0 <= 0xDF -> 0x80 <= b1 <= 0xBF ->
  DecodeRune (b0 :: b1 :: rest) = ((b0 - 0xC0) * 64 + (b1 - 0x80), 2%nat).
Proof.
  intros H0 H1. rewrite <- value2 by lia.
  unfold DecodeRune, first, between.
  repeat (split_if; try lia; cbn [negb Nat.leb]; try reflexivity).
Qed.

Lemma decode3 (b0 b1 b2 : Z) (rest : list Z) :
  0xE0 <= b0 <= 0xEF -> 0x80 <= b1 <= 0xBF -> 0x80 <= b2 <= 0xBF ->
  (b0 = 0xE0 -> 0xA0 <= b1) -> (b0 = 0xED -> b1 <= 0x9F) ->
  DecodeRune (b0 :: b1 :: b2 :: rest)
  = ((b0 - 0xE0) * 4096 + (b1 - 0x80) * 64 + (b2 - 0x80), 3%nat).
Proof.
  intros H0 H1 H2 Ha Hb. rewrite <- value3 by lia.
  unfold DecodeRune, first, between.
  repeat (split_if; try lia; cbn [negb Nat.leb]; try reflexivity).
Qed.

Lemma decode4 (b0 b1 b2 b3 : Z) (rest : list Z) :
  0xF0 <= b0 <= 0xF4 -> 0x80 <= b1 <= 0xBF -> 0x80 <= b2 <= 0xBF ->
  0x80 <= b3 <= 0xBF ->
  (b0 = 0xF0 -> 0x90 <= b1) -> (b0 = 0xF4 -> b1 <= 0x8F) ->
  DecodeRune (b0 :: b1 :: b2 :: b3 :: rest)
  = ((b0 - 0xF0) * 262144 + (b1 - 0x80) * 4096 + (b2 - 0x80) * 64
     + (b3 - 0x80), 4%nat).
Proof.
  intros H0 H1 H2 H3 Ha Hb. rewrite <- value4 by lia.
  unfold DecodeRune, first, between.
  repeat (split_if; try lia; cbn [negb Nat.leb]; try reflexivity).
Qed.

(** A scalar value written by [EncodeRune] is read back by
    [DecodeRune]. *)
Lemma decode_encode (r : Z) (rest : list Z) :
  valid_rune r ->
  DecodeRune (List.app (EncodeRune r) rest)
  = (r, List.length (EncodeRune r)).
Proof.
  unfold valid_rune, EncodeRune, MaxRune, surrogateMin, surrogateMax, between.
  intros [Hr Hs].
  split_if.
  { cbn [List.app List.length]. apply decode1. lia. }
  split_if.
  { encode_arith. rewrite lead2 by (Z.div_mod_to_equations; lia).
    cbn [List.app List.length].
    rewrite decode2 by (Z.div_mod_to_equations; lia).
    f_equal. Z.div_mod_to_equations; lia. }
  split_if; [exfalso; lia|].
  split_if.
  { encode_arith. rewrite lead3 by (Z.div_mod_to_equations; lia).
    cbn [List.app List.length].
    rewrite decode3 by (Z.div_mod_to_equations; lia).
    f_equal. Z.div_mod_to_equations; lia. }
  encode_arith. rewrite lead4 by (Z.div_mod_to_equations; lia).
  cbn [List.app List.length].
  rewrite decode4 by (Z.div_mod_to_equations; lia).
  f_equal. Z.div_mod_to_equations; lia.
Qed.

Lemma RuneError_valid : valid_rune RuneError.
Proof.
  unfold valid_rune, RuneError, MaxRune, surrogateMin, surrogateMax. lia.
Qed.

(** Every rune [DecodeRune] reads from bytes is a scalar value: over-long
    forms, surrogates and values beyond the last code point are read as
    [RuneError]. *)
Lemma decode_valid (bs : list Z) :
  Forall is_byte bs -> valid_rune (fst (DecodeRune bs)).
Proof.
  intros H. pose proof RuneError_valid as HE.
  destruct bs as [|b0 r]; [exact HE|].
  inversion H as [|? ? Hb0 _]; subst. unfold is_byte in Hb0.
  unfold DecodeRune, first, between.
  split_if.
  { cbn [fst]. unfold valid_rune, MaxRune, surrogateMin, surrogateMax. lia. }
  repeat first
    [ exact HE
    | progress cbn [fst negb Nat.leb]
    | match goal with
      | |- context [match ?l with [] => _ | _ :: _ => _ end] =>
          is_var l; destruct l
      end
    | split_if ];
  first
    [ rewrite value2 by lia
    | rewrite value3 by lia
    | rewrite value4 by lia ];
  unfold valid_rune, MaxRune, surrogateMin, surrogateMax; lia.
Qed.

Lemma runes_from_valid (bs : list Z) (skip : nat) :
  Forall is_byte bs -> Forall valid_rune (runes_from skip bs).
Proof.
  intros H. revert skip. induction H as [|b bs Hb Hbs IH]; intros skip.
  - constructor.
  - cbn [runes_from]. destruct skip as [|k]; [|apply IH].
    pose proof (decode_valid (b :: bs) (Forall_cons _ Hb Hbs)) as Hv.
    destruct (DecodeRune (b :: bs)) as [c w]. constructor; [exact Hv|apply IH].
Qed.

(** The runes of a string are scalar values. *)
Lemma runes_valid (s : string) : Forall valid_rune (runes s).
Proof. apply runes_from_valid, bytes_are_bytes. Qed.

Lemma runes_from_skip (l rest : list Z) :
  runes_from (List.length l) (List.app l rest) = runes_from 0 rest.
Proof.
  induction l as [|b l IH]; [reflexivity | exact IH].
Qed.

Lemma runes_encode (r : Z) (rest : list Z) :
  valid_rune r ->
  runes_from 0 (List.app (EncodeRune r) rest) = r :: runes_from 0 rest.
Proof.
  intros Hr. pose proof (decode_encode r rest Hr) as Hd.
  destruct (encode_width r rest) as (_ & _ & Hlen).
  destruct (EncodeRune r) as [|b e]; [simpl in Hlen; lia|].
  cbn [List.app runes_from] in *. rewrite Hd.
  cbn [List.length Nat.pred]. now rewrite runes_from_skip.
Qed.

(** [[]rune(string(rs) + tail)] is [rs] followed by the runes of the
    tail, for scalar values [rs]. *)
Lemma runes_string_of_runes (rs : list Z) (tail : string) :
  Forall valid_rune rs ->
  runes (string_of_runes rs ++ tail) = List.app rs (runes tail).
Proof.
  intros H. unfold runes, string_of_runes.
  rewrite bytes_app, bytes_of_bytes by apply encode_all_bytes.
  induction H as [|r rs Hr _ IH]; [reflexivity|].
  cbn [map List.concat]. rewrite <- List.app_assoc.
  rewrite runes_encode by exact Hr. now rewrite IH.
Qed.

(** Every text written from such runes is a plain text: the plain texts
    are the well-formed UTF-8 texts without NUL, U+FFFE and U+FFFF. *)
Lemma plain_text_written (rs : list Z) :
  forallb Listing.like_rune rs = true ->
  Listing.plain_text (string_of_runes rs) = true.
Proof.
  intros H. unfold Listing.plain_text.
  assert (Hv : Forall valid_rune rs).
  { apply Forall_forall. intros r Hr. rewrite forallb_forall in H.
    apply H, LikeUtf8.like_rune_spec in Hr.
    unfold valid_rune, MaxRune, surrogateMin, surrogateMax. lia. }
  pose proof (runes_string_of_runes rs "" Hv) as Hr.
  rewrite string_app_nil_r in Hr. cbn [runes bytes runes_from] in Hr.
  rewrite List.app_nil_r in Hr. rewrite Hr, H. apply String.eqb_refl.
Qed.

End Utf8RoundTrip.

Section TruncationRunes.
Import Utf8 Utf8Facts Utf8RoundTrip.

Lemma Forall_firstn {A : Type} (P : A -> Prop) (k : nat) (l : list A) :
  Forall P l -> Forall P (firstn k l).
Proof.
  intros H. revert k. induction H as [|a l Ha _ IH]; intros [|k]; cbn;
    constructor; auto.
Qed.

(** Property X3.
    Read back as runes, a truncated string is the first [n-3] runes of
    the string followed by three dots: writing the runes as bytes and
    reading them again loses nothing. *)
Theorem truncateString_keeps_prefix (s : string) (n : Z) :
  3 <= n < 2 ^ 63 ->
  n < Z.of_nat (RuneCountInString s) ->
  exists t,
    truncateString s n = Some t
    /\ runes t = List.app (firstn (Z.to_nat (n - 3)) (runes s)) [46; 46; 46].
Proof.
  intros Hn Hl. destruct (truncateString_long s n Hn Hl) as [Ht _].
  eexists. split; [exact Ht|].
  rewrite runes_string_of_runes by apply Forall_firstn, runes_valid.
  reflexivity.
Qed.

Lemma truncateString_keeps_prefix_witness :
  exists t,
    truncateString "zotero" 4 = Some t
    /\ runes t = List.app (firstn (Z.to_nat (4 - 3)) (runes "zotero"))
                          [46; 46; 46].
Proof.
  apply (truncateString_keeps_prefix "zotero" 4); [lia|].
  vm_compute; reflexivity.
Defined.

End TruncationRunes.

(* ================================================================== *)
(** * Further properties: attachment paths *)
(* ================================================================== *)

Section AttachmentPaths.

Lemma cut_some (a : string) (sep : ascii) :
  has_byte sep a = true -> exists p q, cut a sep = Some (p, q).
Proof.
  induction a as [|c a IH]; cbn [has_byte cut]; [discriminate|].
  destruct (Ascii.eqb c sep); [eauto|]. cbn [orb].
  intros H. destruct (IH H) as (p & q & ->). eauto.
Qed.

(** An entry splits in two exactly when it holds a colon. *)
Lemma strings_SplitN2_colon (att : string) :
  (has_byte ":"%char att = true
   /\ exists p0 p1, strings_SplitN2 att ":"%char = [p0; p1])
  \/ (has_byte ":"%char att = false
      /\ strings_SplitN2 att ":"%char = [att]).
Proof.
  unfold strings_SplitN2. destruct (has_byte ":"%char att) eqn:H.
  - left. split; [reflexivity|].
    destruct (cut_some _ _ H) as (p & q & ->). eauto.
  - right. split; [reflexivity|]. now rewrite cut_none.
Qed.

Lemma Clean_not_empty (path : string) : Filepath.Clean path <> "".
Proof.
  unfold Filepath.Clean. destruct path as [|c p]; [discriminate|].
  match goal with
  | |- (if is_empty ?o then _ else _) <> _ =>
      destruct (is_empty o) eqn:E; [discriminate|]
  end.
  now apply is_empty_false.
Qed.

(** A join that starts with a non-empty element is not empty. *)
Lemma Join_not_empty (root : string) (rest : list string) :
  root <> "" -> Filepath.Join (root :: rest) <> "".
Proof.
  intros H. cbn [Filepath.Join]. apply is_empty_false in H. rewrite H.
  apply Clean_not_empty.
Qed.

(** Property X4.
    With a storage root, [getStoragePath] is empty exactly when the
    attachments field is absent, empty, or has a first entry without a
    colon: the other entries are never looked at. *)
Theorem getStoragePath_empty_iff (cfg : Config) (item : Item) :
  StoragePath cfg <> "" ->
  (getStoragePath cfg item = ""
   <-> Valid (Attachments item) = false
       \/ NString (Attachments item) = ""
       \/ has_byte ":"%char (first_entry (NString (Attachments item))) = false).
Proof.
  intros Hroot. unfold getStoragePath, first_entry.
  destruct (Valid (Attachments item)); cbn [negb orb]; [|tauto].
  destruct (is_empty (NString (Attachments item))) eqn:He.
  { apply is_empty_true in He. tauto. }
  apply is_empty_false in He.
  destruct (strings_Split (NString (Attachments item)) ","%char)
    as [|a0 others] eqn:Hs.
  { now apply strings_Split_nonempty in Hs. }
  cbn [hd].
  destruct (strings_SplitN2_colon a0) as [[Hc (p0 & p1 & ->)]|[Hc ->]].
  - split.
    + intros H. now apply Join_not_empty in H.
    + intros [H|[H|H]]; congruence.
  - split; auto.
Qed.

Lemma getStoragePath_empty_iff_witness :
  getStoragePath cfg0
    (mkItem "AB12CD34" "T" (mkNullString "" false)
            (mkNullString "notes,KEY1:storage:a.pdf" true)) = "".
Proof.
  apply (getStoragePath_empty_iff cfg0); [discriminate|].
  right. right. reflexivity.
Defined.

(** Property X5.
    The path [Open] resolves is the path on the first row that verbose
    printing writes for the item. *)
Theorem getStoragePath_is_first_row (cfg : Config) (item : Item) :
  getStoragePath cfg item <> "" ->
  exists title tags rest,
    printItem cfg item true
    = Some (fmt_row (StableID item) title tags (getStoragePath cfg item)
              :: rest).
Proof.
  intros Hp.
  destruct (printItem_verbose cfg item) as (title & tags & _ & _ & ->).
  exists title, tags.
  unfold getStoragePath, attachment_paths in *.
  destruct (Valid (Attachments item)); cbn [negb orb andb] in *;
    [|contradiction].
  destruct (is_empty (NString (Attachments item))); cbn [negb] in *;
    [contradiction|].
  destruct (strings_Split (NString (Attachments item)) ","%char)
    as [|a0 others]; [contradiction|].
  cbn [flat_map].
  destruct (strings_SplitN2 a0 ":"%char) as [|p0 [|p1 [|p2 l]]];
    try contradiction.
  cbn [List.app map]. eauto.
Qed.

Lemma getStoragePath_is_first_row_witness :
  exists title tags rest,
    printItem cfg0 Sample.item1 true
    = Some (fmt_row (StableID Sample.item1) title tags
                    (getStoragePath cfg0 Sample.item1) :: rest).
Proof.
  apply (getStoragePath_is_first_row cfg0 Sample.item1).
  vm_compute. discriminate.
Defined.

Lemma flat_map_length_filter {A B : Type} (f : A -> list B) (p : A -> bool)
  (l : list A) :
  (forall a, List.length (f a) = if p a then 1%nat else 0%nat) ->
  List.length (flat_map f l) = List.length (filter p l).
Proof.
  intros H. induction l as [|a l IH]; [reflexivity|].
  cbn [flat_map filter]. rewrite length_app, H, IH.
  destruct (p a); reflexivity.
Qed.

(** Property X6.
    Verbose printing writes one row for each entry of the attachments
    field that holds a colon, and one row when the field is absent or
    empty. *)
Theorem printItem_row_count (cfg : Config) (item : Item) :
  exists out,
    printItem cfg item true = Some out
    /\ List.length out
       = if Valid (Attachments item)
            && negb (is_empty (NString (Attachments item)))
         then List.length
                (filter (has_byte ":"%char)
                        (strings_Split (NString (Attachments item)) ","%char))
         else 1%nat.
Proof.
  destruct (printItem_verbose cfg item) as (title & tags & _ & _ & ->).
  eexists. split; [reflexivity|].
  rewrite length_map. unfold attachment_paths.
  destruct (Valid (Attachments item)
            && negb (is_empty (NString (Attachments item)))); [|reflexivity].
  apply flat_map_length_filter. intros att.
  destruct (strings_SplitN2_colon att) as [[-> (p0 & p1 & ->)]|[-> ->]];
    reflexivity.
Qed.

End AttachmentPaths.

Section StoragePaths.

Lemma path_piece_no_separator (s : string) :
  path_piece s -> has_byte "/"%char s = false.
Proof. intros [->|(_ & _ & _ & H)]; [reflexivity | exact H]. Qed.

(** Splitting what was joined gives the pieces back. *)
Lemma strings_Split_Join (l : list string) :
  l <> [] -> Forall path_piece l ->
  strings_Split (strings_Join l "/") "/"%char = l.
Proof.
  intros Hne H. induction H as [|a l Ha Hl IH]; [contradiction|].
  destruct l as [|b l].
  - cbn [strings_Join]. apply strings_Split_one.
    now apply path_piece_no_separator.
  - change (strings_Join (a :: b :: l) "/")
      with (a ++ String "/"%char (strings_Join (b :: l) "/")).
    rewrite strings_Split_first by now apply path_piece_no_separator.
    f_equal. apply IH. discriminate.
Qed.

Lemma clean_steps (l acc : list string) :
  Forall path_piece l ->
  fold_left (Filepath.clean_step true) l acc
  = List.app (rev (kept_pieces l)) acc.
Proof.
  intros H. revert acc. induction H as [|a l Ha _ IH]; intros acc;
    [reflexivity|].
  cbn [fold_left kept_pieces filter]. rewrite IH. fold (kept_pieces l).
  destruct Ha as [->|(H1 & H2 & H3 & _)]; [reflexivity|].
  unfold Filepath.clean_step.
  apply String.eqb_neq in H2, H3. pose proof H1 as H1'.
  apply String.eqb_neq in H1. rewrite H1, H2, H3. cbn [orb].
  apply is_empty_false in H1'. rewrite H1'. cbn [negb rev].
  now rewrite <- List.app_assoc.
Qed.

(** [filepath.Clean] on an absolute path without dot elements: doubled
    and trailing separators go, the elements stay. *)
Lemma Clean_rooted (l : list string) :
  l <> [] -> Forall path_piece l ->
  Filepath.Clean (strings_Join ("" :: l) "/")
  = "/" ++ strings_Join (kept_pieces l) "/".
Proof.
  intros Hne H. unfold Filepath.Clean.
  assert (Hj : strings_Join ("" :: l) "/"
               = String "/"%char (strings_Join l "/")).
  { destruct l; [contradiction | reflexivity]. }
  rewrite Hj. cbv beta iota zeta. unfold Filepath.Separator.
  rewrite Ascii.eqb_refl. rewrite <- Hj.
  rewrite strings_Split_Join; [|discriminate|constructor; [now left|exact H]].
  rewrite clean_steps by (constructor; [now left|exact H]).
  cbn [kept_pieces filter is_empty negb]. fold (kept_pieces l).
  rewrite List.app_nil_r, rev_involutive. reflexivity.
Qed.

Lemma Clean_storage (key file : string) :
  path_element key -> path_element file ->
  Filepath.Clean (strings_Join [StoragePath cfg0; key; file] "/")
  = StoragePath cfg0 ++ key ++ "/" ++ file.
Proof.
  intros Hk Hf.
  change (strings_Join [StoragePath cfg0; key; file] "/")
    with (strings_Join
            ("" :: ["Users"; "vania"; "data"; "zotero"; "storage"; "";
                    key; file])
            "/").
  rewrite Clean_rooted.
  - destruct Hk as [Hk _], Hf as [Hf _].
    apply is_empty_false in Hk, Hf.
    unfold kept_pieces. cbn [filter is_empty negb]. rewrite Hk, Hf.
    reflexivity.
  - discriminate.
  - repeat (apply Forall_cons;
            [first [ left; reflexivity
                   | right; assumption
                   | right; repeat split; (discriminate || reflexivity) ]|]).
    apply Forall_nil.
Qed.

(** The path of a field that starts with a pair. *)
Lemma getStoragePath_pair (cfg : Config) (item : Item)
  (key rel rest : string) :
  Valid (Attachments item) = true ->
  NString (Attachments item) = key ++ ":" ++ rel ++ rest ->
  has_byte ":"%char key = false ->
  has_byte ","%char key = false ->
  has_byte ","%char rel = false ->
  (rest = "" \/ exists more, rest = "," ++ more) ->
  getStoragePath cfg item
  = Filepath.Join [StoragePath cfg; key; strings_TrimPrefix rel "storage:"].
Proof.
  intros Hv Hs Hk1 Hk2 Hr Hrest.
  unfold getStoragePath. rewrite Hv, Hs. cbn [negb orb].
  assert (Hne : is_empty (key ++ ":" ++ rel ++ rest) = false).
  { apply is_empty_false. destruct key; discriminate. }
  rewrite Hne.
  assert (Hfirst : exists others,
             strings_Split (key ++ ":" ++ rel ++ rest) ","%char
             = (key ++ ":" ++ rel) :: others).
  { destruct Hrest as [->|[more ->]].
    - exists []. rewrite string_app_nil_r. apply strings_Split_one.
      rewrite has_byte_app. cbn. now rewrite Hk2, Hr.
    - exists (strings_Split more ","%char).
      change (key ++ ":" ++ rel ++ "," ++ more)
        with (key ++ (":" ++ rel) ++ String ","%char more).
      rewrite <- string_app_assoc. apply strings_Split_first.
      rewrite has_byte_app. cbn. now rewrite Hk2, Hr. }
  destruct Hfirst as [others ->].
  unfold strings_SplitN2.
  change (key ++ ":" ++ rel) with (key ++ String ":"%char rel).
  rewrite cut_first by exact Hk1. reflexivity.
Qed.

(** Property X7.
    With the configuration of [main], an attachments field that starts
    with [KEY:storage:FILE], where [KEY] and [FILE] are plain names,
    resolves to the file [FILE] in the directory [KEY] of the storage
    root. *)
Theorem getStoragePath_in_storage (item : Item) (key file rest : string) :
  Valid (Attachments item) = true ->
  NString (Attachments item) = key ++ ":storage:" ++ file ++ rest ->
  path_element key -> has_byte ":"%char key = false ->
  has_byte ","%char key = false ->
  path_element file -> has_byte ","%char file = false ->
  (rest = "" \/ exists more, rest = "," ++ more) ->
  getStoragePath cfg0 item = StoragePath cfg0 ++ key ++ "/" ++ file.
Proof.
  intros Hv Hs Hk Hk1 Hk2 Hf Hf2 Hrest.
  assert (Hrel : has_byte ","%char ("storage:" ++ file) = false)
    by (rewrite has_byte_app; now rewrite Hf2).
  rewrite (getStoragePath_pair cfg0 item key ("storage:" ++ file) rest
             Hv Hs Hk1 Hk2 Hrel Hrest).
  rewrite strings_TrimPrefix_app.
  cbn [Filepath.Join StoragePath cfg0 is_empty].
  now apply Clean_storage.
Qed.

Lemma getStoragePath_in_storage_witness :
  getStoragePath cfg0 Sample.item1
  = StoragePath cfg0 ++ "CCCC3333" ++ "/" ++ "paper.pdf".
Proof.
  apply (getStoragePath_in_storage Sample.item1 "CCCC3333" "paper.pdf" "");
    try reflexivity.
  - repeat split; (discriminate || reflexivity).
  - repeat split; (discriminate || reflexivity).
  - now left.
Defined.

End StoragePaths.

(* ================================================================== *)
(** * Further properties: the width of the printed columns *)
(* ================================================================== *)

Section Columns.
Import Utf8 Utf8Facts.

Lemma decode_width_le (l : list Z) :
  (snd (DecodeRune l) <= List.length l)%nat.
Proof.
  destruct l as [|b0 [|b1 [|b2 [|b3 r]]]];
    unfold DecodeRune, first, between;
    repeat first [ progress cbn [snd List.length negb Nat.leb] | lia | split_if ].
Qed.

Lemma decode_tail (bs t : list Z) :
  bs <> [] -> ascii_head t ->
  DecodeRune (List.app bs t) = DecodeRune bs.
Proof.
  intros Hne Ht.
  destruct bs as [|b0 [|b1 [|b2 [|b3 r]]]]; [contradiction| | | |reflexivity];
    destruct t as [|c t']; rewrite ?List.app_nil_r; try reflexivity;
    cbn [List.app ascii_head] in *;
    unfold DecodeRune, first, between;
    repeat first [ reflexivity | lia
                 | progress cbn [negb Nat.leb] | split_if ].
Qed.

Lemma count_from_app (t : list Z) (bs : list Z) (k : nat) :
  ascii_head t -> (k <= List.length bs)%nat ->
  count_from k (List.app bs t) = (count_from k bs + count_from 0 t)%nat.
Proof.
  intros Ht. revert k. induction bs as [|b bs IH]; intros k Hk.
  - cbn in Hk. assert (k = 0%nat) as -> by lia. reflexivity.
  - cbn [List.app count_from]. destruct k as [|k].
    + change (b :: List.app bs t) with (List.app (b :: bs) t).
      rewrite decode_tail by (discriminate || exact Ht).
      pose proof (decode_width_le (b :: bs)) as Hw. cbn [List.length] in Hw.
      rewrite IH by lia. reflexivity.
    + cbn [List.length] in Hk. apply IH. lia.
Qed.

Lemma bytes_spaces (k : nat) : bytes (spaces k) = repeat 32 k.
Proof. induction k as [|k IH]; [reflexivity|]. cbn. now rewrite IH. Qed.

Lemma count_spaces (k : nat) : count_from 0 (repeat 32 k) = k.
Proof.
  induction k as [|k IH]; [reflexivity|].
  cbn [repeat count_from]. rewrite width1 by lia. cbn [Nat.pred].
  now rewrite IH.
Qed.

Lemma ascii_head_spaces (k : nat) : ascii_head (repeat 32 k).
Proof. destruct k; cbn; [exact I | lia]. Qed.

(** Padding fills up to the width and never cuts. *)
Lemma RuneCount_fmt_pad (w : nat) (s : string) :
  RuneCountInString (fmt_pad w s) = Nat.max w (RuneCountInString s).
Proof.
  unfold fmt_pad, RuneCountInString.
  rewrite bytes_app, bytes_spaces.
  rewrite count_from_app by (apply ascii_head_spaces || lia).
  rewrite count_spaces. lia.
Qed.

Lemma RuneCount_app (a b : string) :
  ascii_head (bytes b) ->
  RuneCountInString (a ++ b)
  = (RuneCountInString a + RuneCountInString b)%nat.
Proof.
  intros H. unfold RuneCountInString. rewrite bytes_app.
  apply count_from_app; [exact H | lia].
Qed.

Lemma RuneCount_ascii_cons (a : ascii) (s : string) :
  byte_val a < 0x80 ->
  RuneCountInString (String a s) = S (RuneCountInString s).
Proof.
  intros H. unfold RuneCountInString. cbn [bytes count_from].
  rewrite width1; [reflexivity|].
  unfold byte_val in *. lia.
Qed.

Ltac ascii_goal :=
  cbn [String.append bytes ascii_head]; unfold byte_val;
  cbn [N_of_ascii ascii_of_nat]; vm_compute; reflexivity.

(** The length of a row in runes. *)
Lemma RuneCount_fmt_row (id title tags path : string) :
  RuneCountInString (fmt_row id title tags path)
  = (Nat.max 8 (RuneCountInString id)
     + 1 + Nat.max 25 (RuneCountInString title)
     + 1 + Nat.max 15 (RuneCountInString tags)
     + 1 + RuneCountInString path + 1)%nat.
Proof.
  unfold fmt_row, TAB, NL.
  rewrite (RuneCount_app (fmt_pad 8 id)) by ascii_goal.
  cbn [String.append]. rewrite RuneCount_ascii_cons by ascii_goal.
  rewrite (RuneCount_app (fmt_pad 25 title)) by ascii_goal.
  cbn [String.append]. rewrite RuneCount_ascii_cons by ascii_goal.
  rewrite (RuneCount_app (fmt_pad 15 tags)) by ascii_goal.
  cbn [String.append]. rewrite RuneCount_ascii_cons by ascii_goal.
  rewrite (RuneCount_app path) by ascii_goal.
  rewrite !RuneCount_fmt_pad.
  change (RuneCountInString (String (ascii_of_nat 10) "")) with 1%nat.
  lia.
Qed.

(** Property X8.
    Every row of verbose output has the same layout: the identifier
    padded to 8 runes (longer identifiers are kept whole), then the title
    in exactly 25 runes and the tags in exactly 15, each followed by a
    tab, then the path and a newline. *)
Theorem printItem_row_width (cfg : Config) (item : Item)
  (out : list string) (row : string) :
  printItem cfg item true = Some out -> In row out ->
  exists path,
    In path (attachment_paths cfg item)
    /\ RuneCountInString row
       = (Nat.max 8 (RuneCountInString (StableID item)) + 44
          + RuneCountInString path)%nat.
Proof.
  intros Hout Hrow.
  destruct (printItem_verbose cfg item) as (title & tags & Ht & Hg & Hp).
  rewrite Hp in Hout. injection Hout as <-.
  apply in_map_iff in Hrow as (path & <- & Hpath).
  exists path. split; [exact Hpath|].
  rewrite RuneCount_fmt_row.
  destruct (truncateString_width (Title item) 25) as (t & Ht' & Hw & _);
    [lia|].
  assert (t = title) as -> by congruence.
  assert (Hgw : (RuneCountInString tags <= 15)%nat).
  { destruct (Valid (Tags item)).
    - destruct (truncateString_width (NString (Tags item)) 15)
        as (g & Hg' & Hgw & _); [lia|].
      assert (g = tags) as -> by congruence. lia.
    - injection Hg as <-. cbn. lia. }
  lia.
Qed.

Lemma printItem_row_width_witness :
  exists path,
    In path (attachment_paths cfg0 Sample.item1)
    /\ RuneCountInString
         (fmt_row "AAAA1111" "Attention is all you need" "ml,nlp"
                  "/Users/vania/data/zotero/storage/CCCC3333/paper.pdf")
       = (Nat.max 8 (RuneCountInString (StableID Sample.item1)) + 44
          + RuneCountInString path)%nat.
Proof.
  apply (printItem_row_width cfg0 Sample.item1
           [fmt_row "AAAA1111" "Attention is all you need" "ml,nlp"
                    "/Users/vania/data/zotero/storage/CCCC3333/paper.pdf"]).
  - vm_compute. reflexivity.
  - now left.
Defined.

End Columns.

(* ================================================================== *)
(** * Further properties: what the operations print and start *)
(* ================================================================== *)

Section Outputs.

Variable env : Env.

(** Property X9.
    [List] prints the listed items in the order of the listing: without
    the verbose flag one line per item, its identifier; with it the rows
    of each item. *)
Theorem CLI_List_prints_items (cfg : Config) (f g : string) (w : World)
  (listed : list Item) :
  fst (ListItems env f g w) = Some (listed, None) ->
  w_stdout (snd (CLI_List env cfg f g false w))
  = List.app (w_stdout w) (map (fun item => StableID item ++ NL) listed)
  /\ forall verbose,
       fst (CLI_List env cfg f g verbose w) = Some None
       /\ w_stdout (snd (CLI_List env cfg f g verbose w))
          = List.app (w_stdout w) (flat_map (printed cfg verbose) listed).
Proof.
  intros Hl.
  assert (Hrun : forall verbose,
             CLI_List env cfg f g verbose w
             = (Some None,
                mkWorld (w_db w)
                        (slice_append (w_sent w) (list_query f g))
                        (List.app (w_stdout w)
                                  (flat_map (printed cfg verbose) listed))
                        (w_log w) (w_launched w))).
  { intros verbose. unfold CLI_List.
    pose proof (ListItems_run env f g w) as HL.
    rewrite HL in Hl. cbn [fst] in Hl. injection Hl as Hl.
    rewrite Hl in HL. rewrite (bind_run _ _ _ _ _ HL).
    unfold bind. rewrite print_items_out. cbn.
    now destruct (list_query f g). }
  split.
  - rewrite Hrun. cbn [snd w_stdout].
    assert (Hq : flat_map (printed cfg false) listed
                 = map (fun item => StableID item ++ NL) listed).
    { clear. induction listed as [|item l IH]; [reflexivity|].
      cbn [flat_map map]. now rewrite IH. }
    now rewrite Hq.
  - intros verbose. now rewrite Hrun.
Qed.

(** Property X10.
    When the item is fetched and has an attachment path, [Reference]
    prints one line, the link with the title, the identifier asked for,
    the tags in braces (empty braces without tags), the version and the
    path; it returns no error and starts no command. *)
Theorem CLI_Reference_prints_link (cfg : Config) (stableID : string)
  (w : World) (item : Item) :
  fetch env (w_db w) stableID = inr item ->
  getStoragePath cfg item <> "" ->
  fst (CLI_Reference env cfg stableID w) = Some None
  /\ w_stdout (snd (CLI_Reference env cfg stableID w))
     = List.app (w_stdout w)
         [ "[zotero: " ++ Title item ++ ", stableid: " ++ stableID
           ++ ", tags: " ++ reference_tags item ++ ", version: " ++ Version cfg
           ++ "](" ++ getStoragePath cfg item ++ ")" ++ NL ]
  /\ w_launched (snd (CLI_Reference env cfg stableID w)) = w_launched w.
Proof.
  intros Hf Hp. rewrite CLI_Reference_run, Hf.
  apply is_empty_false in Hp. rewrite Hp.
  rewrite (fetch_StableID env (w_db w) stableID item Hf).
  repeat split.
Qed.

(** Property X11.
    A run starts at most one command, the OS command [open] with the
    path of the item, and only for the subcommand [open] after the item
    was fetched and its path resolved; listing, [reference] and a run
    that fails before that point start none. *)
Theorem main_starts_only_open (fl : Flags) (w : World) :
  exists cmds,
    w_launched (snd (main env fl w)) = List.app (w_launched w) cmds
    /\ (cmds = []
        \/ exists stableID item,
             flag_Args fl = ["open"; stableID]
             /\ fetch env (w_db w) stableID = inr item
             /\ getStoragePath cfg0 item <> ""
             /\ cmds = [["open"; getStoragePath cfg0 item]]).
Proof.
  destruct (open_db_error env) as [e|] eqn:Ho.
  { rewrite (main_without_database env fl w e Ho). exists []. cbn.
    rewrite List.app_nil_r. auto. }
  destruct (main_cases env fl w Ho)
    as [(_ & r & w' & Hr & ->)
       |[(s & Ha & r & w' & Hr & ->)
        |[(s & _ & r & w' & Hr & ->)|(_ & _ & _ & msg & ->)]]].
  - destruct (CLI_List_frame env cfg0 (titleFlag fl) (tagFlag fl)
                (verboseFlag fl) w) as (_ & Hl & _).
    rewrite Hr in Hl. cbn [snd] in Hl.
    exists []. rewrite List.app_nil_r. split; [|now left].
    destruct r; cbn; exact Hl.
  - assert (Hw : w_launched (snd (match r with
                                  | Some err =>
                                      log_Fatal ("Error opening item: "
                                                 ++ Error err) w'
                                  | None => (Some 0%Z, w')
                                  end)) = w_launched w')
      by (destruct r; reflexivity).
    rewrite Hw. clear Hw.
    rewrite CLI_Open_run in Hr.
    destruct (fetch env (w_db w) s) as [e|item] eqn:Hf.
    { injection Hr as _ <-. exists []. cbn. rewrite List.app_nil_r. auto. }
    destruct (is_empty (getStoragePath cfg0 item)) eqn:Hp.
    { injection Hr as _ <-. exists []. cbn. rewrite List.app_nil_r. auto. }
    injection Hr as _ <-. exists [["open"; getStoragePath cfg0 item]].
    split; [reflexivity|]. right. exists s, item.
    apply is_empty_false in Hp. auto.
  - destruct (CLI_Reference_frame env cfg0 s w) as (_ & Hl & _).
    rewrite Hr in Hl. cbn [snd] in Hl.
    exists []. rewrite List.app_nil_r. split; [|now left].
    destruct r; cbn; exact Hl.
  - exists []. cbn. rewrite List.app_nil_r. auto.
Qed.

End Outputs.

Lemma CLI_List_prints_items_witness :
  w_stdout (snd (CLI_List Sample.env cfg0 "" "" false Sample.world))
  = List.app (w_stdout Sample.world)
             (map (fun item => StableID item ++ NL)
                  [Sample.item1; Sample.item2]).
Proof.
  apply (CLI_List_prints_items Sample.env cfg0 "" "" Sample.world
           [Sample.item1; Sample.item2]).
  vm_compute. reflexivity.
Defined.

Lemma CLI_Reference_prints_link_witness :
  fst (CLI_Reference Sample.env cfg0 "AAAA1111" Sample.world) = Some None.
Proof.
  apply (CLI_Reference_prints_link Sample.env cfg0 "AAAA1111" Sample.world
           Sample.item1).
  - vm_compute. reflexivity.
  - vm_compute. discriminate.
Defined.

(* ================================================================== *)
(** * Further properties: the items of a listing and of a fetch *)
(* ================================================================== *)

Section ListedItems.
Import Sqlite SqliteFacts Listing.

Lemma In_distinct_str (l : list string) (x : string) :
  In x (distinct_str l) <-> In x l.
Proof.
  induction l as [|y l IH]; [reflexivity|].
  cbn [distinct_str In]. rewrite filter_In, IH.
  destruct (String.eqb_spec x y) as [->|Hne]; cbn.
  - split; auto.
  - split.
    + intros [H|[H _]]; auto.
    + intros [H|H]; [congruence | auto].
Qed.

Lemma NoDup_distinct_str (l : list string) : NoDup (distinct_str l).
Proof.
  induction l as [|y l IH]; [constructor|].
  cbn [distinct_str]. constructor.
  - rewrite filter_In. intros [_ H]. now rewrite String.eqb_refl in H.
  - now apply NoDup_filter.
Qed.

Lemma In_group_of (rows : list JoinRow) (x : Z) (r : JoinRow) :
  In r (group_of rows x) <-> In r rows /\ itemID (r_i r) = x.
Proof.
  unfold group_of. rewrite filter_In. split; intros [H1 H2]; split; auto; lia.
Qed.

(** The tags of an item depend on its id only. *)
Lemma item_tags_same_id (db : Database) (i j : items_row) :
  itemID i = itemID j -> item_tags db i = item_tags db j.
Proof. intros H. unfold item_tags. now rewrite H. Qed.

Lemma In_item_tags (db : Database) (i : items_row) (n : string) :
  In n (item_tags db i)
  <-> exists g t, In g (itemTags db) /\ itag_itemID g = itemID i
                  /\ In t (tags db) /\ t_tagID t = itag_tagID g
                  /\ t_name t = n.
Proof.
  unfold item_tags. rewrite in_flat_map. split.
  - intros (g & Hg & H).
    destruct (Z.eqb_spec (itag_itemID g) (itemID i)) as [Hi|]; [|destruct H].
    apply in_map_iff in H as (t & Hn & Ht). apply filter_In in Ht as [Ht Hid].
    exists g, t. repeat split; try assumption. lia.
  - intros (g & t & Hg & Hi & Ht & Hid & Hn). exists g. split; [exact Hg|].
    rewrite Hi, Z.eqb_refl. apply in_map_iff. exists t. split; [exact Hn|].
    apply filter_In. split; [exact Ht | lia].
Qed.

Lemma listed_item_head (env : Env) (f g : string) (w : World)
  (listed : list Item) (item : Item) :
  fst (ListItems env f g w) = Some (listed, None) ->
  In item listed ->
  exists r0,
    group_head (selected_rows (w_db w) (list_conds f g)) (itemID (r_i r0))
    = Some r0
    /\ Scan (select_group r0
               (group_of (selected_rows (w_db w) (list_conds f g))
                         (itemID (r_i r0)))) = inr item.
Proof.
  intros Hok Hin. apply ListItems_success in Hok.
  destruct (Forall2_In_r _ _ _ _ Hok Hin) as (row & Hrow & Hs).
  apply In_run_select in Hrow as (r0 & Hh & ->). now exists r0.
Qed.

(** What a row of the join keeps when its tag columns are replaced. *)
Lemma swap_tag (db : Database) (f g : string) (r : JoinRow)
  (og : option itemTags_row) (ot : option tags_row) :
  In r (selected_rows db (list_conds f g)) ->
  In og (left (filter (fun x => itag_itemID x =? itemID (r_i r)) (itemTags db))) ->
  In ot (left (on og (fun x t => t_tagID t =? itag_tagID x) (tags db))) ->
  (is_empty g
   || match ot with
      | Some t => like ("%" ++ g ++ "%") (t_name t)
      | None => false
      end) = true ->
  In (mkJoinRow (r_i r) (r_id r) (r_idv r) (r_it r) og ot (r_ia r) (r_child r))
     (selected_rows db (list_conds f g)).
Proof.
  intros Hr Hog Hot Hm.
  apply In_selected_rows in Hr as [Hj Hw]. apply In_selected_rows.
  apply In_joined in Hj as (H1 & H2 & H3 & H4 & _ & _ & H7 & H8).
  split.
  - apply In_joined. cbn [r_i r_id r_idv r_it r_itag r_t r_ia r_child].
    repeat split; assumption.
  - rewrite where_all_list_conds in *.
    apply andb_true_iff in Hw as [Hw _].
    unfold where_base, eval_cond in *.
    cbn [r_i r_id r_idv r_it r_itag r_t r_ia r_child].
    now rewrite Hw, Hm.
Qed.

(** The tag names of the rows of a group: the tags of the item that pass
    the tag filter. *)
Lemma group_tag_names (db : Database) (f g : string) (r0 : JoinRow)
  (n : string) :
  In r0 (selected_rows db (list_conds f g)) ->
  (exists r t,
      In r (group_of (selected_rows db (list_conds f g)) (itemID (r_i r0)))
      /\ r_t r = Some t /\ t_name t = n)
  <-> In n (item_tags db (r_i r0)) /\ (g = "" \/ like_filter g n = true).
Proof.
  intros Hr0. split.
  - intros (r & t & Hr & Ht & Hn).
    apply In_group_of in Hr as [Hr Hid].
    apply In_selected_rows in Hr as [Hj Hw].
    apply In_joined in Hj as (_ & _ & _ & _ & Hitag & Htag & _).
    rewrite Ht in Htag. apply In_left, In_on in Htag as (g0 & Hg0 & Hin & Heq).
    rewrite Hg0 in Hitag. apply In_left, filter_In in Hitag as [Hgin Hgi].
    split.
    + rewrite <- (item_tags_same_id db (r_i r) (r_i r0)) by exact Hid.
      apply In_item_tags. exists g0, t. repeat split; try assumption; lia.
    + rewrite where_all_list_conds in Hw.
      apply andb_true_iff in Hw as [_ Hw].
      destruct (is_empty g) eqn:Hg; [left; now apply is_empty_true|].
      right. cbn [orb] in Hw. unfold eval_cond in Hw. rewrite Ht, Hn in Hw.
      exact Hw.
  - intros [Hn Hm]. apply In_item_tags in Hn as (g0 & t & Hg & Hi & Ht & Hid & Hn).
    exists (mkJoinRow (r_i r0) (r_id r0) (r_idv r0) (r_it r0) (Some g0) (Some t)
                      (r_ia r0) (r_child r0)), t.
    split; [|split; [reflexivity | exact Hn]].
    apply In_group_of. split; [|reflexivity].
    apply swap_tag; try assumption.
    + apply In_left, filter_In. split; [exact Hg | lia].
    + apply In_left, In_on. exists g0. repeat split; try assumption. lia.
    + destruct Hm as [->|Hm]; [reflexivity|].
      rewrite Hn. unfold like_filter in Hm. rewrite Hm. apply orb_true_r.
Qed.

Lemma In_somes {A : Type} (l : list (option A)) (x : A) :
  In x (flat_map (fun v => match v with Some s => [s] | None => [] end) l)
  <-> In (Some x) l.
Proof.
  rewrite in_flat_map. split.
  - intros ([y|] & Hy & Hx); [|destruct Hx].
    destruct Hx as [<-|[]]. exact Hy.
  - intros H. exists (Some x). split; [exact H | now left].
Qed.

Lemma group_concat_names (vals : list (option string)) :
  scan_NullString (group_concat_distinct vals)
  = joined_names
      (distinct_str
         (flat_map (fun v => match v with Some s => [s] | None => [] end) vals)).
Proof.
  unfold group_concat_distinct, joined_names.
  destruct (distinct_str _); reflexivity.
Qed.

(** Property X12.
    The tags of a listed item: the distinct names of the tags of the item,
    joined with commas, and with a tag filter only the names that match
    it; the field is then never NULL. *)
Theorem listed_tags_pass_filter (env : Env) (f g : string) (w : World)
  (listed : list Item) (item : Item) :
  fst (ListItems env f g w) = Some (listed, None) ->
  In item listed ->
  exists i names,
    In i (items (w_db w)) /\ key i = StableID item
    /\ Tags item = joined_names names
    /\ NoDup names
    /\ (forall n, In n names
                  <-> In n (item_tags (w_db w) i)
                      /\ (g = "" \/ like_filter g n = true))
    /\ (g <> "" -> Valid (Tags item) = true).
Proof.
  intros Hok Hin.
  destruct (listed_item_head env f g w listed item Hok Hin) as (r0 & Hh & Hs).
  set (rows := selected_rows (w_db w) (list_conds f g)) in *.
  destruct (group_head_In _ _ _ Hh) as [Hr0 _].
  pose proof Hr0 as Hsel. apply In_selected_rows in Hsel as [Hj Hw].
  apply In_joined in Hj as (Hi & _).
  pose proof (Scan_key _ _ Hs) as Hk. cbn [select_group c_key] in Hk.
  destruct (Scan_NullString _ _ Hs) as [Ht _].
  cbn [select_group c_tags] in Ht. rewrite group_concat_names in Ht.
  set (names := distinct_str _) in Ht.
  assert (Hnames : forall n, In n names
                             <-> In n (item_tags (w_db w) (r_i r0))
                                 /\ (g = "" \/ like_filter g n = true)).
  { intros n. unfold names. rewrite In_distinct_str, In_somes, in_map_iff.
    rewrite <- (group_tag_names (w_db w) f g r0 n Hr0). split.
    - intros (r & Hn & Hr). destruct (r_t r) as [t|] eqn:Et; [|discriminate].
      injection Hn as Hn. now exists r, t.
    - intros (r & t & Hr & Et & Hn). exists r. rewrite Et, Hn. auto. }
  exists (r_i r0), names. split; [exact Hi|]. split; [congruence|].
  split; [exact Ht|]. split; [apply NoDup_distinct_str|].
  split; [exact Hnames|].
  intros Hg. rewrite Ht.
  (* the first row of the group carries a tag that passes *)
  rewrite where_all_list_conds in Hw. apply andb_true_iff in Hw as [_ Hw].
  apply is_empty_false in Hg. rewrite Hg in Hw. cbn [orb] in Hw.
  unfold eval_cond in Hw. destruct (r_t r0) as [t|] eqn:Et; [|discriminate].
  assert (Hn : In (t_name t) names).
  { apply Hnames. apply (group_tag_names (w_db w) f g r0 (t_name t) Hr0).
    exists r0, t. repeat split; try assumption.
    apply In_group_of. now split. }
  unfold joined_names. destruct names; [destruct Hn | reflexivity].
Qed.

(** Property X13.
    A listed item is an item of the library of a displayed type that is
    no child attachment; its title is a value of its title field, and
    matches the title filter when there is one. *)
Theorem listed_title_is_item_title (env : Env) (f g : string) (w : World)
  (listed : list Item) (item : Item) :
  fst (ListItems env f g w) = Some (listed, None) ->
  In item listed ->
  exists i,
    In i (items (w_db w)) /\ key i = StableID item
    /\ listable (w_db w) i = true
    /\ In (Title item) (item_titles (w_db w) i)
    /\ (f <> "" -> like_filter f (Title item) = true).
Proof.
  intros Hok Hin.
  destruct (listed_item_head env f g w listed item Hok Hin) as (r0 & Hh & Hs).
  destruct (group_head_In _ _ _ Hh) as [Hr0 _].
  destruct (proj1 (selected_row_of_item (w_db w) f g (r_i r0))) as [Hi Hp];
    [now exists r0|].
  pose proof (Scan_key _ _ Hs) as Hk. cbn [select_group c_key] in Hk.
  exists (r_i r0). split; [exact Hi|]. split; [congruence|].
  split. { unfold passes in Hp. now rewrite !andb_true_iff in Hp. }
  (* the title scanned is the value of the first row *)
  assert (Ht : exists v, r_idv r0 = Some v /\ idv_value v = Title item).
  { unfold Scan in Hs. cbn [select_group c_key c_title] in Hs.
    destruct (r_idv r0) as [v|]; [|discriminate].
    injection Hs as <-. now exists v. }
  destruct Ht as (v & Ev & Hv).
  apply In_selected_rows in Hr0 as [Hj Hw].
  apply In_joined in Hj as (_ & Hid & Hidv & _).
  rewrite Ev in Hidv. apply In_left, In_on in Hidv as (d & Ed & Hvin & Hvid).
  rewrite Ed in Hid. apply In_left, filter_In in Hid as [Hd Hdi].
  rewrite where_all_list_conds in Hw.
  apply andb_true_iff in Hw as [Hw _]. apply andb_true_iff in Hw as [Hb Htl].
  unfold where_base in Hb. rewrite Ed in Hb.
  apply andb_true_iff in Hb as [Hb _]. apply andb_true_iff in Hb as [_ Hfld].
  split.
  - unfold item_titles. apply in_flat_map. exists d. split; [exact Hd|].
    rewrite Hdi. cbn [andb]. destruct (title_field (w_db w)); [|discriminate].
    rewrite Hfld. apply in_map_iff. exists v. split; [exact Hv|].
    apply filter_In. now split.
  - intros Hf. apply is_empty_false in Hf. rewrite Hf in Htl. cbn [orb] in Htl.
    unfold eval_cond in Htl. rewrite Ev, Hv in Htl. exact Htl.
Qed.

Lemma swap_attachment (db : Database) (conds : list (Cond * string))
  (r : JoinRow) (oa : option itemAttachments_row) (oc : option items_row) :
  In r (selected_rows db conds) ->
  In oa (left (filter (attachment_of (r_i r)) (itemAttachments db))) ->
  In oc (left (on oa (fun a c => itemID c =? ia_itemID a) (items db))) ->
  In (mkJoinRow (r_i r) (r_id r) (r_idv r) (r_it r) (r_itag r) (r_t r) oa oc)
     (selected_rows db conds).
Proof.
  intros Hr Hoa Hoc.
  apply In_selected_rows in Hr as [Hj Hw]. apply In_selected_rows.
  apply In_joined in Hj as (H1 & H2 & H3 & H4 & H5 & H6 & _ & _).
  split.
  - apply In_joined. cbn [r_i r_id r_idv r_it r_itag r_t r_ia r_child].
    repeat split; assumption.
  - unfold where_all, where_base in *.
    cbn [r_i r_id r_idv r_it r_itag r_t r_ia r_child].
    apply andb_true_iff in Hw as [Hb Hc]. rewrite Hb. cbn [andb].
    rewrite forallb_forall in *. intros ca Hca. specialize (Hc ca Hca).
    destruct (fst ca); exact Hc.
Qed.

Lemma attachment_of_same_id (i j : items_row) (a : itemAttachments_row) :
  itemID i = itemID j -> attachment_of i a = attachment_of j a.
Proof. intros H. unfold attachment_of. now rewrite H. Qed.

Lemma In_item_attachments (db : Database) (i : items_row) (e : string) :
  In e (item_attachments db i)
  <-> exists a c, In a (itemAttachments db) /\ attachment_of i a = true
                  /\ In c (items db) /\ itemID c = ia_itemID a
                  /\ e = key c ++ ":" ++ coalesce_path a.
Proof.
  unfold item_attachments. rewrite in_flat_map. split.
  - intros (a & Ha & H).
    destruct (attachment_of i a) eqn:Hat; [|destruct H].
    apply in_map_iff in H as (c & He & Hc). apply filter_In in Hc as [Hc Hid].
    exists a, c. repeat split; try assumption; try lia. now symmetry.
  - intros (a & c & Ha & Hat & Hc & Hid & ->). exists a. split; [exact Ha|].
    rewrite Hat. apply in_map_iff. exists c. split; [reflexivity|].
    apply filter_In. split; [exact Hc | lia].
Qed.

Lemma group_attachment_entries (db : Database) (conds : list (Cond * string))
  (r0 : JoinRow) (e : string) :
  In r0 (selected_rows db conds) ->
  (exists r, In r (group_of (selected_rows db conds) (itemID (r_i r0)))
             /\ attachment_expr r = Some e)
  <-> In e (item_attachments db (r_i r0)).
Proof.
  intros Hr0. rewrite In_item_attachments. split.
  - intros (r & Hr & He). apply In_group_of in Hr as [Hr Hid].
    apply In_selected_rows in Hr as [Hj _].
    apply In_joined in Hj as (_ & _ & _ & _ & _ & _ & Hia & Hch).
    unfold attachment_expr in He.
    destruct (r_child r) as [c|] eqn:Ec; [|discriminate].
    apply In_left, In_on in Hch as (a & Ea & Hc & Hcid).
    rewrite Ea in Hia, He. apply In_left, filter_In in Hia as [Ha Hat].
    exists a, c. repeat split; try assumption; try lia.
    + now rewrite <- (attachment_of_same_id (r_i r) (r_i r0)).
    + injection He as <-. reflexivity.
  - intros (a & c & Ha & Hat & Hc & Hid & ->).
    exists (mkJoinRow (r_i r0) (r_id r0) (r_idv r0) (r_it r0) (r_itag r0)
                      (r_t r0) (Some a) (Some c)).
    split; [|reflexivity].
    apply In_group_of. split; [|reflexivity].
    apply swap_attachment; try assumption.
    + apply In_left, filter_In. now split.
    + apply In_left, In_on. exists a. repeat split; try assumption. lia.
Qed.

(** Property X14.
    The attachments of a listed item: the distinct entries [key:path] of
    its attachment rows, joined with commas; every entry holds a colon. *)
Theorem listed_attachments_are_pairs (env : Env) (f g : string) (w : World)
  (listed : list Item) (item : Item) :
  fst (ListItems env f g w) = Some (listed, None) ->
  In item listed ->
  exists i entries,
    In i (items (w_db w)) /\ key i = StableID item
    /\ Attachments item = joined_names entries
    /\ NoDup entries
    /\ (forall e, In e entries <-> In e (item_attachments (w_db w) i))
    /\ (forall e, In e entries -> has_byte ":"%char e = true).
Proof.
  intros Hok Hin.
  destruct (listed_item_head env f g w listed item Hok Hin) as (r0 & Hh & Hs).
  set (rows := selected_rows (w_db w) (list_conds f g)) in *.
  destruct (group_head_In _ _ _ Hh) as [Hr0 _].
  pose proof Hr0 as Hsel. apply In_selected_rows in Hsel as [Hj _].
  apply In_joined in Hj as (Hi & _).
  pose proof (Scan_key _ _ Hs) as Hk. cbn [select_group c_key] in Hk.
  destruct (Scan_NullString _ _ Hs) as [_ Ha].
  cbn [select_group c_attachments] in Ha. rewrite group_concat_names in Ha.
  set (entries := distinct_str _) in Ha.
  assert (Hent : forall e, In e entries
                           <-> In e (item_attachments (w_db w) (r_i r0))).
  { intros e. unfold entries. rewrite In_distinct_str, In_somes, in_map_iff.
    rewrite <- (group_attachment_entries (w_db w) (list_conds f g) r0 e Hr0).
    split; intros (r & H1 & H2); exists r; auto. }
  exists (r_i r0), entries. split; [exact Hi|]. split; [congruence|].
  split; [exact Ha|]. split; [apply NoDup_distinct_str|].
  split; [exact Hent|].
  intros e He. apply Hent, In_item_attachments in He
    as (a & c & _ & _ & _ & _ & ->).
  rewrite has_byte_app. cbn. apply orb_true_r.
Qed.

Lemma where_all_key (db : Database) (stableID : string) (r : JoinRow) :
  where_all db [(KeyEq, stableID)] r
  = where_all db (list_conds "" "") r && String.eqb (key (r_i r)) stableID.
Proof.
  unfold where_all, list_conds. cbn [is_empty List.app forallb fst snd eval_cond].
  now rewrite !andb_true_r.
Qed.

Lemma passes_unfiltered (db : Database) (i : items_row) :
  passes like_filter db "" "" i = listable db i.
Proof. unfold passes. cbn [is_empty orb]. now rewrite !andb_true_r. Qed.

(** An item has a row in the statement of [GetByStableID] exactly when it
    is a listable item with the key asked for. *)
Lemma key_row_of_item (db : Database) (stableID : string) (i : items_row) :
  (exists r, In r (selected_rows db [(KeyEq, stableID)]) /\ r_i r = i)
  <-> In i (items db) /\ listable db i = true /\ key i = stableID.
Proof.
  rewrite <- passes_unfiltered. split.
  - intros (r & Hr & Hi). apply In_selected_rows in Hr as [Hj Hw].
    rewrite where_all_key in Hw. apply andb_true_iff in Hw as [Hw Hk].
    destruct (proj1 (selected_row_of_item db "" "" i)) as [H1 H2].
    { exists r. split; [|exact Hi]. apply In_selected_rows. now split. }
    repeat split; try assumption. rewrite <- Hi. now apply String.eqb_eq.
  - intros (Hi & Hp & Hk).
    destruct (proj2 (selected_row_of_item db "" "" i) (conj Hi Hp))
      as (r & Hr & Hri).
    exists r. split; [|exact Hri].
    apply In_selected_rows in Hr as [Hj Hw]. apply In_selected_rows.
    split; [exact Hj|]. rewrite where_all_key, Hw, Hri.
    now apply String.eqb_eq.
Qed.

Lemma run_select_nil (db : Database) (conds : list (Cond * string)) :
  run_select db conds = [] <-> selected_rows db conds = [].
Proof.
  split.
  - intros H. destruct (selected_rows db conds) as [|r l] eqn:Hsel;
      [reflexivity|].
    assert (Hin : In (itemID (r_i r))
                     (map (fun r => itemID (r_i r)) (selected_rows db conds)))
      by (rewrite Hsel; now left).
    apply group_head_Some in Hin as [r0 Hh].
    assert (Hrow : In (select_group r0 (group_of (selected_rows db conds)
                                                 (itemID (r_i r0))))
                      (run_select db conds)).
    { apply In_run_select. exists r0. split; [|reflexivity].
      destruct (group_head_In _ _ _ Hh) as [_ Hid]. now rewrite Hid. }
    rewrite H in Hrow. destruct Hrow.
  - intros H. unfold run_select. fold (selected_rows db conds). now rewrite H.
Qed.

Lemma Scan_not_ErrNoRows (r : ResultRow) : Scan r <> inl ErrNoRows.
Proof.
  unfold Scan. destruct (c_key r); [|discriminate].
  destruct (c_title r); discriminate.
Qed.

(** Property X15.
    Without a fault of the database, fetching fails with [sql.ErrNoRows]
    exactly when no item with the key takes part in listings. *)
Theorem fetch_not_found_iff (env : Env) (db : Database) (stableID : string) :
  fault env = NoFault ->
  (fetch env db stableID = inl ErrNoRows
   <-> forall i, In i (items db) -> key i = stableID -> listable db i = false).
Proof.
  intros Hf. unfold fetch. rewrite query_outcome_get, Hf.
  cbn [Row_Scan rows_delivered rows_Err].
  destruct (run_select db [(KeyEq, stableID)]) as [|row rest] eqn:Hrows.
  - split; [|reflexivity]. intros _ i Hi Hk.
    apply run_select_nil in Hrows.
    destruct (listable db i) eqn:Hl; [|reflexivity].
    destruct (proj2 (key_row_of_item db stableID i)) as (r & Hr & _);
      [now repeat split|].
    rewrite Hrows in Hr. destruct Hr.
  - split; [intros H; now apply Scan_not_ErrNoRows in H|].
    intros Hnone. exfalso.
    destruct (selected_rows db [(KeyEq, stableID)]) as [|r l] eqn:Hsel.
    + apply run_select_nil in Hsel. congruence.
    + destruct (proj1 (key_row_of_item db stableID (r_i r)))
        as (Hi & Hl & Hk).
      { exists r. split; [rewrite Hsel; now left | reflexivity]. }
      rewrite (Hnone _ Hi Hk) in Hl. discriminate.
Qed.

Lemma Forall2_In_l {A B : Type} (R : A -> B -> Prop) (l : list A)
  (l' : list B) (a : A) :
  Forall2 R l l' -> In a l -> exists b, In b l' /\ R a b.
Proof.
  induction 1 as [|x y l l' Hxy _ IH]; intros Hin; [destruct Hin|].
  destruct Hin as [<-|Hin].
  - exists y. split; [now left | exact Hxy].
  - destruct (IH Hin) as (b & Hb & Hr). exists b. split; [now right | exact Hr].
Qed.

(** Item ids are a primary key: an id names one row of [items]. *)
Lemma primary_key (l : list items_row) (i j : items_row) :
  NoDup (map itemID l) -> In i l -> In j l -> itemID i = itemID j -> i = j.
Proof.
  induction l as [|x l IH]; intros Hnd Hi Hj He; [destruct Hi|].
  cbn [map] in Hnd. apply NoDup_cons_iff in Hnd as [Hx Hnd].
  destruct Hi as [->|Hi], Hj as [->|Hj].
  - reflexivity.
  - exfalso. apply Hx. rewrite He. now apply in_map.
  - exfalso. apply Hx. rewrite <- He. now apply in_map.
  - now apply IH.
Qed.

Lemma filter_filter {A : Type} (p q : A -> bool) (l : list A) :
  filter p (filter q l) = filter (fun x => q x && p x) l.
Proof.
  induction l as [|x l IH]; [reflexivity|]. cbn [filter].
  destruct (q x); cbn [filter andb]; [destruct (p x)|]; now rewrite IH.
Qed.

(** With item ids as a primary key, the group of an item in the statement
    of [GetByStableID] is its group in the unfiltered listing. *)
Lemma key_group (db : Database) (stableID : string) (r0 : JoinRow) :
  NoDup (map itemID (items db)) ->
  In r0 (selected_rows db [(KeyEq, stableID)]) ->
  group_of (selected_rows db [(KeyEq, stableID)]) (itemID (r_i r0))
  = group_of (selected_rows db (list_conds "" "")) (itemID (r_i r0)).
Proof.
  intros Hnd Hr0. unfold group_of, selected_rows. rewrite !filter_filter.
  apply filter_ext_in. intros r Hr. rewrite where_all_key.
  destruct (where_all db (list_conds "" "") r); [|reflexivity].
  cbn [andb]. destruct (Z.eqb_spec (itemID (r_i r)) (itemID (r_i r0)))
    as [He|]; [|now rewrite andb_false_r].
  apply In_selected_rows in Hr0 as [Hj0 Hw0].
  rewrite where_all_key in Hw0. apply andb_true_iff in Hw0 as [_ Hk].
  apply In_joined in Hr as (Hi & _). apply In_joined in Hj0 as (Hi0 & _).
  rewrite (primary_key _ _ _ Hnd Hi Hi0 He), Hk. reflexivity.
Qed.

(** Property X16.
    With item ids as a primary key, an item that can be fetched by its
    key is shown by the listing without filters: the identifier of the
    fetched item, the key asked for, is among the identifiers listed. *)
Theorem fetched_key_is_listed (env : Env) (w : World) (stableID : string)
  (item : Item) (listed : list Item) :
  NoDup (map itemID (items (w_db w))) ->
  fetch env (w_db w) stableID = inr item ->
  fst (ListItems env "" "" w) = Some (listed, None) ->
  StableID item = stableID /\ In stableID (map StableID listed).
Proof.
  intros Hnd Hfetch Hlist.
  pose proof (fetch_StableID _ _ _ _ Hfetch) as Hid.
  split; [exact Hid|]. rewrite <- Hid. apply in_map.
  apply ListItems_success in Hlist.
  assert (Hrow : exists row, In row (run_select (w_db w) [(KeyEq, stableID)])
                             /\ Scan row = inr item).
  { unfold fetch in Hfetch. rewrite query_outcome_get in Hfetch.
    destruct (fault env) as [|e|k e];
      cbn [Row_Scan rows_delivered rows_Err] in Hfetch.
    - destruct (run_select _ _) as [|row rest]; [discriminate|].
      exists row. split; [now left | exact Hfetch].
    - discriminate.
    - destruct (firstn k (run_select (w_db w) [(KeyEq, stableID)]))
        as [|row rest] eqn:Hk; [discriminate|].
      exists row. split; [|exact Hfetch].
      apply In_firstn with k. rewrite Hk. now left. }
  destruct Hrow as (row & Hrow & Hs).
  apply In_run_select in Hrow as (r0 & Hh & ->).
  destruct (group_head_In _ _ _ Hh) as [Hr0 _].
  rewrite (key_group _ _ _ Hnd Hr0) in Hs.
  assert (Hall : In (select_group r0
                       (group_of (selected_rows (w_db w) (list_conds "" ""))
                                 (itemID (r_i r0))))
                    (run_select (w_db w) (list_conds "" ""))).
  { apply In_run_select. exists r0. split; [|reflexivity].
    unfold group_head in *. fold (group_of (selected_rows (w_db w) (list_conds "" "")) (itemID (r_i r0))).
    fold (group_of (selected_rows (w_db w) [(KeyEq, stableID)]) (itemID (r_i r0))) in Hh.
    now rewrite <- (key_group _ _ _ Hnd Hr0). }
  destruct (Forall2_In_l _ _ _ _ Hlist Hall) as (item' & Hin & Hs').
  rewrite Hs in Hs'. injection Hs' as <-. exact Hin.
Qed.


(** With a title filter every row of the result has a title. *)
Lemma title_filter_rows (db : Database) (f g : string) (row : ResultRow) :
  f <> "" -> In row (run_select db (list_conds f g)) -> c_title row <> None.
Proof.
  intros Hf Hrow. apply In_run_select in Hrow as (r0 & Hh & ->).
  cbn [select_group c_title].
  destruct (group_head_In _ _ _ Hh) as [Hr0 _].
  apply In_selected_rows in Hr0 as [_ Hw].
  rewrite where_all_list_conds in Hw.
  apply andb_true_iff in Hw as [Hw _]. apply andb_true_iff in Hw as [_ Ht].
  apply is_empty_false in Hf. rewrite Hf in Ht. cbn [orb] in Ht.
  unfold eval_cond in Ht. destruct (r_idv r0); [discriminate|discriminate].
Qed.

(** Rows with a key and a title are scanned without error. *)
Lemma scan_all_titles (rows : list ResultRow) (acc : list Item) :
  (forall r, In r rows -> c_key r <> None /\ c_title r <> None) ->
  exists items, scan_all rows acc = inr items.
Proof.
  revert acc. induction rows as [|r rows IH]; intros acc H; cbn [scan_all].
  - now exists acc.
  - assert (Hk : exists item, Scan r = inr item).
    { destruct (H r) as [Hkey Ht]; [now left|]. unfold Scan.
      destruct (c_key r); [|congruence].
      destruct (c_title r); [eauto | congruence]. }
    destruct Hk as [item ->]. apply IH. intros r' Hr'. apply H. now right.
Qed.

(** Property X17.
    With a title filter, and filters within the limit SQLite puts on
    patterns, a listing never fails on scanning a row, since every row
    selected has a title: when it fails, the database refused the
    statement or the cursor stopped, and the error returned is that
    error with the context of the step. *)
Theorem ListItems_title_filter_scans (env : Env) (f g : string) (w : World)
  (items : list Item) (err : error) :
  f <> "" -> within_like_limit f -> within_like_limit g ->
  fst (ListItems env f g w) = Some (items, Some err) ->
  exists e,
    (fault env = QueryFault e
     /\ err = wrapError ("executing query: " ++ Error e) e)
    \/ (exists k, fault env = RowsFault k e
                  /\ err = wrapError ("iterating rows: " ++ Error e) e).
Proof.
  intros Hne Hf Hg. rewrite ListItems_run. cbn [fst].
  rewrite query_outcome_list, (within_limit_conds f g Hf Hg).
  assert (Hscan : forall rows,
             (forall r, In r rows -> In r (run_select (w_db w) (list_conds f g))) ->
             exists l, scan_all rows [] = inr l).
  { intros rows Hsub. apply scan_all_titles. intros r Hr. split.
    - apply (run_select_has_key (w_db w) (list_conds f g)). now apply Hsub.
    - apply (title_filter_rows (w_db w) f g); [exact Hne | now apply Hsub]. }
  destruct (fault env) as [|e|k e]; cbn [rows_delivered rows_Err].
  - destruct (Hscan (run_select (w_db w) (list_conds f g))) as [l ->];
      [auto | discriminate].
  - intros [= _ <-]. exists e. left. split; reflexivity.
  - destruct (Hscan (firstn k (run_select (w_db w) (list_conds f g))))
      as [l ->]; [intros r Hr; now apply In_firstn in Hr|].
    intros [= _ <-]. exists e. right. exists k. split; reflexivity.
Qed.

End ListedItems.

Lemma listed_tags_pass_filter_witness :
  exists i names,
    In i (Sqlite.items (w_db Sample.world))
    /\ Sqlite.key i = "AAAA1111"
    /\ mkNullString "nlp" true = joined_names names
    /\ NoDup names
    /\ (forall n, In n names
                  <-> In n (Listing.item_tags (w_db Sample.world) i)
                      /\ ("nl" = "" \/ Listing.like_filter "nl" n = true))
    /\ ("nl" <> "" -> Valid (mkNullString "nlp" true) = true).
Proof.
  apply (listed_tags_pass_filter Sample.env "" "nl" Sample.world
           [mkItem "AAAA1111" "Attention is all you need"
                   (mkNullString "nlp" true)
                   (mkNullString "CCCC3333:storage:paper.pdf" true)]
           (mkItem "AAAA1111" "Attention is all you need"
                   (mkNullString "nlp" true)
                   (mkNullString "CCCC3333:storage:paper.pdf" true))).
  - vm_compute. reflexivity.
  - now left.
Defined.

Lemma listed_title_is_item_title_witness :
  exists i,
    In i (Sqlite.items (w_db Sample.world))
    /\ Sqlite.key i = "AAAA1111"
    /\ Listing.listable (w_db Sample.world) i = true
    /\ In "Attention is all you need"
          (Listing.item_titles (w_db Sample.world) i)
    /\ ("atten" <> ""
        -> Listing.like_filter "atten" "Attention is all you need" = true).
Proof.
  apply (listed_title_is_item_title Sample.env "atten" "" Sample.world
           [Sample.item1] Sample.item1).
  - vm_compute. reflexivity.
  - now left.
Defined.

Lemma listed_attachments_are_pairs_witness :
  exists i entries,
    In i (Sqlite.items (w_db Sample.world))
    /\ Sqlite.key i = "AAAA1111"
    /\ mkNullString "CCCC3333:storage:paper.pdf" true = joined_names entries
    /\ NoDup entries
    /\ (forall e, In e entries
                  <-> In e (item_attachments (w_db Sample.world) i))
    /\ (forall e, In e entries -> has_byte ":"%char e = true).
Proof.
  apply (listed_attachments_are_pairs Sample.env "" "" Sample.world
           [Sample.item1; Sample.item2] Sample.item1).
  - vm_compute. reflexivity.
  - now left.
Defined.

Lemma fetch_not_found_iff_witness :
  fetch Sample.env Sample.db "CCCC3333" = inl ErrNoRows
  <-> forall i, In i (Sqlite.items Sample.db) -> Sqlite.key i = "CCCC3333" ->
                Listing.listable Sample.db i = false.
Proof.
  apply (fetch_not_found_iff Sample.env Sample.db "CCCC3333"). reflexivity.
Defined.

Lemma fetched_key_is_listed_witness :
  StableID Sample.item1 = "AAAA1111"
  /\ In "AAAA1111" (map StableID [Sample.item1; Sample.item2]).
Proof.
  apply (fetched_key_is_listed Sample.env Sample.world "AAAA1111"
           Sample.item1 [Sample.item1; Sample.item2]).
  - cbn. repeat constructor; cbn; intuition discriminate.
  - vm_compute. reflexivity.
  - vm_compute. reflexivity.
Defined.

Lemma ListItems_title_filter_scans_witness :
  exists e,
    (fault (mkEnv None (RowsFault 0 (errorString "disk I/O error"))
                  (fun _ => None)) = QueryFault e
     /\ wrapError "iterating rows: disk I/O error"
                  (errorString "disk I/O error")
        = wrapError ("executing query: " ++ Error e) e)
    \/ (exists k,
           fault (mkEnv None (RowsFault 0 (errorString "disk I/O error"))
                        (fun _ => None)) = RowsFault k e
           /\ wrapError "iterating rows: disk I/O error"
                        (errorString "disk I/O error")
              = wrapError ("iterating rows: " ++ Error e) e).
Proof.
  apply (ListItems_title_filter_scans
           (mkEnv None (RowsFault 0 (errorString "disk I/O error"))
                  (fun _ => None))
           "atten" "" Sample.world []).
  - discriminate.
  - vm_compute. discriminate.
  - vm_compute. discriminate.
  - vm_compute. reflexivity.
Defined.
